(** * hummingbot: the command shell's strategy start, stop and exit paths

    A shallow embedding of [hummingbot/cli/hummingbot_application.py]
    (class [HummingbotApplication]).  The application object is a record,
    its methods are computations in a small state-and-exception monad, and
    everything the methods call outside the file (the [wings] markets,
    wallet and clock, the settings module, the symbol splitter, the
    argument parser, Python's [re]) is either modelled as data or taken
    from a record of external functions. *)

From Stdlib Require Import List String Ascii Bool Arith Lia QArith.
Import ListNotations.
Close Scope Q_scope.
Open Scope nat_scope.
Open Scope string_scope.

Set Implicit Arguments.

(* ================================================================== *)
(** ** Python strings *)

Module PyStr.

(** The line feed, written ["\n"] in the source. *)
Definition nl : string := String (ascii_of_nat 10) EmptyString.

(** [sep.join(parts)] *)
Definition join (sep : string) (parts : list string) : string :=
  String.concat sep parts.

Definition is_upper (c : ascii) : bool :=
  let n := nat_of_ascii c in ((65 <=? n) && (n <=? 90))%nat.

Definition is_lower (c : ascii) : bool :=
  let n := nat_of_ascii c in ((97 <=? n) && (n <=? 122))%nat.

Definition lower_char (c : ascii) : ascii :=
  if is_upper c then ascii_of_nat (nat_of_ascii c + 32) else c.

Definition upper_char (c : ascii) : ascii :=
  if is_lower c then ascii_of_nat (nat_of_ascii c - 32) else c.

(** [s.lower()] and [s.upper()], on ASCII text. *)
Fixpoint lower (s : string) : string :=
  match s with
  | EmptyString => EmptyString
  | String c r => String (lower_char c) (lower r)
  end.

Fixpoint upper (s : string) : string :=
  match s with
  | EmptyString => EmptyString
  | String c r => String (upper_char c) (upper r)
  end.

(** [c.isspace()] on the first 256 code points: the space, the controls
    9 to 13 and 28 to 31, the next-line control U+0085 and the no-break
    space U+00A0.  [strip()] and [split()] take these for white space. *)
Definition is_space (c : ascii) : bool :=
  let n := nat_of_ascii c in
  ((n =? 32) || ((9 <=? n) && (n <=? 13)) || ((28 <=? n) && (n <=? 31))
   || (n =? 133) || (n =? 160))%nat.

(** [s.split()]: the maximal runs of non-blank characters.  [cur] holds
    the run being read, reversed. *)
Fixpoint split_aux (s : string) (cur : list ascii) : list string :=
  let flush (k : list string) :=
    match cur with
    | [] => k
    | _ => string_of_list_ascii (rev cur) :: k
    end in
  match s with
  | EmptyString => flush []
  | String c r =>
      if is_space c then flush (split_aux r [])
      else split_aux r (c :: cur)
  end.

Definition split (s : string) : list string := split_aux s [].

Fixpoint lstrip (s : string) : string :=
  match s with
  | String c r => if is_space c then lstrip r else s
  | EmptyString => s
  end.

Definition reverse (s : string) : string :=
  string_of_list_ascii (rev (list_ascii_of_string s)).

(** [s.strip()] *)
Definition strip (s : string) : string :=
  reverse (lstrip (reverse (lstrip s))).

End PyStr.

(* ================================================================== *)
(** ** Compiled patterns of Python's [re]

    [start_market_making] compiles each pattern of the
    [top_depth_tolerance] setting and calls [Pattern.match] on the maker
    symbol.  A compiled pattern is a regular expression; [match] succeeds
    when some prefix of the subject is in its language, which is decided
    here with derivatives. *)

Module Re.

Inductive Pattern : Type :=
| Never                          (* matches nothing *)
| Empty                          (* the empty pattern *)
| Chr (c : ascii)                (* a literal character *)
| Dot                            (* [.]: any character but a line feed *)
| Seq (p q : Pattern)
| Alt (p q : Pattern)            (* [p|q] *)
| Star (p : Pattern).            (* [p*] *)

Fixpoint nullable (p : Pattern) : bool :=
  match p with
  | Never => false
  | Empty => true
  | Chr _ => false
  | Dot => false
  | Seq p q => nullable p && nullable q
  | Alt p q => nullable p || nullable q
  | Star _ => true
  end.

Fixpoint deriv (a : ascii) (p : Pattern) : Pattern :=
  match p with
  | Never => Never
  | Empty => Never
  | Chr c => if Ascii.eqb a c then Empty else Never
  | Dot => if Ascii.eqb a (ascii_of_nat 10) then Never else Empty
  | Seq p q =>
      if nullable p
      then Alt (Seq (deriv a p) q) (deriv a q)
      else Seq (deriv a p) q
  | Alt p q => Alt (deriv a p) (deriv a q)
  | Star p => Seq (deriv a p) (Star p)
  end.

(** [p.match(s) is not None]: a match anchored at the start of [s],
    not at its end. *)
Fixpoint matches (p : Pattern) (s : string) : bool :=
  nullable p ||
  match s with
  | EmptyString => false
  | String a r => matches (deriv a p) r
  end.

(** The patterns the example settings are written in: literal
    characters, [.] and a postfix [*].  The characters below have a
    meaning of their own in [re]; a pattern that holds one of them other
    than [*] is outside this fragment.  A [\]] or a [}] that no bracket
    or brace opens is a literal. *)
Definition is_meta (c : ascii) : bool :=
  existsb (Ascii.eqb c)
    (list_ascii_of_string "\^$*+?{[|()").

Definition in_fragment (s : string) : bool :=
  forallb (fun c => negb (is_meta c) || Ascii.eqb c "*"%char)
    (list_ascii_of_string s).

Definition atom (c : ascii) : Pattern :=
  if Ascii.eqb c "."%char then Dot else Chr c.

(** [re.compile] on the fragment: [None] is the [re.error] of a [*] with
    nothing to repeat or of a repeated [*].  Outside the fragment the
    answer [None] is not [re]'s; the example settings hold patterns of
    the fragment only. *)
Fixpoint compile (s : string) : option Pattern :=
  match s with
  | EmptyString => Some Empty
  | String c r =>
      if is_meta c then None
      else match r with
           | String "*"%char r' =>
               option_map (Seq (Star (atom c))) (compile r')
           | _ => option_map (Seq (atom c)) (compile r)
           end
  end.

End Re.

(* ================================================================== *)
(** ** Resolving the top-depth tolerance

    Lines 478-482 of the source: the tolerance starts at [0.0] and every
    rule whose pattern matches the maker symbol overwrites it, the loop
    running to the end of the rules.  Tolerances are Python floats the
    code only carries around; they are rationals here. *)

Definition tolerance_step (symbol : string) (acc : Q)
    (rule : Re.Pattern * Q) : Q :=
  let '(regex, tolerance_value) := rule in
  if Re.matches regex symbol then tolerance_value else acc.

Definition resolve_top_depth_tolerance
    (top_depth_tolerance_rules : list (Re.Pattern * Q))
    (raw_maker_symbol : string) : Q :=
  fold_left (tolerance_step raw_maker_symbol) top_depth_tolerance_rules 0%Q.

(* ================================================================== *)
(** ** Python dictionaries

    [self.markets] is a [dict] keyed by market name.  A dictionary keeps
    its keys in insertion order and assigning to a key that is present
    replaces its value in place. *)

Definition Dict (V : Type) : Type := list (string * V).

Fixpoint dict_set {V : Type} (k : string) (v : V) (d : Dict V) : Dict V :=
  match d with
  | [] => [(k, v)]
  | (k', v') :: r =>
      if String.eqb k k' then (k', v) :: r else (k', v') :: dict_set k v r
  end.

Fixpoint dict_get {V : Type} (k : string) (d : Dict V) : option V :=
  match d with
  | [] => None
  | (k', v') :: r => if String.eqb k k' then Some v' else dict_get k r
  end.

Definition dict_keys {V : Type} (d : Dict V) : list string := map fst d.
Definition dict_values {V : Type} (d : Dict V) : list V := map snd d.

(* ================================================================== *)
(** ** The objects the application holds *)

(** Modelled from the spec: the [CancellationResult] of [wings], which is
    not among the sources.  Section 3: an order id and a success flag,
    produced by a bulk-cancel call. *)
Record CancellationResult : Type := {
  order_id : string;
  success : bool
}.

Record LocalAccount : Type := {
  address : string;
  privateKey : string
}.

Inductive EthereumChain : Type := MAIN_NET | ROPSTEN.

Record Web3Wallet : Type := {
  private_key : string;
  backend_urls : list string;
  erc20_token_addresses : list string;
  chain : EthereumChain
}.

(** Modelled from the spec: the market classes of [wings], which are not
    among the sources.  Section 6: a market adapter has [ready: bool] and
    [cancel_all(timeout)] returning a list of [CancellationResult]; these
    are the two members the application uses.  A call that raises or
    never returns is outside this model. *)
Record MarketBase : Type := {
  ready : bool;
  cancel_all : Q -> list CancellationResult
}.

(** Python's [None] is [None]: [_initialize_markets] stores [None] under
    a market name it does not know. *)
Definition Markets : Type := Dict (option MarketBase).

Inductive MarketPair : Type :=
| CrossExchangeMarketPair
    (maker_market : option MarketBase) (maker_symbol : string)
    (maker_base_asset maker_quote_asset : string)
    (taker_market : option MarketBase) (taker_symbol : string)
    (taker_base_asset taker_quote_asset : string)
    (top_depth_tolerance : Q)
| ArbitrageMarketPair
    (primary_market : option MarketBase) (primary_symbol : string)
    (primary_base_asset primary_quote_asset : string)
    (secondary_market : option MarketBase) (secondary_symbol : string)
    (secondary_base_asset secondary_quote_asset : string).

(** The logging flags the source combines with [|]. *)
Inductive LoggingOption : Type :=
| OPTION_LOG_CREATE_ORDER
| OPTION_LOG_ADJUST_ORDER
| OPTION_LOG_MAKER_ORDER_FILLED
| OPTION_LOG_REMOVING_ORDER
| OPTION_LOG_STATUS_REPORT
| OPTION_LOG_MAKER_ORDER_HEDGED
| OPTION_LOG_ALL.

Inductive Strategy : Type :=
| CrossExchangeMarketMakingStrategy
    (market_pairs : list MarketPair)
    (min_profitability : Q)
    (status_report_interval : Q)
    (logging_options : list LoggingOption)
    (trade_size_override : option Q)
    (limit_order_min_expiration : Q)
    (cancel_order_threshold : Q)
    (active_order_canceling : bool)
| ArbitrageStrategy
    (market_pairs : list MarketPair)
    (min_profitability : Q)
    (logging_options : list LoggingOption).

(** Modelled from the spec: the [Clock] of [wings.clock], which is not
    among the sources.  Section 3: a clock holds an ordered sequence of
    registered iterators; sections 4.1 and 8: [add_iterator] registers a
    participant and a tick invokes the participants in registration
    order.  So [add_iterator] puts its argument at the end. *)
Inductive ClockMode : Type := REALTIME | BACKTEST.

Inductive TimeIterator : Type :=
| IterWallet (w : option Web3Wallet)
| IterMarket (m : option MarketBase)
| IterStrategy (s : option Strategy).

Record Clock : Type := {
  clock_mode : ClockMode;
  iterators : list TimeIterator
}.

Definition new_clock (mode : ClockMode) : Clock :=
  {| clock_mode := mode; iterators := [] |}.

Definition add_iterator (it : TimeIterator) (c : Clock) : Clock :=
  {| clock_mode := clock_mode c; iterators := iterators c ++ [it] |}.

Record ReportAggregator : Type := {
  report_aggregation_interval : Q;
  log_report_interval : Q;
  running : bool
}.

(** Exceptions. *)
Inductive Exn : Type :=
| ValueError (msg : string)
| NotImplementedError
| AttributeError (msg : string)
| KeyError (key : string)
| InvalidCommandError (msg : string)
| ArgumentParserError (msg : string)
| ReError (msg : string)
| RecursionError (msg : string).

(** [str(e)] *)
Definition exn_str (e : Exn) : string :=
  match e with
  | ValueError m => m
  | NotImplementedError => ""
  | AttributeError m => m
  | KeyError k => "'" ++ k ++ "'"
  | InvalidCommandError m => m
  | ArgumentParserError m => m
  | ReError m => m
  | RecursionError m => m
  end.

(** What [asyncio.ensure_future] is given in this file. *)
Inductive Coroutine : Type :=
| CoStartMarketMaking (strategy_name : string)
| CoClockRun (c : Clock).

(** The states of an [asyncio] task: still to run or running, ended
    (with a result or with an exception), cancelled. *)
Inductive TaskState : Type := PENDING | FINISHED | CANCELLED.

(** An [asyncio.Task]: the coroutine it wraps; its state; whether
    [cancel()] was called on it while it was pending, a request that the
    event loop delivers when it next runs the task; and the exception it
    ended with, which the event loop stores in the task instead of
    raising it. *)
Record Task : Type := {
  coroutine : Coroutine;
  task_state : TaskState;
  cancel_requested : bool;
  exception : option Exn
}.

(** The task [asyncio.ensure_future] makes of a coroutine. *)
Definition new_task (co : Coroutine) : Task :=
  {| coroutine := co; task_state := PENDING; cancel_requested := false;
     exception := None |}.

Inductive LogLevel : Type := INFO | WARNING | ERROR.

(** The application object and everything its methods act upon.  The
    first nine fields are the attributes set in [__init__]; the others
    record the effects on the collaborators: the lines given to
    [self.app.log], whether [self.app.exit()] was called, the records
    sent to the [logging] loggers (logger name, level, message), every
    [cancel_all] call (market name, timeout), the tasks of the event
    loop ([strategy_task] refers to one by its index), the seconds slept,
    the log-level override and the exchange-rate service. *)
Record App : Type := {
  acct : option LocalAccount;
  markets : Markets;
  wallet : option Web3Wallet;
  strategy_task : option nat;
  strategy : option Strategy;
  market_pair : option MarketPair;
  clock : option Clock;
  placeholder_mode : bool;
  reporting_module : option ReportAggregator;
  app_log : list string;
  app_exited : bool;
  log_records : list (string * LogLevel * string);
  cancel_calls : list (string * Q);
  tasks : list Task;
  slept : list Q;
  log_level_override : option string;
  exchange_rate_conversion_started : bool
}.

(** The object [__init__] builds. *)
Definition init_app : App := {|
  acct := None; markets := []; wallet := None; strategy_task := None;
  strategy := None; market_pair := None; clock := None;
  placeholder_mode := false; reporting_module := None;
  app_log := []; app_exited := false; log_records := [];
  cancel_calls := []; tasks := []; slept := [];
  log_level_override := None; exchange_rate_conversion_started := false
|}.

(** Field updates. *)
Definition set_markets (v : Markets) (s : App) : App :=
  {|
    acct := acct s; markets := v; wallet := wallet s;
    strategy_task := strategy_task s; strategy := strategy s;
    market_pair := market_pair s; clock := clock s;
    placeholder_mode := placeholder_mode s;
    reporting_module := reporting_module s; app_log := app_log s;
    app_exited := app_exited s; log_records := log_records s;
    cancel_calls := cancel_calls s; tasks := tasks s; slept := slept s;
    log_level_override := log_level_override s;
    exchange_rate_conversion_started := exchange_rate_conversion_started s
  |}.

Definition set_wallet (v : option Web3Wallet) (s : App) : App :=
  {|
    acct := acct s; markets := markets s; wallet := v;
    strategy_task := strategy_task s; strategy := strategy s;
    market_pair := market_pair s; clock := clock s;
    placeholder_mode := placeholder_mode s;
    reporting_module := reporting_module s; app_log := app_log s;
    app_exited := app_exited s; log_records := log_records s;
    cancel_calls := cancel_calls s; tasks := tasks s; slept := slept s;
    log_level_override := log_level_override s;
    exchange_rate_conversion_started := exchange_rate_conversion_started s
  |}.

Definition set_strategy_task (v : option nat) (s : App) : App :=
  {|
    acct := acct s; markets := markets s; wallet := wallet s;
    strategy_task := v; strategy := strategy s;
    market_pair := market_pair s; clock := clock s;
    placeholder_mode := placeholder_mode s;
    reporting_module := reporting_module s; app_log := app_log s;
    app_exited := app_exited s; log_records := log_records s;
    cancel_calls := cancel_calls s; tasks := tasks s; slept := slept s;
    log_level_override := log_level_override s;
    exchange_rate_conversion_started := exchange_rate_conversion_started s
  |}.

Definition set_strategy (v : option Strategy) (s : App) : App :=
  {|
    acct := acct s; markets := markets s; wallet := wallet s;
    strategy_task := strategy_task s; strategy := v;
    market_pair := market_pair s; clock := clock s;
    placeholder_mode := placeholder_mode s;
    reporting_module := reporting_module s; app_log := app_log s;
    app_exited := app_exited s; log_records := log_records s;
    cancel_calls := cancel_calls s; tasks := tasks s; slept := slept s;
    log_level_override := log_level_override s;
    exchange_rate_conversion_started := exchange_rate_conversion_started s
  |}.

Definition set_market_pair (v : option MarketPair) (s : App) : App :=
  {|
    acct := acct s; markets := markets s; wallet := wallet s;
    strategy_task := strategy_task s; strategy := strategy s;
    market_pair := v; clock := clock s;
    placeholder_mode := placeholder_mode s;
    reporting_module := reporting_module s; app_log := app_log s;
    app_exited := app_exited s; log_records := log_records s;
    cancel_calls := cancel_calls s; tasks := tasks s; slept := slept s;
    log_level_override := log_level_override s;
    exchange_rate_conversion_started := exchange_rate_conversion_started s
  |}.

Definition set_clock (v : option Clock) (s : App) : App :=
  {|
    acct := acct s; markets := markets s; wallet := wallet s;
    strategy_task := strategy_task s; strategy := strategy s;
    market_pair := market_pair s; clock := v;
    placeholder_mode := placeholder_mode s;
    reporting_module := reporting_module s; app_log := app_log s;
    app_exited := app_exited s; log_records := log_records s;
    cancel_calls := cancel_calls s; tasks := tasks s; slept := slept s;
    log_level_override := log_level_override s;
    exchange_rate_conversion_started := exchange_rate_conversion_started s
  |}.

Definition set_reporting_module (v : option ReportAggregator) (s : App) : App :=
  {|
    acct := acct s; markets := markets s; wallet := wallet s;
    strategy_task := strategy_task s; strategy := strategy s;
    market_pair := market_pair s; clock := clock s;
    placeholder_mode := placeholder_mode s; reporting_module := v;
    app_log := app_log s; app_exited := app_exited s;
    log_records := log_records s; cancel_calls := cancel_calls s;
    tasks := tasks s; slept := slept s;
    log_level_override := log_level_override s;
    exchange_rate_conversion_started := exchange_rate_conversion_started s
  |}.

Definition set_app_log (v : list string) (s : App) : App :=
  {|
    acct := acct s; markets := markets s; wallet := wallet s;
    strategy_task := strategy_task s; strategy := strategy s;
    market_pair := market_pair s; clock := clock s;
    placeholder_mode := placeholder_mode s;
    reporting_module := reporting_module s; app_log := v;
    app_exited := app_exited s; log_records := log_records s;
    cancel_calls := cancel_calls s; tasks := tasks s; slept := slept s;
    log_level_override := log_level_override s;
    exchange_rate_conversion_started := exchange_rate_conversion_started s
  |}.

Definition set_app_exited (v : bool) (s : App) : App :=
  {|
    acct := acct s; markets := markets s; wallet := wallet s;
    strategy_task := strategy_task s; strategy := strategy s;
    market_pair := market_pair s; clock := clock s;
    placeholder_mode := placeholder_mode s;
    reporting_module := reporting_module s; app_log := app_log s;
    app_exited := v; log_records := log_records s;
    cancel_calls := cancel_calls s; tasks := tasks s; slept := slept s;
    log_level_override := log_level_override s;
    exchange_rate_conversion_started := exchange_rate_conversion_started s
  |}.

Definition set_log_records (v : list (string * LogLevel * string)) (s : App) : App :=
  {|
    acct := acct s; markets := markets s; wallet := wallet s;
    strategy_task := strategy_task s; strategy := strategy s;
    market_pair := market_pair s; clock := clock s;
    placeholder_mode := placeholder_mode s;
    reporting_module := reporting_module s; app_log := app_log s;
    app_exited := app_exited s; log_records := v;
    cancel_calls := cancel_calls s; tasks := tasks s; slept := slept s;
    log_level_override := log_level_override s;
    exchange_rate_conversion_started := exchange_rate_conversion_started s
  |}.

Definition set_cancel_calls (v : list (string * Q)) (s : App) : App :=
  {|
    acct := acct s; markets := markets s; wallet := wallet s;
    strategy_task := strategy_task s; strategy := strategy s;
    market_pair := market_pair s; clock := clock s;
    placeholder_mode := placeholder_mode s;
    reporting_module := reporting_module s; app_log := app_log s;
    app_exited := app_exited s; log_records := log_records s;
    cancel_calls := v; tasks := tasks s; slept := slept s;
    log_level_override := log_level_override s;
    exchange_rate_conversion_started := exchange_rate_conversion_started s
  |}.

Definition set_tasks (v : list Task) (s : App) : App :=
  {|
    acct := acct s; markets := markets s; wallet := wallet s;
    strategy_task := strategy_task s; strategy := strategy s;
    market_pair := market_pair s; clock := clock s;
    placeholder_mode := placeholder_mode s;
    reporting_module := reporting_module s; app_log := app_log s;
    app_exited := app_exited s; log_records := log_records s;
    cancel_calls := cancel_calls s; tasks := v; slept := slept s;
    log_level_override := log_level_override s;
    exchange_rate_conversion_started := exchange_rate_conversion_started s
  |}.

Definition set_slept (v : list Q) (s : App) : App :=
  {|
    acct := acct s; markets := markets s; wallet := wallet s;
    strategy_task := strategy_task s; strategy := strategy s;
    market_pair := market_pair s; clock := clock s;
    placeholder_mode := placeholder_mode s;
    reporting_module := reporting_module s; app_log := app_log s;
    app_exited := app_exited s; log_records := log_records s;
    cancel_calls := cancel_calls s; tasks := tasks s; slept := v;
    log_level_override := log_level_override s;
    exchange_rate_conversion_started := exchange_rate_conversion_started s
  |}.

Definition set_log_level_override (v : option string) (s : App) : App :=
  {|
    acct := acct s; markets := markets s; wallet := wallet s;
    strategy_task := strategy_task s; strategy := strategy s;
    market_pair := market_pair s; clock := clock s;
    placeholder_mode := placeholder_mode s;
    reporting_module := reporting_module s; app_log := app_log s;
    app_exited := app_exited s; log_records := log_records s;
    cancel_calls := cancel_calls s; tasks := tasks s; slept := slept s;
    log_level_override := v;
    exchange_rate_conversion_started := exchange_rate_conversion_started s
  |}.

Definition set_exchange_rate_conversion_started (v : bool) (s : App) : App :=
  {|
    acct := acct s; markets := markets s; wallet := wallet s;
    strategy_task := strategy_task s; strategy := strategy s;
    market_pair := market_pair s; clock := clock s;
    placeholder_mode := placeholder_mode s;
    reporting_module := reporting_module s; app_log := app_log s;
    app_exited := app_exited s; log_records := log_records s;
    cancel_calls := cancel_calls s; tasks := tasks s; slept := slept s;
    log_level_override := log_level_override s;
    exchange_rate_conversion_started := v
  |}.

(* ================================================================== *)
(** ** Computations: state and exceptions *)

Inductive Res (A : Type) : Type :=
| Ok (a : A)
| Raise (e : Exn).

Arguments Raise {A} e.

Definition M (A : Type) : Type := App -> Res A * App.

Definition ret {A : Type} (a : A) : M A := fun s => (Ok a, s).

Definition raise {A : Type} (e : Exn) : M A := fun s => (Raise e, s).

Definition bind {A B : Type} (m : M A) (k : A -> M B) : M B :=
  fun s =>
    match m s with
    | (Ok a, s') => k a s'
    | (Raise e, s') => (Raise e, s')
    end.

Definition get : M App := fun s => (Ok s, s).

Definition modify (f : App -> App) : M unit := fun s => (Ok tt, f s).

(** [try: body except ...: handler] *)
Definition try_except {A : Type} (body : M A) (handler : Exn -> M A) : M A :=
  fun s =>
    match body s with
    | (Ok a, s') => (Ok a, s')
    | (Raise e, s') => handler e s'
    end.

Declare Scope py_scope.
Delimit Scope py_scope with py.
Notation "x <- m ;; k" := (bind m (fun x => k))
  (at level 61, m at next level, right associativity) : py_scope.
Notation "m ;; k" := (bind m (fun _ => k))
  (at level 61, right associativity) : py_scope.
Open Scope py_scope.

Definition when (b : bool) (m : M unit) : M unit :=
  if b then m else ret tt.

(** [for x in xs: body(x)] *)
Fixpoint for_each {X : Type} (xs : list X) (body : X -> M unit) : M unit :=
  match xs with
  | [] => ret tt
  | x :: r => body x ;; for_each r body
  end.

(** A [for] loop that carries one local variable. *)
Fixpoint for_fold {X V : Type} (xs : list X) (body : V -> X -> M V) (v : V)
    : M V :=
  match xs with
  | [] => ret v
  | x :: r => v' <- body v x ;; for_fold r body v'
  end.

(** Results and final states. *)
Definition result {A : Type} (r : Res A * App) : Res A := fst r.
Definition final {A : Type} (r : Res A * App) : App := snd r.

(** [self.app.log(line)] *)
Definition log (line : string) : M unit :=
  modify (fun s => set_app_log (app_log s ++ [line]) s).

(** [logging.getLogger(name).<level>(msg)] *)
Definition logger (name : string) (level : LogLevel) (msg : string)
    : M unit :=
  modify (fun s => set_log_records (log_records s ++ [(name, level, msg)]) s).

(** [asyncio.ensure_future(co)]: a new task of the loop, by its index. *)
Definition ensure_future (co : Coroutine) : M nat :=
  fun s =>
    (Ok (List.length (tasks s)), set_tasks (tasks s ++ [new_task co]) s).

Fixpoint update_nth {X : Type} (n : nat) (f : X -> X) (l : list X)
    : list X :=
  match l, n with
  | [], _ => []
  | x :: r, O => f x :: r
  | x :: r, S n' => x :: update_nth n' f r
  end.

(** [task.cancelled()]: whether the task ended cancelled, which a call
    of [cancel()] alone does not make it. *)
Definition task_cancelled (id : nat) (s : App) : bool :=
  match nth_error (tasks s) id with
  | Some t =>
      match task_state t with
      | CANCELLED => true
      | _ => false
      end
  | None => false
  end.

(** [task.cancel()]: a task that is done is left alone; a pending task
    is asked to cancel. *)
Definition task_cancel (id : nat) : M unit :=
  modify (fun s =>
    set_tasks
      (update_nth id
         (fun t =>
            match task_state t with
            | PENDING =>
                {| coroutine := coroutine t; task_state := PENDING;
                   cancel_requested := true; exception := exception t |}
            | _ => t
            end)
         (tasks s)) s).

(** [await asyncio.sleep(seconds)] *)
Definition sleep (seconds : Q) : M unit :=
  modify (fun s => set_slept (slept s ++ [seconds]) s).
(* ================================================================== *)
(** ** What the file imports

    The settings of [hummingbot.cli.settings] are read, never written,
    by the methods below; they are given as typed values.  The other
    fields are the imported functions and constructors. *)

Record CrossExchangeConfig : Type := {
  xemm_maker_market : string;
  xemm_taker_market : string;
  xemm_maker_market_symbol : string;
  xemm_taker_market_symbol : string;
  xemm_min_profitability : Q;
  xemm_trade_size_override : option Q;
  xemm_limit_order_min_expiration : Q;
  xemm_cancel_order_threshold : Q;
  xemm_active_order_canceling : bool;
  xemm_top_depth_tolerance : list (string * Q)
}.

Record ArbitrageConfig : Type := {
  arb_primary_market : string;
  arb_secondary_market : string;
  arb_primary_market_symbol : string;
  arb_secondary_market_symbol : string;
  arb_min_profitability : Q
}.

(** The commands of the parser whose functions are embedded here. *)
Inductive Command : Type :=
| CmdStatus
| CmdStart (log_level : option string).

(** [self.parser.parse_args]: it raises, or yields arguments without a
    [func], or arguments with one. *)
Inductive Parsed : Type :=
| ParseRaises (e : Exn)
| ParsedNoFunc
| ParsedFunc (f : Command).

Record Externals : Type := {
  (* re.compile; None when it raises re.error *)
  re_compile : string -> option Re.Pattern;
  (* SymbolSplitter.split(market, symbol); inl msg is ValueError(msg) *)
  symbol_split : string -> string -> string + (string * string);
  get_erc20_token_addresses : list string -> list string;
  (* the order in which list(set(xs)) yields the distinct elements xs of
     the set: a permutation that string hashing decides *)
  set_order : list string -> list string;
  DDEXMarket : option Web3Wallet -> string -> list string -> MarketBase;
  BinanceMarket : string -> string -> string -> list string -> MarketBase;
  RadarRelayMarket :
    option Web3Wallet -> string -> list string -> MarketBase;
  format_status : Strategy -> string;
  (* Web3(...).isConnected(); None when it raises *)
  web3_isConnected : string -> option bool;
  (* load_required_configs(): each key with its value, None if unset *)
  load_required_configs : Dict (option string);
  parse_args : list string -> Parsed;
  (* global_config_map *)
  on_chain_cancel_on_exit : bool;
  ethereum_rpc_url : string;
  binance_api_key : string;
  binance_api_secret : string;
  reporting_aggregation_interval : Q;
  reporting_log_interval : Q;
  strategy_report_interval : Q;
  (* in_memory_config_map *)
  strategy_setting : string;
  (* get_strategy_config_map *)
  cross_exchange_market_making_config_map : CrossExchangeConfig;
  arbitrage_config_map : ArbitrageConfig
}.

Definition dq : string := String (ascii_of_nat 34) EmptyString.

Definition module_name : string := "hummingbot.cli.hummingbot_application".

Definition none_has_no (attr : string) : Exn :=
  AttributeError ("'NoneType' object has no attribute '" ++ attr ++ "'").

(* ================================================================== *)
(** ** The methods of [HummingbotApplication] *)

Section Application.

Variable E : Externals.

(** Line 82. *)
Definition KILL_TIMEOUT : Q := 5.

(** [check_web3], lines 68-78. *)
Definition check_web3 (url : string) : M bool :=
  let ret_ :=
    match web3_isConnected E url with
    | Some b => b
    | None => false
    end in
  when (negb ret_ && String.prefix "http://mainnet.infura.io" url)
    (logger "root" WARNING
       ("You are connecting to an Infura using an insecure network protocol "
        ++ "(" ++ dq ++ "http" ++ dq
        ++ "), which may not be allowed by Infura. Try using "
        ++ dq ++ "https://" ++ dq ++ " instead.")) ;;
  ret ret_.

(** [init_reporting_module], lines 111-117. *)
Definition init_reporting_module : M unit :=
  s <- get ;;
  when (match reporting_module s with None => true | Some _ => false end)
    (modify (set_reporting_module
       (Some {| report_aggregation_interval :=
                  reporting_aggregation_interval E;
                log_report_interval := reporting_log_interval E;
                running := false |}))) ;;
  s <- get ;;
  match reporting_module s with
  | Some r =>
      modify (set_reporting_module
        (Some {| report_aggregation_interval :=
                   report_aggregation_interval r;
                 log_report_interval := log_report_interval r;
                 running := true |}))
  | None => raise (none_has_no "start")
  end.

(** [await market.cancel_all(timeout)] on the value stored under
    [market_name]. *)
Definition market_cancel_all (market_name : string)
    (market : option MarketBase) (timeout : Q)
    : M (list CancellationResult) :=
  match market with
  | None => raise (none_has_no "cancel_all")
  | Some m =>
      modify (fun s =>
        set_cancel_calls (cancel_calls s ++ [(market_name, timeout)]) s) ;;
      ret (cancel_all m timeout)
  end.

Definition failed_to_cancel (market_name : string)
    (uncancelled_order_ids : list string) : string :=
  PyStr.nl ++ "Failed to cancel the following orders on " ++ market_name
  ++ ":" ++ PyStr.nl ++ PyStr.join PyStr.nl uncancelled_order_ids.

(** The body of the loop of lines 146-159; [success_] is the local
    variable [success]. *)
Definition cancel_on_market (success_ : bool)
    (item : string * option MarketBase) : M bool :=
  let '(market_name, market) := item in
  if negb (on_chain_cancel_on_exit E) && (market_name =? "radar_relay")
  then ret success_
  else
    cancellation_results <- market_cancel_all market_name market KILL_TIMEOUT ;;
    let uncancelled :=
      filter (fun cr => negb (success cr)) cancellation_results in
    if (0 <? List.length uncancelled)%nat then
      let uncancelled_order_ids := map order_id uncancelled in
      log (failed_to_cancel market_name uncancelled_order_ids) ;;
      ret false
    else ret success_.

(** [_cancel_outstanding_orders], lines 142-162. *)
Definition _cancel_outstanding_orders : M bool :=
  log "Cancelling outstanding orders..." ;;
  s <- get ;;
  success_ <- for_fold (markets s) cancel_on_market true ;;
  when success_ (log "All outstanding orders cancelled.") ;;
  ret success_.

(** [_get_empty_configs] and [config_complete], lines 167-174. *)
Definition _get_empty_configs : list string :=
  map fst
    (filter (fun kv => match snd kv with None => true | Some _ => false end)
       (load_required_configs E)).

Definition config_complete : bool :=
  (List.length _get_empty_configs =? 0)%nat.

(** [_initialize_wallet], lines 315-321. *)
Definition _initialize_wallet (token_symbols : list string) : M unit :=
  let addresses := get_erc20_token_addresses E token_symbols in
  s <- get ;;
  match acct s with
  | None => raise (none_has_no "privateKey")
  | Some a =>
      modify (set_wallet
        (Some {| private_key := privateKey a;
                 backend_urls := [ethereum_rpc_url E];
                 erc20_token_addresses := addresses;
                 chain := MAIN_NET |}))
  end.

(** [_initialize_markets], lines 323-348. *)
Definition _initialize_markets (market_names : list (string * string))
    : M unit :=
  for_each market_names (fun '(market_name, symbol) =>
    s <- get ;;
    let market :=
      if market_name =? "ddex" then
        Some (DDEXMarket E (wallet s) (ethereum_rpc_url E) [symbol])
      else if market_name =? "binance" then
        Some (BinanceMarket E (ethereum_rpc_url E) (binance_api_key E)
                (binance_api_secret E) [symbol])
      else if market_name =? "radar_relay" then
        Some (RadarRelayMarket E (wallet s) (ethereum_rpc_url E) [symbol])
      else None in
    modify (fun s => set_markets (dict_set market_name market (markets s)) s)).

(** The body of the loop of lines 366-368. *)
Definition note_loading (loading_markets : list string)
    (item : string * option MarketBase) : M (list string) :=
  let '(market_name, market) := item in
  match market with
  | None => raise (none_has_no "ready")
  | Some m =>
      ret (if ready m then loading_markets
           else (loading_markets ++ [market_name])%list)
  end.

(** [status], lines 350-382. *)
Definition status : M bool :=
  if config_complete then
    log " - Config complete" ;;
    eth_node_valid <- check_web3 (ethereum_rpc_url E) ;;
    if eth_node_valid then
      log " - Ethereum node running and current" ;;
      s <- get ;;
      loading_markets <- for_fold (markets s) note_loading [] ;;
      s <- get ;;
      match strategy s with
      | None => ret true
      | Some st =>
          if (0 <? List.length loading_markets)%nat then
            for_each loading_markets (fun loading_market =>
              log (" x Waiting for " ++ loading_market
                   ++ " market to get ready for trading. "
                   ++ "Please keep the bot running and try to start again in a few minutes")) ;;
            ret false
          else
            log " - All markets ready" ;;
            log (PyStr.nl ++ format_status E st) ;;
            ret false
      end
    else
      log (" x Bad ethereum rpc url. Your node may be syncing. "
           ++ "Please re-configure by entering " ++ dq
           ++ "config ethereum_rpc_url" ++ dq) ;;
      ret false
  else
    log (" x Pending config. Please enter " ++ dq ++ "config" ++ dq
         ++ " before starting the bot.") ;;
    ret false.

(** [start], lines 448-460. *)
Definition start (log_level : option string) : M unit :=
  is_valid <- status ;;
  if negb is_valid then ret tt
  else
    match log_level with
    | Some l =>
        modify (set_log_level_override (Some (PyStr.upper l)))
    | None => ret tt
    end ;;
    modify (set_exchange_rate_conversion_started true) ;;
    let strategy_name := strategy_setting E in
    init_reporting_module ;;
    log ("Status check complete. Starting '" ++ strategy_name
         ++ "' strategy...") ;;
    _ <- ensure_future (CoStartMarketMaking strategy_name) ;;
    ret tt.

(** The comprehension of lines 475-477. *)
Fixpoint compile_rules (setting : list (string * Q))
    : M (list (Re.Pattern * Q)) :=
  match setting with
  | [] => ret []
  | (re_str, value) :: r =>
      match re_compile E re_str with
      | Some regex =>
          rest <- compile_rules r ;;
          ret ((regex, value) :: rest)
      | None => raise (ReError re_str)
      end
  end.

(** [SymbolSplitter.split(market, symbol)] *)
Definition split_symbol (market symbol : string) : M (string * string) :=
  match symbol_split E market symbol with
  | inl msg => raise (ValueError msg)
  | inr assets => ret assets
  end.

(** The [try] of lines 484-489 and 527-533: both symbols split, or the
    [ValueError] logged and [None] for the [return] that follows. *)
Definition split_both (market1 symbol1 market2 symbol2 : string)
    : M (option ((string * string) * (string * string))) :=
  try_except
    (assets1 <- split_symbol market1 symbol1 ;;
     assets2 <- split_symbol market2 symbol2 ;;
     ret (Some (assets1, assets2)))
    (fun e =>
       match e with
       | ValueError _ => log (exn_str e) ;; ret None
       | _ => raise e
       end).

(** [list(set(assets1 + assets2))]: the distinct symbols, in the order
    the set yields them. *)
Definition token_symbols_of (assets1 assets2 : string * string)
    : list string :=
  set_order E
    (nodup string_dec [fst assets1; snd assets1; fst assets2; snd assets2]).

(** [self.markets[name]] *)
Definition markets_getitem (name : string) : M (option MarketBase) :=
  s <- get ;;
  match dict_get name (markets s) with
  | Some m => ret m
  | None => raise (KeyError name)
  end.

(** [self.clock.add_iterator(it)] *)
Definition clock_add_iterator (it : TimeIterator) : M unit :=
  s <- get ;;
  match clock s with
  | Some c => modify (set_clock (Some (add_iterator it c)))
  | None => raise (none_has_no "add_iterator")
  end.

(** Lines 464-518; [false] stands for the [return] of line 489. *)
Definition start_cross_exchange_market_making : M bool :=
  let strategy_cm := cross_exchange_market_making_config_map E in
  let maker_market := PyStr.lower (xemm_maker_market strategy_cm) in
  let taker_market := PyStr.lower (xemm_taker_market strategy_cm) in
  let raw_maker_symbol :=
    PyStr.upper (xemm_maker_market_symbol strategy_cm) in
  let raw_taker_symbol :=
    PyStr.upper (xemm_taker_market_symbol strategy_cm) in
  top_depth_tolerance_rules <-
    compile_rules (xemm_top_depth_tolerance strategy_cm) ;;
  let top_depth_tolerance :=
    resolve_top_depth_tolerance top_depth_tolerance_rules raw_maker_symbol in
  assets <- split_both maker_market raw_maker_symbol
                       taker_market raw_taker_symbol ;;
  match assets with
  | None => ret false
  | Some (maker_assets, taker_assets) =>
      let market_names :=
        [(maker_market, raw_maker_symbol);
         (taker_market, raw_taker_symbol)] in
      _initialize_wallet (token_symbols_of maker_assets taker_assets) ;;
      _initialize_markets market_names ;;
      maker <- markets_getitem maker_market ;;
      taker <- markets_getitem taker_market ;;
      let pair :=
        CrossExchangeMarketPair
          maker raw_maker_symbol (fst maker_assets) (snd maker_assets)
          taker raw_taker_symbol (fst taker_assets) (snd taker_assets)
          top_depth_tolerance in
      modify (set_market_pair (Some pair)) ;;
      let strategy_logging_options :=
        [OPTION_LOG_CREATE_ORDER; OPTION_LOG_ADJUST_ORDER;
         OPTION_LOG_MAKER_ORDER_FILLED; OPTION_LOG_REMOVING_ORDER;
         OPTION_LOG_STATUS_REPORT; OPTION_LOG_MAKER_ORDER_HEDGED] in
      modify (set_strategy
        (Some (CrossExchangeMarketMakingStrategy
                 [pair]
                 (xemm_min_profitability strategy_cm)
                 (strategy_report_interval E)
                 strategy_logging_options
                 (xemm_trade_size_override strategy_cm)
                 (xemm_limit_order_min_expiration strategy_cm)
                 (xemm_cancel_order_threshold strategy_cm)
                 (xemm_active_order_canceling strategy_cm)))) ;;
      ret true
  end.

(** Lines 520-547; [false] stands for the [return] of line 533. *)
Definition start_arbitrage : M bool :=
  let strategy_cm := arbitrage_config_map E in
  let primary_market := PyStr.lower (arb_primary_market strategy_cm) in
  let secondary_market := PyStr.lower (arb_secondary_market strategy_cm) in
  let raw_primary_symbol :=
    PyStr.upper (arb_primary_market_symbol strategy_cm) in
  let raw_secondary_symbol :=
    PyStr.upper (arb_secondary_market_symbol strategy_cm) in
  assets <- split_both primary_market raw_primary_symbol
                       secondary_market raw_secondary_symbol ;;
  match assets with
  | None => ret false
  | Some (primary_assets, secondary_assets) =>
      let market_names :=
        [(primary_market, raw_primary_symbol);
         (secondary_market, raw_secondary_symbol)] in
      _initialize_wallet
        (token_symbols_of primary_assets secondary_assets) ;;
      _initialize_markets market_names ;;
      primary <- markets_getitem primary_market ;;
      secondary <- markets_getitem secondary_market ;;
      let pair :=
        ArbitrageMarketPair
          primary raw_primary_symbol
          (fst primary_assets) (snd primary_assets)
          secondary raw_secondary_symbol
          (fst secondary_assets) (snd secondary_assets) in
      modify (set_market_pair (Some pair)) ;;
      modify (set_strategy
        (Some (ArbitrageStrategy [pair] (arb_min_profitability strategy_cm)
                 [OPTION_LOG_ALL]))) ;;
      ret true
  end.

(** Lines 552-562. *)
Definition start_clock (strategy_name : string) : M unit :=
  try_except
    (modify (set_clock (Some (new_clock REALTIME))) ;;
     s <- get ;;
     clock_add_iterator (IterWallet (wallet s)) ;;
     for_each (dict_values (markets s))
       (fun market => clock_add_iterator (IterMarket market)) ;;
     clock_add_iterator (IterStrategy (strategy s)) ;;
     s <- get ;;
     match clock s with
     | Some c =>
         id <- ensure_future (CoClockRun c) ;;
         modify (set_strategy_task (Some id))
     | None => raise (none_has_no "run")
     end ;;
     log (PyStr.nl ++ "'" ++ strategy_name ++ "' strategy started."
          ++ PyStr.nl
          ++ "You can use the `status` command to query the progress."))
    (fun e => logger module_name ERROR (exn_str e)).

(** [start_market_making], lines 462-562. *)
Definition start_market_making (strategy_name : string) : M unit :=
  proceed <-
    (if strategy_name =? "cross_exchange_market_making" then
       start_cross_exchange_market_making
     else if strategy_name =? "arbitrage" then
       start_arbitrage
     else raise NotImplementedError) ;;
  if proceed then start_clock strategy_name else ret tt.

(** [self.strategy_task.cancel()] under the guard of lines 573 and
    582. *)
Definition cancel_strategy_task : M unit :=
  s <- get ;;
  match strategy_task s with
  | Some id => when (negb (task_cancelled id s)) (task_cancel id)
  | None => ret tt
  end.

(** [stop], lines 564-579. *)
Definition stop (skip_order_cancellation : bool) : M unit :=
  log (PyStr.nl ++ "Winding down...") ;;
  when (negb skip_order_cancellation)
    (success_ <- _cancel_outstanding_orders ;;
     (* Only erase markets when cancellation has been successful *)
     when success_ (modify (set_markets []))) ;;
  s <- get ;;
  match reporting_module s with
  | Some r =>
      modify (set_reporting_module
        (Some {| report_aggregation_interval :=
                   report_aggregation_interval r;
                 log_report_interval := log_report_interval r;
                 running := false |}))
  | None => ret tt
  end ;;
  cancel_strategy_task ;;
  modify (set_wallet None) ;;
  modify (set_strategy_task None) ;;
  modify (set_strategy None) ;;
  modify (set_market_pair None) ;;
  modify (set_clock None).

Definition wind_down_terminated : string :=
  "Wind down process terminated: Failed to cancel all outstanding orders. "
  ++ PyStr.nl
  ++ "You may need to manually cancel remaining orders by logging into your chosen exchanges"
  ++ PyStr.nl ++ PyStr.nl ++ "To force exit the app, enter "
  ++ dq ++ "exit -f" ++ dq.

(** [self.app.exit()] *)
Definition app_exit : M unit := modify (set_app_exited true).

(** [exit], lines 581-593. *)
Definition exit (force : bool) : M unit :=
  cancel_strategy_task ;;
  if negb force then
    success_ <- _cancel_outstanding_orders ;;
    if negb success_ then log wind_down_terminated
    else
      (* Freeze screen 1 second for better UI *)
      sleep 1 ;;
      app_exit
  else app_exit.

Definition not_yet_implemented : string :=
  "Command not yet implemented. This feature is currently under development.".

Definition call (f : Command) : M unit :=
  match f with
  | CmdStatus => _ <- status ;; ret tt
  | CmdStart log_level => start log_level
  end.

(** [_handle_command], lines 119-140. *)
Definition _handle_command (raw_command : string) : M unit :=
  let raw_command := PyStr.strip (PyStr.lower raw_command) in
  try_except
    (s <- get ;;
     if placeholder_mode s then ret tt
     else
       logger "hummingbot.command_history" INFO raw_command ;;
       match parse_args E (PyStr.split raw_command) with
       | ParseRaises e => raise e
       | ParsedNoFunc => ret tt
       | ParsedFunc f => call f
       end)
    (fun e =>
       match e with
       | InvalidCommandError m => log ("Invalid command: " ++ m)
       | ArgumentParserError m => log m
       | NotImplementedError => log not_yet_implemented
       | _ => logger module_name ERROR (exn_str e)
       end).

(** What a coroutine does when the event loop runs it.  The run loop of
    the clock is in [wings]; its task does nothing here. *)
Definition run_coroutine (co : Coroutine) : M unit :=
  match co with
  | CoStartMarketMaking strategy_name => start_market_making strategy_name
  | CoClockRun _ => ret tt
  end.

Definition set_task_state (id : nat) (st : TaskState) (s : App) : App :=
  set_tasks
    (update_nth id
       (fun t => {| coroutine := coroutine t; task_state := st;
                    cancel_requested := cancel_requested t;
                    exception := exception t |})
       (tasks s)) s.

Definition set_task_exception (id : nat) (e : Exn) (s : App) : App :=
  set_tasks
    (update_nth id
       (fun t => {| coroutine := coroutine t; task_state := FINISHED;
                    cancel_requested := cancel_requested t;
                    exception := Some e |})
       (tasks s)) s.

(** The event loop running the task [id].  A task that is done is not
    run.  A pending task that was asked to cancel has the
    [CancelledError] thrown into its coroutine and ends cancelled:
    [start_market_making] does not catch it, and the run loop of the
    clock is taken to let it through, as section 4.1 of the
    specification asks of it (cancelling the driving task stops the
    ticks).  Any other pending task runs: [start_market_making], which
    awaits nothing, runs to its end, and an exception it raises is kept
    in the task and goes no further; the run loop of the clock goes on
    indefinitely, so its task stays pending. *)
Definition loop_run_task (id : nat) (s : App) : App :=
  match nth_error (tasks s) id with
  | None => s
  | Some t =>
      match task_state t with
      | PENDING =>
          if cancel_requested t then set_task_state id CANCELLED s
          else
            match run_coroutine (coroutine t) s with
            | (Ok _, s') =>
                match coroutine t with
                | CoStartMarketMaking _ => set_task_state id FINISHED s'
                | CoClockRun _ => s'
                end
            | (Raise e, s') => set_task_exception id e s'
            end
      | _ => s
      end
  end.

End Application.

(* ================================================================== *)
(** ** The tolerance rules of the specification's example *)

Definition btc_any : Re.Pattern :=
  Re.Seq (Re.Chr "B") (Re.Seq (Re.Chr "T") (Re.Seq (Re.Chr "C")
    (Re.Seq (Re.Star Re.Dot) Re.Empty))).

Definition any : Re.Pattern := Re.Seq (Re.Star Re.Dot) Re.Empty.

Definition example_rules : list (Re.Pattern * Q) :=
  [(btc_any, (1 # 100)%Q); (any, 0%Q)].

(** The value of the first rule that matches, as the specification words
    it; [0.0] when none does. *)
Definition first_matching_value (rules : list (Re.Pattern * Q))
    (symbol : string) : Q :=
  match find (fun rule => Re.matches (fst rule) symbol) rules with
  | Some (_, value) => value
  | None => 0%Q
  end.

Definition no_rule_matches (symbol : string)
    (rules : list (Re.Pattern * Q)) : Prop :=
  Forall (fun rule => Re.matches (fst rule) symbol = false) rules.

(* ================================================================== *)
(** ** The cancellation loop as a function of the markets

    What [_cancel_outstanding_orders] returns, logs and requests is
    determined by the settings and the markets alone; the functions below
    say how, and the results relate them to the method. *)

(** The line that reports the orders of a market that did not cancel: a
    line feed, the sentence naming the market, a colon, a line feed, and
    the order ids, one per line. *)
Definition failure_report (market_name : string) (order_ids : list string)
    : string :=
  String (ascii_of_nat 10)
    ("Failed to cancel the following orders on " ++ market_name ++ ":"
     ++ String (ascii_of_nat 10)
          (String.concat (String (ascii_of_nat 10) EmptyString) order_ids)).

(** [part] occurs in [line]. *)
Definition occurs_in (part line : string) : Prop :=
  exists before after, line = before ++ part ++ after.

Section CancelTrace.

Variable E : Externals.

(** The guard of line 149. *)
Definition skips (market_name : string) : bool :=
  negb (on_chain_cancel_on_exit E) && (market_name =? "radar_relay").

Definition non_skipped (ms : Markets) : Markets :=
  filter (fun kv => negb (skips (fst kv))) ms.

(** The results of a market's [cancel_all] that report a failure. *)
Definition uncancelled_of (m : MarketBase) : list CancellationResult :=
  filter (fun cr => negb (success cr)) (cancel_all m KILL_TIMEOUT).

Definition all_cancelled (m : MarketBase) : bool :=
  forallb success (cancel_all m KILL_TIMEOUT).

(** Outcome, lines logged and calls made by the loop started with
    [success = b]. *)
Fixpoint cancel_trace (ms : Markets) (b : bool)
    : Res bool * list string * list (string * Q) :=
  match ms with
  | [] => (Ok b, [], [])
  | (market_name, market) :: r =>
      if skips market_name then cancel_trace r b
      else
        match market with
        | None => (Raise (none_has_no "cancel_all"), [], [])
        | Some m =>
            if (0 <? List.length (uncancelled_of m))%nat then
              let '(res, ls, cs) := cancel_trace r false in
              (res,
               failure_report market_name
                 (map order_id (uncancelled_of m)) :: ls,
               (market_name, KILL_TIMEOUT) :: cs)
            else
              let '(res, ls, cs) := cancel_trace r b in
              (res, ls, (market_name, KILL_TIMEOUT) :: cs)
        end
  end.

Definition trace_outcome (t : Res bool * list string * list (string * Q))
    : Res bool := fst (fst t).
Definition trace_lines (t : Res bool * list string * list (string * Q))
    : list string := snd (fst t).
Definition trace_calls (t : Res bool * list string * list (string * Q))
    : list (string * Q) := snd t.

(** No market the loop does not skip is [None]. *)
Definition all_present (ms : Markets) : Prop :=
  Forall (fun kv => snd kv <> None) (non_skipped ms).

End CancelTrace.

(** A state with lines added to the console log and calls added to the
    cancel requests. *)
Definition with_effects (ls : list string) (cs : list (string * Q))
    (s : App) : App :=
  set_cancel_calls (cancel_calls s ++ cs) (set_app_log (app_log s ++ ls) s).

Definition closing_line (res : Res bool) : list string :=
  match res with
  | Ok true => ["All outstanding orders cancelled."]
  | _ => []
  end.

Section CancelSummary.

Variable E : Externals.

(** Per market: did every order cancel, which line reports the
    failures, which request was sent. *)
Definition market_ok (kv : string * option MarketBase) : bool :=
  match snd kv with
  | Some m => all_cancelled m
  | None => true
  end.

Definition failure_lines (kv : string * option MarketBase)
    : list string :=
  match snd kv with
  | Some m =>
      if all_cancelled m then []
      else [failure_report (fst kv) (map order_id (uncancelled_of m))]
  | None => []
  end.

Definition request_of (kv : string * option MarketBase) : string * Q :=
  (fst kv, KILL_TIMEOUT).

End CancelSummary.

(* ================================================================== *)
(** ** Instances used in the examples *)

Definition cancellation (id : string) (ok : bool) : CancellationResult :=
  {| order_id := id; success := ok |}.

(** A ready market whose [cancel_all] returns [results]. *)
Definition market_returning (results : list CancellationResult)
    : MarketBase :=
  {| ready := true; cancel_all := fun _ => results |}.

(** A symbol splitter that accepts BASE-QUOTE on the three known markets
    and raises [ValueError] otherwise. *)
Fixpoint split_at_dash (s : string) (acc : string)
    : option (string * string) :=
  match s with
  | EmptyString => None
  | String c r =>
      if Ascii.eqb c "-"%char then Some (acc, r)
      else split_at_dash r (acc ++ String c EmptyString)
  end.

Definition example_split (market symbol : string)
    : string + (string * string) :=
  if existsb (String.eqb market) ["ddex"; "binance"; "radar_relay"] then
    match split_at_dash symbol "" with
    | Some assets => inr assets
    | None => inl ("Unable to split symbol " ++ symbol)
    end
  else inl ("Market " ++ market ++ " not supported").

Definition example_parse_args (args : list string) : Parsed :=
  match args with
  | ["status"] => ParsedFunc CmdStatus
  | ["start"] => ParsedFunc (CmdStart None)
  | [] => ParsedNoFunc
  | _ => ParseRaises (ArgumentParserError "invalid choice")
  end.

Definition example_cross_exchange (maker_symbol : string)
    : CrossExchangeConfig := {|
  xemm_maker_market := "ddex";
  xemm_taker_market := "binance";
  xemm_maker_market_symbol := maker_symbol;
  xemm_taker_market_symbol := "weth-dai";
  xemm_min_profitability := (3 # 1000)%Q;
  xemm_trade_size_override := None;
  xemm_limit_order_min_expiration := 130%Q;
  xemm_cancel_order_threshold := (5 # 100)%Q;
  xemm_active_order_canceling := true;
  xemm_top_depth_tolerance := [("BTC.*", (1 # 100)%Q); (".*", 0%Q)]
|}.

Definition example_arbitrage (primary_symbol : string)
    : ArbitrageConfig := {|
  arb_primary_market := "ddex";
  arb_secondary_market := "binance";
  arb_primary_market_symbol := primary_symbol;
  arb_secondary_market_symbol := "weth-dai";
  arb_min_profitability := (3 # 1000)%Q
|}.

(** Settings complete, node reachable; [on_chain] is the setting
    [on_chain_cancel_on_exit], [name] the strategy, [symbol] the maker
    (or primary) symbol. *)
Definition example_externals (on_chain : bool) (name symbol : string)
    : Externals := {|
  re_compile := Re.compile;
  symbol_split := example_split;
  get_erc20_token_addresses := map (fun t => "0x" ++ t);
  set_order := fun xs => xs;
  DDEXMarket := fun _ _ _ => market_returning [];
  BinanceMarket := fun _ _ _ _ => market_returning [];
  RadarRelayMarket := fun _ _ _ => market_returning [];
  format_status := fun _ => "status";
  web3_isConnected := fun _ => Some true;
  load_required_configs := [("strategy", Some name)];
  parse_args := example_parse_args;
  on_chain_cancel_on_exit := on_chain;
  ethereum_rpc_url := "http://localhost:8545";
  binance_api_key := "key";
  binance_api_secret := "secret";
  reporting_aggregation_interval := 60%Q;
  reporting_log_interval := 60%Q;
  strategy_report_interval := 900%Q;
  strategy_setting := name;
  cross_exchange_market_making_config_map := example_cross_exchange symbol;
  arbitrage_config_map := example_arbitrage symbol
|}.

Definition failing_markets : Markets :=
  [("binance",
    Some (market_returning
            [cancellation "b1" true; cancellation "b2" false]));
   ("radar_relay", Some (market_returning [cancellation "r1" false]));
   ("ddex", Some (market_returning []))].

Definition healthy_markets : Markets :=
  [("binance", Some (market_returning [cancellation "b1" true]));
   ("radar_relay", Some (market_returning [cancellation "r1" false]))].

(** An application with an unlocked account and the given markets. *)
Definition example_app (ms : Markets) : App :=
  {|
    acct := Some {| address := "0xabc"; privateKey := "0xkey" |};
    markets := ms; wallet := None; strategy_task := None;
    strategy := None; market_pair := None; clock := None;
    placeholder_mode := false; reporting_module := None;
    app_log := []; app_exited := false; log_records := [];
    cancel_calls := []; tasks := []; slept := [];
    log_level_override := None; exchange_rate_conversion_started := false
  |}.

(* ================================================================== *)
(** ** What a strategy run consists of

    The attributes [start_market_making] sets and [stop] clears, with the
    tasks of the event loop. *)

Definition same_run (s s' : App) : Prop :=
  wallet s' = wallet s
  /\ markets s' = markets s
  /\ market_pair s' = market_pair s
  /\ strategy s' = strategy s
  /\ clock s' = clock s
  /\ strategy_task s' = strategy_task s
  /\ tasks s' = tasks s.

(* ================================================================== *)
(** ** Whether the symbol splitter rejects the configured symbols *)

Section SymbolCheck.

Variable E : Externals.

(** The message of the first [ValueError] of two successive splits. *)
Definition split_error (market1 symbol1 market2 symbol2 : string)
    : option string :=
  match symbol_split E market1 symbol1 with
  | inl msg => Some msg
  | inr _ =>
      match symbol_split E market2 symbol2 with
      | inl msg => Some msg
      | inr _ => None
      end
  end.

(** The same for the symbols a strategy is configured with, as lines
    465-468 and 521-524 read them. *)
Definition symbols_rejected (strategy_name : string) : option string :=
  if strategy_name =? "cross_exchange_market_making" then
    let cm := cross_exchange_market_making_config_map E in
    split_error
      (PyStr.lower (xemm_maker_market cm))
      (PyStr.upper (xemm_maker_market_symbol cm))
      (PyStr.lower (xemm_taker_market cm))
      (PyStr.upper (xemm_taker_market_symbol cm))
  else if strategy_name =? "arbitrage" then
    let cm := arbitrage_config_map E in
    split_error
      (PyStr.lower (arb_primary_market cm))
      (PyStr.upper (arb_primary_market_symbol cm))
      (PyStr.lower (arb_secondary_market cm))
      (PyStr.upper (arb_secondary_market_symbol cm))
  else None.

(** Every tolerance pattern of the market-making settings compiles, so
    that the symbols are reached. *)
Definition rules_compile (strategy_name : string) : Prop :=
  strategy_name = "cross_exchange_market_making" ->
  Forall (fun rule => re_compile E (fst rule) <> None)
    (xemm_top_depth_tolerance (cross_exchange_market_making_config_map E)).

Definition supported (strategy_name : string) : bool :=
  (strategy_name =? "cross_exchange_market_making")
  || (strategy_name =? "arbitrage").

End SymbolCheck.

(** The clock [start_market_making] builds from a state, and the line it
    logs. *)
Definition clock_of (s : App) : Clock :=
  {| clock_mode := REALTIME;
     iterators :=
       IterWallet (wallet s)
       :: map IterMarket (dict_values (markets s))
       ++ [IterStrategy (strategy s)] |}.

Definition started_line (strategy_name : string) : string :=
  PyStr.nl ++ "'" ++ strategy_name ++ "' strategy started." ++ PyStr.nl
  ++ "You can use the `status` command to query the progress.".

(** What a variant that reached its end has set. *)
Definition prepared (s s' : App) : Prop :=
  (exists w, wallet s' = Some w)
  /\ (exists st, strategy s' = Some st)
  /\ tasks s' = tasks s.

(** An unsupported strategy name in the settings; the state after the
    command [start] was handled, then after the event loop ran the task
    the command scheduled. *)
Definition unsupported_externals : Externals :=
  example_externals false "pure_market_making" "weth-dai".

Definition after_start_command : App :=
  final (_handle_command unsupported_externals "start" (example_app [])).

Definition after_task_run : App :=
  loop_run_task unsupported_externals 0 after_start_command.

(** A state in which the arbitrage strategy runs. *)
Definition arbitrage_externals : Externals :=
  example_externals false "arbitrage" "weth-dai".

Definition running_app : App :=
  final (start_market_making arbitrage_externals "arbitrage"
           (example_app healthy_markets)).

(** Settings whose maker and primary symbol has no separator. *)
Definition bad_symbol_externals : Externals :=
  example_externals false "arbitrage" "BTCUSD".


(** The command [start] given twice before the event loop has run the
    task of the first; then the loop running both tasks. *)
Definition started_twice : App :=
  final (start arbitrage_externals None
           (final (start arbitrage_externals None (example_app [])))).

Definition both_starts_run : App :=
  loop_run_task arbitrage_externals 1
    (loop_run_task arbitrage_externals 0 started_twice).

Definition is_clock_run (t : Task) : bool :=
  match coroutine t with
  | CoClockRun _ => true
  | CoStartMarketMaking _ => false
  end.


(* ================================================================== *)
(** ** Further notions for the results on the rest of the file *)

(** The markets of the mapping that are objects, not [None]. *)
Definition every_market_present (ms : Markets) : Prop :=
  Forall (fun kv => snd kv <> None) ms.

(** The names [status] collects in [loading_markets]. *)
Definition not_ready_names (ms : Markets) : list string :=
  map fst
    (filter (fun kv =>
               match snd kv with
               | Some m => negb (ready m)
               | None => false
               end) ms).

(** The loop of lines 366-368 as a function of the markets. *)
Fixpoint loading_scan (ms : Markets) (acc : list string)
    : Res (list string) :=
  match ms with
  | [] => Ok acc
  | (market_name, None) :: _ => Raise (none_has_no "ready")
  | (market_name, Some m) :: r =>
      loading_scan r (if ready m then acc else (acc ++ [market_name])%list)
  end.

Definition waiting_line (loading_market : string) : string :=
  " x Waiting for " ++ loading_market
  ++ " market to get ready for trading. "
  ++ "Please keep the bot running and try to start again in a few minutes".

(** The task [start] hands to the event loop. *)
Definition start_task (E : Externals) : Task :=
  new_task (CoStartMarketMaking (strategy_setting E)).

(** [status] as a function of the settings and the state: what it
    returns, what it prints and what [check_web3] sends to the root
    logger. *)
Definition web3_ok (E : Externals) : bool :=
  match web3_isConnected E (ethereum_rpc_url E) with
  | Some b => b
  | None => false
  end.

Definition infura_message : string :=
  "You are connecting to an Infura using an insecure network protocol "
  ++ "(" ++ dq ++ "http" ++ dq
  ++ "), which may not be allowed by Infura. Try using "
  ++ dq ++ "https://" ++ dq ++ " instead.".

Definition infura_warning (E : Externals)
    : list (string * LogLevel * string) :=
  if config_complete E
     && negb (web3_ok E)
     && String.prefix "http://mainnet.infura.io" (ethereum_rpc_url E)
  then [("root", WARNING, infura_message)]
  else [].

Definition status_result (E : Externals) (s : App) : Res bool :=
  if config_complete E && web3_ok E then
    match loading_scan (markets s) [] with
    | Raise e => Raise e
    | Ok _ =>
        match strategy s with
        | None => Ok true
        | Some _ => Ok false
        end
    end
  else Ok false.

Definition status_lines (E : Externals) (s : App) : list string :=
  if config_complete E then
    " - Config complete"
    :: (if web3_ok E then
          " - Ethereum node running and current"
          :: match loading_scan (markets s) [], strategy s with
             | Ok loading, Some st =>
                 if (0 <? List.length loading)%nat
                 then map waiting_line loading
                 else [" - All markets ready";
                       PyStr.nl ++ format_status E st]
             | _, _ => []
             end
        else
          [" x Bad ethereum rpc url. Your node may be syncing. "
           ++ "Please re-configure by entering " ++ dq
           ++ "config ethereum_rpc_url" ++ dq])
  else
    [" x Pending config. Please enter " ++ dq ++ "config" ++ dq
     ++ " before starting the bot."].

Definition after_status (E : Externals) (s : App) : App :=
  set_log_records (log_records s ++ infura_warning E)
    (set_app_log (app_log s ++ status_lines E s) s).

(** The same externals with another answer of the node's connection
    test. *)
Definition with_node (answer : option bool) (E : Externals) : Externals := {|
  re_compile := re_compile E;
  symbol_split := symbol_split E;
  get_erc20_token_addresses := get_erc20_token_addresses E;
  set_order := set_order E;
  DDEXMarket := DDEXMarket E;
  BinanceMarket := BinanceMarket E;
  RadarRelayMarket := RadarRelayMarket E;
  format_status := format_status E;
  web3_isConnected := fun _ => answer;
  load_required_configs := load_required_configs E;
  parse_args := parse_args E;
  on_chain_cancel_on_exit := on_chain_cancel_on_exit E;
  ethereum_rpc_url := ethereum_rpc_url E;
  binance_api_key := binance_api_key E;
  binance_api_secret := binance_api_secret E;
  reporting_aggregation_interval := reporting_aggregation_interval E;
  reporting_log_interval := reporting_log_interval E;
  strategy_report_interval := strategy_report_interval E;
  strategy_setting := strategy_setting E;
  cross_exchange_market_making_config_map :=
    cross_exchange_market_making_config_map E;
  arbitrage_config_map := arbitrage_config_map E
|}.

(** The aggregator after [stop()] and after [start()]. *)
Definition stopped (r : ReportAggregator) : ReportAggregator :=
  {| report_aggregation_interval := report_aggregation_interval r;
     log_report_interval := log_report_interval r;
     running := false |}.

Definition started (r : ReportAggregator) : ReportAggregator :=
  {| report_aggregation_interval := report_aggregation_interval r;
     log_report_interval := log_report_interval r;
     running := true |}.

(** A task after [cancel()] was called on it: asked to cancel if it was
    pending, as it was if it was done. *)
Definition asked_to_cancel (t : Task) : Task :=
  {| coroutine := coroutine t;
     task_state := task_state t;
     cancel_requested :=
       match task_state t with
       | PENDING => true
       | _ => cancel_requested t
       end;
     exception := exception t |}.

(** The tasks of the loop after lines 573-574 and 582-583: [cancel()]
    was called on the strategy task, if there is one. *)
Definition tasks_after_cancel (s : App) : list Task :=
  match strategy_task s with
  | Some id => update_nth id asked_to_cancel (tasks s)
  | None => tasks s
  end.

(** The last lines of [stop], 571-579, on the state [s]. *)
Definition wound_down (s : App) : App :=
  set_clock None
    (set_market_pair None
       (set_strategy None
          (set_strategy_task None
             (set_wallet None
                (set_tasks (tasks_after_cancel s)
                   (set_reporting_module
                      (option_map stopped (reporting_module s)) s)))))).

Definition winding_down : string := PyStr.nl ++ "Winding down...".

(** The state in which [_cancel_outstanding_orders] leaves [s]. *)
Definition after_cancel (E : Externals) (s : App) : App :=
  with_effects
    ("Cancelling outstanding orders..."
     :: trace_lines (cancel_trace E (markets s) true)
     ++ closing_line (trace_outcome (cancel_trace E (markets s) true)))
    (trace_calls (cancel_trace E (markets s) true)) s.

(** The market object [_initialize_markets] builds for a name, lines
    329-346; [None] for a name other than the three it knows. *)
Definition built_market (E : Externals) (w : option Web3Wallet)
    (market_name symbol : string) : option MarketBase :=
  if market_name =? "ddex" then
    Some (DDEXMarket E w (ethereum_rpc_url E) [symbol])
  else if market_name =? "binance" then
    Some (BinanceMarket E (ethereum_rpc_url E) (binance_api_key E)
            (binance_api_secret E) [symbol])
  else if market_name =? "radar_relay" then
    Some (RadarRelayMarket E w (ethereum_rpc_url E) [symbol])
  else None.

Definition known_market (market_name : string) : bool :=
  existsb (String.eqb market_name) ["ddex"; "binance"; "radar_relay"].

Definition all_cancelled_line : string := "All outstanding orders cancelled.".


Definition markets_with_none : Markets :=
  ("kraken", None) :: healthy_markets.

(** The symbol under which a name was last given to
    [_initialize_markets], if it was. *)
Fixpoint last_symbol (market_name : string)
    (market_names : list (string * string)) : option string :=
  match market_names with
  | [] => None
  | (n, symbol) :: r =>
      match last_symbol market_name r with
      | Some later => Some later
      | None => if market_name =? n then Some symbol else None
      end
  end.

(** What a strategy and a market pair were built from. *)
Definition strategy_pairs (st : Strategy) : list MarketPair :=
  match st with
  | CrossExchangeMarketMakingStrategy pairs _ _ _ _ _ _ _ => pairs
  | ArbitrageStrategy pairs _ _ => pairs
  end.

Definition pair_first_market (p : MarketPair) : option MarketBase :=
  match p with
  | CrossExchangeMarketPair m _ _ _ _ _ _ _ _ => m
  | ArbitrageMarketPair m _ _ _ _ _ _ _ => m
  end.

Definition pair_second_market (p : MarketPair) : option MarketBase :=
  match p with
  | CrossExchangeMarketPair _ _ _ _ m _ _ _ _ => m
  | ArbitrageMarketPair _ _ _ _ m _ _ _ => m
  end.

Definition pair_symbols (p : MarketPair) : string * string :=
  match p with
  | CrossExchangeMarketPair _ s1 _ _ _ s2 _ _ _ => (s1, s2)
  | ArbitrageMarketPair _ s1 _ _ _ s2 _ _ => (s1, s2)
  end.

(** The two (market, symbol) pairs a strategy is configured with, lower
    and upper case applied as lines 465-468 and 521-524 do. *)
Definition configured_markets (E : Externals) (strategy_name : string)
    : (string * string) * (string * string) :=
  if strategy_name =? "cross_exchange_market_making" then
    let cm := cross_exchange_market_making_config_map E in
    ((PyStr.lower (xemm_maker_market cm),
      PyStr.upper (xemm_maker_market_symbol cm)),
     (PyStr.lower (xemm_taker_market cm),
      PyStr.upper (xemm_taker_market_symbol cm)))
  else
    let cm := arbitrage_config_map E in
    ((PyStr.lower (arb_primary_market cm),
      PyStr.upper (arb_primary_market_symbol cm)),
     (PyStr.lower (arb_secondary_market cm),
      PyStr.upper (arb_secondary_market_symbol cm))).

(** A run as [start_market_making] leaves it: the strategy is built on
    the stored market pair, and the pair on the two objects stored in
    [self.markets] under the configured names, with the configured
    symbols. *)
Definition consistent_run (E : Externals) (strategy_name : string)
    (s' : App) : Prop :=
  exists p st,
    market_pair s' = Some p
    /\ strategy s' = Some st
    /\ strategy_pairs st = [p]
    /\ dict_get (fst (fst (configured_markets E strategy_name))) (markets s')
       = Some (pair_first_market p)
    /\ dict_get (fst (snd (configured_markets E strategy_name))) (markets s')
       = Some (pair_second_market p)
    /\ pair_symbols p =
       (snd (fst (configured_markets E strategy_name)),
        snd (snd (configured_markets E strategy_name))).

(** How a variant can end: with an exception and the state untouched,
    with the symbols rejected, or with a consistent run prepared. *)
Definition variant_outcome (E : Externals) (strategy_name : string)
    (s : App)
    (r : Res bool * App) : Prop :=
  (exists e, r = (Raise e, s)
             /\ ((exists re_str, e = ReError re_str)
                 \/ (e = none_has_no "privateKey" /\ acct s = None)))
  \/ (exists msg, symbols_rejected E strategy_name = Some msg
                  /\ r = (Ok false, set_app_log (app_log s ++ [msg]) s))
  \/ (symbols_rejected E strategy_name = None
      /\ exists s1, r = (Ok true, s1)
                    /\ consistent_run E strategy_name s1
                    /\ tasks s1 = tasks s
                    /\ app_log s1 = app_log s
                    /\ (exists w, wallet s1 = Some w)).

(** The state [start_clock] makes of a prepared one (lines 552-560). *)
Definition clock_started (strategy_name : string) (s : App) : App :=
  set_app_log (app_log s ++ [started_line strategy_name])
    (set_strategy_task (Some (List.length (tasks s)))
       (set_tasks
          (tasks s ++
           [new_task (CoClockRun (clock_of s))])
          (set_clock (Some (clock_of s)) s))).

(** The state [start] makes of the one [status] left when it answered
    True (lines 453-460). *)
Definition start_accepted (E : Externals) (log_level : option string)
    (s : App) : App :=
  set_tasks (tasks s ++ [start_task E])
    (set_app_log
       (app_log s
        ++ ["Status check complete. Starting '" ++ strategy_setting E
            ++ "' strategy..."])
       (set_reporting_module
          (Some (started
                   match reporting_module s with
                   | Some r => r
                   | None =>
                       {| report_aggregation_interval :=
                            reporting_aggregation_interval E;
                          log_report_interval := reporting_log_interval E;
                          running := false |}
                   end))
          (set_exchange_rate_conversion_started true
             (set_log_level_override
                match log_level with
                | Some l => Some (PyStr.upper l)
                | None => log_level_override s
                end s)))).

(** The run is untouched and at most the start task was added. *)
Definition only_scheduled (E : Externals) (s s' : App) : Prop :=
  wallet s' = wallet s
  /\ markets s' = markets s
  /\ market_pair s' = market_pair s
  /\ strategy s' = strategy s
  /\ clock s' = clock s
  /\ strategy_task s' = strategy_task s
  /\ acct s' = acct s
  /\ app_exited s' = app_exited s
  /\ cancel_calls s' = cancel_calls s
  /\ (tasks s' = tasks s \/ tasks s' = (tasks s ++ [start_task E])%list).

(** Leading white space dropped, on the list of characters. *)
Fixpoint drop_spaces (l : list ascii) : list ascii :=
  match l with
  | c :: r => if PyStr.is_space c then drop_spaces r else l
  | [] => []
  end.

(** The form in which [_handle_command] reads a line (line 120). *)
Definition normalised (raw_command : string) : string :=
  PyStr.strip (PyStr.lower raw_command).

(* ================================================================== *)
(** ** The query commands: [help], [get_balance], [list], [describe]

    What these methods read outside the application object: the wallet
    files, the exchange list, the parser's help texts, the balances the
    wallet and the markets report, and how a table or a number is
    printed.  A table of balances ([pandas.DataFrame] indexed by
    currency) is the list of its rows. *)

Record Console : Type := {
  (* list_wallets() *)
  list_wallets : list string;
  (* settings.EXCHANGES *)
  EXCHANGES : list string;
  (* self.parser.format_help() *)
  parser_format_help : string;
  (* the parser's _SubParsersAction actions: for each, the commands of
     its choices with the text of their format_help() *)
  subparsers_actions : list (Dict string);
  (* wallet.address, wallet.get_all_balances(), wallet.get_balance(c) *)
  wallet_address : Web3Wallet -> string;
  wallet_all_balances : Web3Wallet -> Dict Q;
  wallet_balance : Web3Wallet -> string -> Q;
  (* market.get_all_balances(), market.get_balance(c) *)
  market_all_balances : MarketBase -> Dict Q;
  market_balance : MarketBase -> string -> Q;
  (* what a table and a number look like in the console *)
  show_frame : Dict Q -> string;
  show_number : Q -> string
}.

(** [balance > 0] *)
Definition positive (q : Q) : bool := (0 <? Qnum q)%Z.

Definition wallet_not_available : string :=
  "Wallet not available. Please configure your wallet (Enter "
  ++ dq ++ "config wallet" ++ dq ++ ")".

Definition exchange_not_initialized : string :=
  "The exchange you entered has not been initialized. "
  ++ "You may check your exchange balance after entering the "
  ++ dq ++ "start" ++ dq ++ " command.".

Definition no_wallet_initialized : string :=
  "None available. Your wallet may not have been initialized. Enter "
  ++ dq ++ "start" ++ dq ++ " to initialize " ++ "your wallet.".

Definition exchange_not_specified_initialized : string :=
  "The exchange you specified has not been initialized".

Section Queries.

Variable E : Externals.
Variable C : Console.

(** [get_wallet_balance], lines 176-178. *)
Definition get_wallet_balance : M (Dict Q) :=
  s <- get ;;
  match wallet s with
  | Some w => ret (wallet_all_balances C w)
  | None => raise (none_has_no "get_all_balances")
  end.

(** [get_exchange_balance], lines 180-184. *)
Definition get_exchange_balance (exchange_name : string) : M (Dict Q) :=
  market <- markets_getitem exchange_name ;;
  match market with
  | Some m =>
      let raw_balance := market_all_balances C m in
      ret (filter (fun row => positive (snd row)) raw_balance)
  | None => raise (none_has_no "get_all_balances")
  end.

(** [help], lines 384-393. *)
Definition help (command : string) : M unit :=
  if command =? "all" then log (parser_format_help C)
  else
    for_each (subparsers_actions C) (fun subparsers_action =>
      match dict_get command subparsers_action with
      | Some subparser_help => log subparser_help
      | None => raise (none_has_no "format_help")
      end).

(** [exchange in self.markets] *)
Definition in_markets (exchange : string) (s : App) : bool :=
  match dict_get exchange (markets s) with
  | Some _ => true
  | None => false
  end.

(** The truth value of an optional string: [None] and the empty string
    are false. *)
Definition truthy (x : option string) : bool :=
  match x with
  | Some EmptyString => false
  | Some _ => true
  | None => false
  end.

(** [get_balance], lines 395-413.  [exchange] is a string whenever the
    branch that uses it is taken. *)
Definition get_balance (currency : option string) (wallet_ : bool)
    (exchange : option string) : M unit :=
  if wallet_ then
    s <- get ;;
    match wallet s, currency with
    | None, _ => log wallet_not_available
    | Some w, None =>
        frame <- get_wallet_balance ;;
        log (show_frame C frame)
    | Some w, Some c =>
        log (show_number C (wallet_balance C w (PyStr.upper c)))
    end
  else if truthy exchange then
    let exchange_name :=
      match exchange with Some x => x | None => EmptyString end in
    s <- get ;;
    if in_markets exchange_name s then
      match currency with
      | None =>
          frame <- get_exchange_balance exchange_name ;;
          log (show_frame C frame)
      | Some c =>
          market <- markets_getitem exchange_name ;;
          match market with
          | Some m => log (show_number C (market_balance C m (PyStr.upper c)))
          | None => raise (none_has_no "get_balance")
          end
      end
    else log exchange_not_initialized
  else help "get_balance".

(** [list], lines 415-430; [list] names a type here. *)
Definition list_ (obj : string) : M unit :=
  if obj =? "wallets" then
    let wallets := list_wallets C in
    if (List.length wallets =? 0)%nat then log wallet_not_available
    else log (PyStr.join PyStr.nl wallets)
  else if obj =? "exchanges" then
    if (List.length (EXCHANGES C) =? 0)%nat then log "No exchanges available"
    else log (PyStr.join PyStr.nl (EXCHANGES C))
  else if obj =? "configs" then
    log (PyStr.join PyStr.nl (dict_keys (load_required_configs E)))
  else help "list".

(** [describe], lines 432-446. *)
Definition describe (wallet_ : bool) (exchange : option string) : M unit :=
  if wallet_ then
    s <- get ;;
    match wallet s with
    | None => log no_wallet_initialized
    | Some w =>
        log (wallet_address C w) ;;
        frame <- get_wallet_balance ;;
        log (show_frame C frame)
    end
  else
    match exchange with
    | Some exchange_name =>
        s <- get ;;
        if in_markets exchange_name s then
          frame <- get_exchange_balance exchange_name ;;
          log (show_frame C frame)
        else raise (InvalidCommandError exchange_not_specified_initialized)
    | None => help "describe"
    end.

End Queries.

(** The help texts [help] prints for a command, and whether every
    subparsers action knows it. *)
Fixpoint help_trace (command : string) (actions : list (Dict string))
    : Res unit * list string :=
  match actions with
  | [] => (Ok tt, [])
  | action :: r =>
      match dict_get command action with
      | Some text =>
          let '(res, ls) := help_trace command r in (res, text :: ls)
      | None => (Raise (none_has_no "format_help"), [])
      end
  end.

(** A console for the examples: one wallet file, two subparsers actions
    of which only the first knows [list]. *)
Definition example_console : Console := {|
  list_wallets := ["0xabc"];
  EXCHANGES := ["binance"; "ddex"; "radar_relay"];
  parser_format_help := "usage: ...";
  subparsers_actions :=
    [[("list", "usage: list"); ("describe", "usage: describe");
      ("get_balance", "usage: get_balance")];
     [("describe", "more on describe")]];
  wallet_address := fun _ => "0xabc";
  wallet_all_balances := fun _ => [("ETH", 2%Q); ("DAI", 0%Q)];
  wallet_balance := fun _ _ => 2%Q;
  market_all_balances :=
    fun _ => [("WETH", (3 # 2)%Q); ("DAI", 0%Q); ("ZRX", (-1)%Q)];
  market_balance := fun _ _ => (3 # 2)%Q;
  show_frame := fun rows => PyStr.join PyStr.nl (map fst rows);
  show_number := fun _ => "1.5"
|}.

(* ================================================================== *)
(** ** The wallet prompts: [_create_or_import_wallet], [_unlock_wallet]

    These coroutines ask the operator through [self.app.prompt] and
    await themselves again on an answer they cannot use.  The answers
    still to come are a list; a prompt takes the first one, and a prompt
    that finds none leaves the coroutine waiting.  Every prompt shown is
    recorded with its [is_password] flag.

    Each nested await runs one level further down the interpreter's
    stack, and the interpreter raises [RecursionError] instead of going
    beyond its limit.  The coroutines therefore take [depth], the number
    of further levels the limit leaves room for where they are entered;
    the limit is taken to be met where the next level would be
    entered. *)

Record Wizard : Type := {
  (* global_config_map.get("wallet").prompt *)
  wallet_prompt : string;
  (* import_and_save_wallet(password, private_key); inl e when it raises *)
  import_and_save_wallet : string -> string -> Exn + LocalAccount;
  (* create_and_save_wallet(password) *)
  create_and_save_wallet : string -> Exn + LocalAccount;
  (* unlock_wallet(public_key, password) *)
  unlock_wallet : string -> string -> Exn + LocalAccount;
  (* str() of the RecursionError of the interpreter *)
  recursion_message : string
}.

(** How a coroutine that prompts ends: with a result, the answers left
    and the prompts shown, or waiting at a prompt. *)
Inductive Asked (A : Type) : Type :=
| Answered (r : Res A) (left : list string)
    (shown : list (string * bool)) (s : App)
| Waiting (shown : list (string * bool)) (s : App).

Arguments Waiting {A} shown s.

(** [await self.app.prompt(prompt=..., is_password=...)], then [k]. *)
Definition ask {A : Type} (prompt : string) (is_password : bool)
    (answers : list string) (shown : list (string * bool)) (s : App)
    (k : string -> list string -> list (string * bool) -> Asked A)
    : Asked A :=
  match answers with
  | [] => Waiting (shown ++ [(prompt, is_password)])%list s
  | answer :: rest => k answer rest (shown ++ [(prompt, is_password)])%list
  end.

Definition set_acct (v : option LocalAccount) (s : App) : App :=
  {|
    acct := v; markets := markets s; wallet := wallet s;
    strategy_task := strategy_task s; strategy := strategy s;
    market_pair := market_pair s; clock := clock s;
    placeholder_mode := placeholder_mode s;
    reporting_module := reporting_module s; app_log := app_log s;
    app_exited := app_exited s; log_records := log_records s;
    cancel_calls := cancel_calls s; tasks := tasks s; slept := slept s;
    log_level_override := log_level_override s;
    exchange_rate_conversion_started := exchange_rate_conversion_started s
  |}.

(** The state after [self.app.log(line)]. *)
Definition logged (line : string) (s : App) : App :=
  set_app_log (app_log s ++ [line]) s.

Definition private_key_prompt : string := "Your wallet private key >>> ".
Definition protect_password_prompt : string :=
  "A password to protect your wallet key >>> ".
Definition invalid_choice : string :=
  "Invalid choice. Please enter " ++ dq ++ "create" ++ dq ++ " or "
  ++ dq ++ "import" ++ dq ++ ".".
Definition unlock_question : string :=
  "Would you like to unlock your previously saved wallet? (y/n) >>> ".
Definition which_wallet_prompt : string :=
  "Which wallet would you like to import ? >>> ".
Definition enter_password_prompt : string := "Enter your password >>> ".
Definition cannot_unlock : string := "Cannot unlock wallet. Please try again.".

Section Wallets.

Variable E : Externals.
Variable C : Console.
Variable W : Wizard.

(** [_create_or_import_wallet], lines 197-213. *)
Fixpoint _create_or_import_wallet (depth : nat) (answers : list string)
    (shown : list (string * bool)) (s : App) {struct depth}
    : Asked string :=
  ask (wallet_prompt W) false answers shown s (fun choice answers shown =>
    if choice =? "import" then
      ask private_key_prompt true answers shown s
        (fun private_key answers shown =>
      ask protect_password_prompt true answers shown s
        (fun password answers shown =>
      match import_and_save_wallet W password private_key with
      | inl e => Answered (Raise e) answers shown s
      | inr a =>
          Answered (Ok (address a)) answers shown
            (logged ("Wallet " ++ address a ++ " imported into hummingbot")
               (set_acct (Some a) s))
      end))
    else if choice =? "create" then
      ask protect_password_prompt true answers shown s
        (fun password answers shown =>
      match create_and_save_wallet W password with
      | inl e => Answered (Raise e) answers shown s
      | inr a =>
          Answered (Ok (address a)) answers shown
            (logged ("New wallet " ++ address a ++ " created")
               (set_acct (Some a) s))
      end)
    else
      let s := logged invalid_choice s in
      match depth with
      | O => Answered (Raise (RecursionError (recursion_message W)))
               answers shown s
      | S depth' => _create_or_import_wallet depth' answers shown s
      end).

(** The [try] of lines 226-234, up to the recursive call. *)
Definition try_unlock (public_key password : string) (s : App)
    : option (string * App) :=
  match unlock_wallet W public_key password with
  | inr a =>
      Some (address a,
            set_acct (Some a) (logged ("Wallet " ++ address a ++ " unlocked") s))
  | inl _ => None
  end.

(** [_unlock_wallet], lines 215-237. *)
Fixpoint _unlock_wallet (depth : nat) (answers : list string)
    (shown : list (string * bool)) (s : App) {struct depth}
    : Asked string :=
  ask unlock_question false answers shown s (fun choice answers shown =>
    if PyStr.lower choice =? "y" then
      let wallets := list_wallets C in
      let s := logged "Existing wallets:" s in
      match list_ E C "wallets" s with
      | (Raise e, s) => Answered (Raise e) answers shown s
      | (Ok _, s) =>
          let with_key (public_key : string) (answers : list string)
              (shown : list (string * bool)) :=
            ask enter_password_prompt true answers shown s
              (fun password answers shown =>
            match try_unlock public_key password s with
            | Some (addr, s) => Answered (Ok addr) answers shown s
            | None =>
                let s := logged cannot_unlock s in
                match depth with
                | O => Answered (Raise (RecursionError (recursion_message W)))
                         answers shown s
                | S depth' => _unlock_wallet depth' answers shown s
                end
            end) in
          match wallets with
          | [only] => with_key only answers shown
          | _ => ask which_wallet_prompt false answers shown s with_key
          end
      end
    else
      match depth with
      | O => Answered (Raise (RecursionError (recursion_message W)))
               answers shown s
      | S depth' => _create_or_import_wallet depth' answers shown s
      end).

End Wallets.

(** An answer [_create_or_import_wallet] cannot use. *)
Definition unusable (choice : string) : Prop :=
  choice <> "import" /\ choice <> "create".

(** The same line logged [n] times. *)
Definition logged_times (n : nat) (line : string) (s : App) : App :=
  Nat.iter n (logged line) s.

(** What one failed attempt of [_unlock_wallet] with the single wallet
    [only] prints. *)
Definition failed_attempt_lines (only : string) : list string :=
  ["Existing wallets:"; only; cannot_unlock].

(** A wizard for the examples: every key imports, every password
    creates, and only the password [secret] unlocks. *)
Definition example_wizard : Wizard := {|
  wallet_prompt := "Would you like to import or create a wallet? >>> ";
  import_and_save_wallet :=
    fun _ key => inr {| address := "0x" ++ key; privateKey := key |};
  create_and_save_wallet :=
    fun _ => inr {| address := "0xnew"; privateKey := "k" |};
  unlock_wallet :=
    fun public_key password =>
      if password =? "secret"
      then inr {| address := public_key; privateKey := "k" |}
      else inl (ValueError "MAC mismatch");
  recursion_message := "maximum recursion depth exceeded"
|}.

(** The two prompts of one attempt of [_unlock_wallet] when there is a
    single wallet file. *)
Definition attempt_prompts : list (string * bool) :=
  [(unlock_question, false); (enter_password_prompt, true)].

(* ================================================================== *)
(** * Results *)

(** ** Dictionaries: results

    The keys of a dictionary stay distinct under assignment, and so do
    the names of [self.markets] under [_initialize_markets]. *)

Lemma dict_set_keys (V : Type) (k : string) (v : V) (d : Dict V) :
  forall x, In x (dict_keys (dict_set k v d)) <-> x = k \/ In x (dict_keys d).
Proof.
  unfold dict_keys. induction d as [| [k' v'] r IH]; intros x; simpl.
  - intuition.
  - destruct (String.eqb_spec k k') as [-> | Hne]; simpl.
    + intuition.
    + rewrite IH. intuition.
Qed.

Lemma dict_set_keys_nodup (V : Type) (k : string) (v : V) (d : Dict V) :
  NoDup (dict_keys d) -> NoDup (dict_keys (dict_set k v d)).
Proof.
  induction d as [| [k' v'] r IH]; simpl; intros H.
  - repeat constructor. intros [].
  - inversion H as [| x l Hx Hr]; subst.
    destruct (String.eqb_spec k k') as [-> | Hne]; simpl.
    + constructor; assumption.
    + constructor; [| apply IH, Hr].
      intros Hin. apply dict_set_keys in Hin.
      destruct Hin as [-> | Hin]; [congruence | exact (Hx Hin)].
Qed.

Lemma dict_get_set_same (V : Type) (k : string) (v : V) (d : Dict V) :
  dict_get k (dict_set k v d) = Some v.
Proof.
  induction d as [| [k' v'] r IH]; simpl.
  - rewrite String.eqb_refl. reflexivity.
  - destruct (String.eqb_spec k k') as [-> | Hne]; simpl.
    + rewrite String.eqb_refl. reflexivity.
    + apply String.eqb_neq in Hne. rewrite Hne. exact IH.
Qed.

Lemma dict_get_set_present (V : Type) (k k' : string) (v : V) (d : Dict V) :
  dict_get k d <> None -> dict_get k (dict_set k' v d) <> None.
Proof.
  induction d as [| [k0 v0] r IH]; simpl; [congruence |].
  destruct (String.eqb_spec k' k0) as [-> | Hne]; simpl;
    destruct (k =? k0); auto; discriminate.
Qed.

Lemma initialize_markets_keys_nodup (E : Externals)
    (market_names : list (string * string)) :
  forall s : App,
    NoDup (dict_keys (markets s)) ->
    result (_initialize_markets E market_names s) = Ok tt
    /\ NoDup (dict_keys
                (markets (final (_initialize_markets E market_names s)))).
Proof.
  unfold _initialize_markets.
  induction market_names as [| [market_name symbol] r IH]; intros s H.
  - split; [reflexivity | exact H].
  - simpl. unfold bind at 1 3. unfold bind at 1 2. unfold get, modify.
    apply IH. simpl. apply dict_set_keys_nodup, H.
Qed.

(** ** Tolerance resolution: results *)

Example compile_btc_any : Re.compile "BTC.*" = Some btc_any.
Proof. reflexivity. Qed.

(** The patterns of the example settings are in the fragment on which
    [Re.compile] answers as [re.compile] does. *)
Example example_patterns_in_fragment (maker_symbol : string) :
  forallb (fun rule => Re.in_fragment (fst rule))
    (xemm_top_depth_tolerance (example_cross_exchange maker_symbol)) = true.
Proof. reflexivity. Qed.

Example compile_any : Re.compile ".*" = Some any.
Proof. reflexivity. Qed.

Example btc_any_matches :
  Re.matches btc_any "BTCUSD" = true /\ Re.matches btc_any "ETHUSD" = false
  /\ Re.matches btc_any "BT" = false /\ Re.matches btc_any "XBTCUSD" = false.
Proof. repeat split; reflexivity. Qed.

Example any_matches :
  Re.matches any "BTCUSD" = true /\ Re.matches any "ETHUSD" = true
  /\ Re.matches any "" = true.
Proof. repeat split; reflexivity. Qed.


Lemma resolve_snoc (rules : list (Re.Pattern * Q)) (regex : Re.Pattern)
    (value : Q) (symbol : string) :
  resolve_top_depth_tolerance (rules ++ [(regex, value)]) symbol =
  if Re.matches regex symbol then value
  else resolve_top_depth_tolerance rules symbol.
Proof.
  unfold resolve_top_depth_tolerance.
  rewrite fold_left_app. reflexivity.
Qed.

Lemma resolve_last_match (rules : list (Re.Pattern * Q)) (symbol : string) :
  (no_rule_matches symbol rules
   /\ resolve_top_depth_tolerance rules symbol = 0%Q)
  \/ (exists before regex value after,
        rules = (before ++ (regex, value) :: after)%list
        /\ Re.matches regex symbol = true
        /\ no_rule_matches symbol after
        /\ resolve_top_depth_tolerance rules symbol = value).
Proof.
  induction rules as [| [regex value] rules IH] using rev_ind.
  - left. split; [constructor | reflexivity].
  - rewrite resolve_snoc.
    destruct (Re.matches regex symbol) eqn:Hm.
    + right. exists rules, regex, value, []. repeat split; auto.
      constructor.
    + destruct IH as [[Hnone Hzero] | (b & r & v & a & -> & Hr & Ha & Hv)].
      * left. split; [| exact Hzero].
        apply Forall_app. split; [exact Hnone |].
        constructor; [exact Hm | constructor].
      * right. exists b, r, v, (a ++ [(regex, value)])%list.
        repeat split; auto.
        -- rewrite <- app_assoc. reflexivity.
        -- apply Forall_app. split; [exact Ha |].
           constructor; [exact Hm | constructor].
Qed.

(** C1, as the specification states it, fails on the example it gives:
    both rules match BTCUSD, the first rule carries 0.01 and the code
    resolves to the 0.0 of the second. *)
Lemma first_match_refuted :
  first_matching_value example_rules "BTCUSD" = (1 # 100)%Q
  /\ resolve_top_depth_tolerance example_rules "BTCUSD" = 0%Q
  /\ ~ (resolve_top_depth_tolerance example_rules "BTCUSD"
        == first_matching_value example_rules "BTCUSD")%Q.
Proof.
  split; [reflexivity | split; [reflexivity |]].
  vm_compute. discriminate.
Qed.

(** C1 (amended): the resolved tolerance is the value of the LAST rule
    whose pattern matches the maker symbol, and 0 when no rule matches;
    with the rules BTC.* -> 0.01, .* -> 0.0 both BTCUSD and ETHUSD resolve
    to 0.0. *)
Theorem top_depth_tolerance_last_match :
  (forall (rules : list (Re.Pattern * Q)) (symbol : string),
      (no_rule_matches symbol rules
       /\ resolve_top_depth_tolerance rules symbol = 0%Q)
      \/ (exists before regex value after,
            rules = (before ++ (regex, value) :: after)%list
            /\ Re.matches regex symbol = true
            /\ no_rule_matches symbol after
            /\ resolve_top_depth_tolerance rules symbol = value))
  /\ resolve_top_depth_tolerance example_rules "BTCUSD" = 0%Q
  /\ resolve_top_depth_tolerance example_rules "ETHUSD" = 0%Q.
Proof.
  split; [exact resolve_last_match |].
  split; reflexivity.
Qed.

(* ================================================================== *)
(** ** Cancelling outstanding orders: results *)

Lemma with_effects_nil (s : App) : with_effects [] [] s = s.
Proof.
  destruct s. unfold with_effects, set_cancel_calls, set_app_log. simpl.
  rewrite !app_nil_r. reflexivity.
Qed.

Lemma with_effects_twice (l1 l2 : list string) (c1 c2 : list (string * Q))
    (s : App) :
  with_effects l2 c2 (with_effects l1 c1 s) =
  with_effects (l1 ++ l2) (c1 ++ c2) s.
Proof.
  unfold with_effects, set_cancel_calls, set_app_log. simpl.
  rewrite !app_assoc. reflexivity.
Qed.

Lemma log_with_effects (line : string) (s : App) :
  log line s = (Ok tt, with_effects [line] [] s).
Proof.
  unfold log, modify, with_effects, set_cancel_calls, set_app_log. simpl.
  rewrite app_nil_r. reflexivity.
Qed.

Section CancelResults.

Variable E : Externals.

Lemma cancel_loop_trace (ms : Markets) :
  forall (b : bool) (s : App),
    for_fold ms (cancel_on_market E) b s =
    (trace_outcome (cancel_trace E ms b),
     with_effects (trace_lines (cancel_trace E ms b))
                  (trace_calls (cancel_trace E ms b)) s).
Proof.
  induction ms as [| [market_name market] r IH]; intros b s.
  - simpl. unfold ret, trace_outcome, trace_lines, trace_calls. simpl.
    rewrite with_effects_nil. reflexivity.
  - simpl. unfold bind, cancel_on_market at 1. fold (skips E market_name).
    destruct (skips E market_name).
    + unfold ret. apply IH.
    + destruct market as [m |].
      * unfold market_cancel_all, bind, modify, ret. simpl.
        fold (uncancelled_of m).
        destruct (0 <? List.length (uncancelled_of m))%nat.
        -- unfold log, modify. rewrite IH.
           destruct (cancel_trace E r false) as [[res ls] cs].
           unfold trace_outcome, trace_lines, trace_calls. simpl.
           f_equal.
           unfold with_effects, set_cancel_calls, set_app_log. simpl.
           rewrite <- !app_assoc. reflexivity.
        -- rewrite IH.
           destruct (cancel_trace E r b) as [[res ls] cs].
           unfold trace_outcome, trace_lines, trace_calls. simpl.
           f_equal.
           unfold with_effects, set_cancel_calls, set_app_log. simpl.
           rewrite <- !app_assoc. reflexivity.
      * unfold market_cancel_all, raise.
        unfold trace_outcome, trace_lines, trace_calls. simpl.
        rewrite with_effects_nil. reflexivity.
Qed.

(** The method, in terms of the trace of its loop. *)
Lemma cancel_outstanding_orders_trace (s : App) :
  let t := cancel_trace E (markets s) true in
  _cancel_outstanding_orders E s =
  (trace_outcome t,
   with_effects
     ("Cancelling outstanding orders..." :: trace_lines t
      ++ closing_line (trace_outcome t))
     (trace_calls t) s).
Proof.
  intros t. unfold _cancel_outstanding_orders.
  unfold bind at 1. rewrite log_with_effects.
  unfold bind at 1. unfold get at 1.
  unfold bind at 1. rewrite cancel_loop_trace.
  change (markets (with_effects ["Cancelling outstanding orders..."] [] s))
    with (markets s).
  fold t. rewrite with_effects_twice.
  destruct (trace_outcome t) as [[|] |]; simpl.
  - unfold bind, when. rewrite log_with_effects. unfold ret.
    rewrite with_effects_twice. simpl.
    rewrite ?app_nil_r, <- ?app_assoc. reflexivity.
  - unfold bind, when, ret. rewrite ?app_nil_r. reflexivity.
  - rewrite ?app_nil_r. reflexivity.
Qed.

End CancelResults.

Lemma uncancelled_none_iff (m : MarketBase) :
  (0 <? List.length (uncancelled_of m))%nat = negb (all_cancelled m).
Proof.
  unfold uncancelled_of, all_cancelled.
  induction (cancel_all m KILL_TIMEOUT) as [| cr r IH]; [reflexivity |].
  simpl. destruct (success cr); simpl; [exact IH | reflexivity].
Qed.

Lemma uncancelled_nil_iff (m : MarketBase) :
  uncancelled_of m = [] <-> all_cancelled m = true.
Proof.
  generalize (uncancelled_none_iff m).
  destruct (uncancelled_of m); destruct (all_cancelled m);
    unfold Nat.ltb; simpl; intros H; split; intros; congruence.
Qed.

Section CancelFacts.

Variable E : Externals.

(** With every visited market present the loop ends normally, and its
    three outputs are read off the markets it does not skip. *)
Lemma cancel_trace_present (ms : Markets) :
  forall b : bool,
    all_present E ms ->
    cancel_trace E ms b =
    (Ok (b && forallb market_ok (non_skipped E ms)),
     flat_map failure_lines (non_skipped E ms),
     map request_of (non_skipped E ms)).
Proof.
  unfold all_present.
  induction ms as [| [market_name market] r IH]; intros b Hp.
  - simpl. rewrite andb_true_r. reflexivity.
  - simpl in *. destruct (skips E market_name); simpl in *.
    + apply IH, Hp.
    + inversion Hp as [| x l Hx Hr]; subst. simpl in Hx.
      destruct market as [m |]; [| congruence].
      rewrite uncancelled_none_iff.
      unfold market_ok at 1, failure_lines at 1, request_of at 1. simpl.
      destruct (all_cancelled m); simpl.
      * rewrite (IH b Hr). reflexivity.
      * rewrite (IH false Hr). simpl. rewrite andb_false_r. reflexivity.
Qed.

(** The loop ends normally only if every visited market is present. *)
Lemma cancel_trace_ok_present (ms : Markets) :
  forall b b' : bool,
    trace_outcome (cancel_trace E ms b) = Ok b' -> all_present E ms.
Proof.
  unfold all_present.
  induction ms as [| [market_name market] r IH]; intros b b' H.
  - constructor.
  - simpl in *. destruct (skips E market_name); simpl.
    + eapply IH, H.
    + destruct market as [m |].
      * constructor; [simpl; congruence |].
        destruct (0 <? List.length (uncancelled_of m))%nat.
        -- destruct (cancel_trace E r false) as [[res ls] cs] eqn:Ht.
           apply (IH false b'). rewrite Ht. exact H.
        -- destruct (cancel_trace E r b) as [[res ls] cs] eqn:Ht.
           apply (IH b b'). rewrite Ht. exact H.
      * discriminate H.
Qed.

(** The result of the method depends on the state through its markets
    only. *)
Lemma cancel_result (s : App) :
  result (_cancel_outstanding_orders E s) =
  trace_outcome (cancel_trace E (markets s) true).
Proof. rewrite cancel_outstanding_orders_trace. reflexivity. Qed.

Lemma cancel_final (s : App) :
  let t := cancel_trace E (markets s) true in
  final (_cancel_outstanding_orders E s) =
  with_effects
    ("Cancelling outstanding orders..." :: trace_lines t
     ++ closing_line (trace_outcome t))
    (trace_calls t) s.
Proof. intros t. rewrite cancel_outstanding_orders_trace. reflexivity. Qed.

Lemma market_ok_spec (ms : Markets) :
  forallb market_ok (non_skipped E ms) = true <->
  (forall name m cr,
      In (name, Some m) ms -> skips E name = false ->
      In cr (cancel_all m KILL_TIMEOUT) -> success cr = true).
Proof.
  rewrite forallb_forall. unfold non_skipped. split.
  - intros H name m cr Hin Hs Hcr.
    specialize (H (name, Some m)).
    rewrite filter_In in H. simpl in H. rewrite Hs in H.
    specialize (H (conj Hin eq_refl)).
    unfold market_ok, all_cancelled in H. simpl in H.
    rewrite forallb_forall in H. apply H, Hcr.
  - intros H [name market] Hin. rewrite filter_In in Hin. simpl in Hin.
    destruct Hin as [Hin Hs]. apply negb_true_iff in Hs.
    unfold market_ok, all_cancelled. simpl.
    destruct market as [m |]; [| reflexivity].
    rewrite forallb_forall. intros cr Hcr. eapply H; eauto.
Qed.

End CancelFacts.

(** What the failure line holds. *)
Lemma string_app_assoc (a b c : string) : (a ++ b) ++ c = a ++ b ++ c.
Proof.
  induction a as [| x a IH]; simpl; [reflexivity | rewrite IH; reflexivity].
Qed.

Lemma string_app_nil_r (a : string) : a ++ EmptyString = a.
Proof.
  induction a as [| x a IH]; simpl; [reflexivity | rewrite IH; reflexivity].
Qed.

Lemma occurs_in_refl (x : string) : occurs_in x x.
Proof.
  exists EmptyString, EmptyString. simpl. rewrite string_app_nil_r.
  reflexivity.
Qed.

Lemma occurs_in_app_l (part a b : string) :
  occurs_in part a -> occurs_in part (a ++ b).
Proof.
  intros (before & after & ->). exists before, (after ++ b).
  rewrite !string_app_assoc. reflexivity.
Qed.

Lemma occurs_in_app_r (part a b : string) :
  occurs_in part b -> occurs_in part (a ++ b).
Proof.
  intros (before & after & ->). exists (a ++ before), after.
  rewrite !string_app_assoc. reflexivity.
Qed.

Lemma occurs_in_concat (sep x : string) (l : list string) :
  In x l -> occurs_in x (String.concat sep l).
Proof.
  induction l as [| y r IH]; [intros [] |].
  intros Hin. destruct r as [| z r'].
  - destruct Hin as [-> | []]. apply occurs_in_refl.
  - change (String.concat sep (y :: z :: r'))
      with (y ++ sep ++ String.concat sep (z :: r')).
    destruct Hin as [-> | Hin].
    + apply occurs_in_app_l, occurs_in_refl.
    + apply occurs_in_app_r, occurs_in_app_r, IH, Hin.
Qed.

Lemma failure_report_names_market (name : string) (ids : list string) :
  occurs_in name (failure_report name ids).
Proof.
  unfold failure_report.
  eexists (String (ascii_of_nat 10)
             "Failed to cancel the following orders on "), _.
  simpl. reflexivity.
Qed.

Lemma failure_report_lists_ids (name id : string) (ids : list string) :
  In id ids -> occurs_in id (failure_report name ids).
Proof.
  intros Hin. unfold failure_report.
  apply (@occurs_in_app_r id (String (ascii_of_nat 10) EmptyString)).
  apply occurs_in_app_r, occurs_in_app_r, occurs_in_app_r.
  apply (@occurs_in_app_r id (String (ascii_of_nat 10) EmptyString)).
  apply occurs_in_concat, Hin.
Qed.

(** C2: with every market the loop visits present, the method returns
    true exactly when every result of every market it does not skip has
    success = true; a market with a failed result makes it return false
    and print one line for that market, in which the name of the market
    and the id of every order of it that failed occur: the line made of
    a line feed, the sentence naming the market, and the failed ids one
    per line. *)
Theorem cancel_success_iff_all_results_succeed (E : Externals) (s : App) :
  all_present E (markets s) ->
  exists b : bool,
    result (_cancel_outstanding_orders E s) = Ok b
    /\ (b = true <->
        forall name m cr,
          In (name, Some m) (markets s) -> skips E name = false ->
          In cr (cancel_all m KILL_TIMEOUT) -> success cr = true)
    /\ (forall name m,
          In (name, Some m) (markets s) -> skips E name = false ->
          uncancelled_of m <> [] ->
          b = false
          /\ exists line,
               In line (app_log (final (_cancel_outstanding_orders E s)))
               /\ line =
                  failure_report name (map order_id (uncancelled_of m))
               /\ occurs_in name line
               /\ forall cr,
                    In cr (cancel_all m KILL_TIMEOUT) ->
                    success cr = false ->
                    occurs_in (order_id cr) line).
Proof.
  intros Hp.
  exists (forallb market_ok (non_skipped E (markets s))).
  rewrite cancel_result, cancel_final.
  rewrite (cancel_trace_present true Hp).
  unfold trace_outcome, trace_lines, trace_calls. simpl.
  split; [reflexivity |].
  split; [apply market_ok_spec |].
  intros name m Hin Hs Hne.
  assert (Hbad : all_cancelled m = false).
  { destruct (all_cancelled m) eqn:Ha; [| reflexivity].
    apply uncancelled_nil_iff in Ha. contradiction. }
  assert (Hf : In (name, Some m) (non_skipped E (markets s))).
  { unfold non_skipped. apply filter_In. simpl. rewrite Hs. auto. }
  split.
  - destruct (forallb market_ok (non_skipped E (markets s))) eqn:Hall;
      [| reflexivity].
    rewrite forallb_forall in Hall. specialize (Hall _ Hf).
    unfold market_ok in Hall. simpl in Hall. congruence.
  - exists (failure_report name (map order_id (uncancelled_of m))).
    split; [| split; [reflexivity | split]].
    + apply in_app_iff. right. right. apply in_app_iff. left.
      apply in_flat_map. exists (name, Some m). split; [exact Hf |].
      unfold failure_lines. simpl. rewrite Hbad. left. reflexivity.
    + apply failure_report_names_market.
    + intros cr Hcr Hfailed. apply failure_report_lists_ids.
      apply in_map. unfold uncancelled_of. apply filter_In.
      split; [exact Hcr | rewrite Hfailed; reflexivity].
Qed.

Section SkippingFacts.

Variable E : Externals.







End SkippingFacts.




Lemma cancel_success_witness :
  exists b : bool,
    result (_cancel_outstanding_orders
              (example_externals false "arbitrage" "weth-dai")
              (example_app failing_markets)) = Ok b
    /\ (b = true <->
        forall name m cr,
          In (name, Some m) failing_markets ->
          skips (example_externals false "arbitrage" "weth-dai") name = false ->
          In cr (cancel_all m KILL_TIMEOUT) -> success cr = true)
    /\ (forall name m,
          In (name, Some m) failing_markets ->
          skips (example_externals false "arbitrage" "weth-dai") name = false ->
          uncancelled_of m <> [] ->
          b = false
          /\ exists line,
               In line
                 (app_log
                    (final (_cancel_outstanding_orders
                              (example_externals false "arbitrage" "weth-dai")
                              (example_app failing_markets))))
               /\ line =
                  failure_report name (map order_id (uncancelled_of m))
               /\ occurs_in name line
               /\ forall cr,
                    In cr (cancel_all m KILL_TIMEOUT) ->
                    success cr = false ->
                    occurs_in (order_id cr) line).
Proof.
  apply (@cancel_success_iff_all_results_succeed
           (example_externals false "arbitrage" "weth-dai")
           (example_app failing_markets)).
  unfold all_present. simpl. repeat constructor; simpl; discriminate.
Defined.
(* ================================================================== *)
(** ** Stopping and exiting: results *)

Section WindDown.

Variable E : Externals.

(** Cancelling the strategy task touches the tasks of the loop only. *)
Lemma cancel_strategy_task_tasks (s : App) :
  exists ts, cancel_strategy_task s = (Ok tt, set_tasks ts s).
Proof.
  unfold cancel_strategy_task, bind, get.
  destruct (strategy_task s) as [id |].
  - unfold when. destruct (negb (task_cancelled id s)).
    + unfold task_cancel, modify. eexists. reflexivity.
    + exists (tasks s). unfold ret. destruct s. reflexivity.
  - exists (tasks s). unfold ret. destruct s. reflexivity.
Qed.



(** What [stop] leaves behind.  [stop_to_cancellation] runs [stop] up to
    the result of the cancellation, [stop_to_end] the rest. *)
Ltac stop_to_cancellation s :=
  unfold stop; unfold bind at 1; rewrite log_with_effects;
  unfold when at 1; change (negb false) with true; cbv beta iota;
  unfold bind at 1; unfold bind at 1;
  rewrite cancel_outstanding_orders_trace;
  change (markets (with_effects [(PyStr.nl ++ "Winding down...")%string]
                     [] s))
    with (markets s).

Ltac stop_to_end s :=
  unfold when, modify, bind, get, ret; simpl;
  destruct (reporting_module s); simpl;
  match goal with
  | |- context [cancel_strategy_task ?x] =>
      destruct (cancel_strategy_task_tasks x) as [ts ->]
  end; simpl; rewrite ?app_nil_r; reflexivity.

Lemma stop_result (s : App) :
  result (stop E false s) =
  match result (_cancel_outstanding_orders E s) with
  | Ok _ => Ok tt
  | Raise e => Raise e
  end.
Proof.
  rewrite cancel_result. stop_to_cancellation s.
  destruct (trace_outcome (cancel_trace E (markets s) true)) as [[|] |];
    [stop_to_end s | stop_to_end s | reflexivity].
Qed.

Lemma stop_markets (s : App) :
  markets (final (stop E false s)) =
  match result (_cancel_outstanding_orders E s) with
  | Ok true => []
  | _ => markets s
  end.
Proof.
  rewrite cancel_result. stop_to_cancellation s.
  destruct (trace_outcome (cancel_trace E (markets s) true)) as [[|] |];
    [stop_to_end s | stop_to_end s | reflexivity].
Qed.

Lemma stop_cancel_calls (s : App) :
  cancel_calls (final (stop E false s)) =
  (cancel_calls s ++ trace_calls (cancel_trace E (markets s) true))%list.
Proof.
  stop_to_cancellation s.
  destruct (trace_outcome (cancel_trace E (markets s) true)) as [[|] |];
    [stop_to_end s | stop_to_end s |].
  simpl. rewrite app_nil_r. reflexivity.
Qed.

End WindDown.



(** C5: after a stop() whose cancellation succeeded the markets mapping
    is empty; cancelling again returns true and makes no cancel_all call,
    and so a second stop() makes none either. *)
Theorem stop_twice_cancels_once (E E' : Externals) (s : App) :
  result (_cancel_outstanding_orders E s) = Ok true ->
  let s1 := final (stop E false s) in
  let s2 := final (stop E' false s1) in
  result (stop E false s) = Ok tt
  /\ markets s1 = []
  /\ result (_cancel_outstanding_orders E' s1) = Ok true
  /\ cancel_calls (final (_cancel_outstanding_orders E' s1)) = cancel_calls s1
  /\ result (stop E' false s1) = Ok tt
  /\ cancel_calls s2 = cancel_calls s1
  /\ markets s2 = [].
Proof.
  intros Hok s1 s2.
  assert (Hm1 : markets s1 = []).
  { unfold s1. rewrite stop_markets, Hok. reflexivity. }
  assert (Hc1 : result (_cancel_outstanding_orders E' s1) = Ok true).
  { rewrite cancel_result, Hm1. reflexivity. }
  split; [rewrite stop_result, Hok; reflexivity |].
  split; [exact Hm1 |].
  split; [exact Hc1 |].
  split.
  { rewrite cancel_final, Hm1. simpl. apply app_nil_r. }
  split; [rewrite stop_result, Hc1; reflexivity |].
  split.
  { unfold s2. rewrite stop_cancel_calls, Hm1. simpl. apply app_nil_r. }
  unfold s2. rewrite stop_markets, Hc1. reflexivity.
Qed.

Lemma stop_twice_witness :
  markets
    (final (stop (example_externals false "arbitrage" "weth-dai") false
              (example_app healthy_markets))) = []
  /\ cancel_calls
       (final (stop (example_externals true "arbitrage" "weth-dai") false
                 (final (stop (example_externals false "arbitrage" "weth-dai")
                           false (example_app healthy_markets))))) =
     [("binance", KILL_TIMEOUT)].
Proof.
  destruct (@stop_twice_cancels_once
              (example_externals false "arbitrage" "weth-dai")
              (example_externals true "arbitrage" "weth-dai")
              (example_app healthy_markets))
    as (_ & Hm & _ & _ & _ & Hc & _).
  - reflexivity.
  - split; [exact Hm | rewrite Hc; reflexivity].
Defined.

(** C6: stop() without skip_order_cancellation empties the markets
    mapping when the cancellation returned true and leaves it as it was
    otherwise, so that cancelling again after a failure meets the same
    markets and has the same result. *)
Theorem stop_erases_markets_only_on_success (E : Externals) (s : App) :
  markets (final (stop E false s)) =
    match result (_cancel_outstanding_orders E s) with
    | Ok true => []
    | _ => markets s
    end
  /\ result (_cancel_outstanding_orders E (final (stop E false s))) =
     result (_cancel_outstanding_orders E s).
Proof.
  split; [apply stop_markets |].
  rewrite (cancel_result E (final (stop E false s))), stop_markets.
  rewrite cancel_result.
  destruct (trace_outcome (cancel_trace E (markets s) true)) as [[|] |] eqn:H;
    simpl; try rewrite H; reflexivity.
Qed.

Example stop_keeps_failing_markets :
  markets
    (final (stop (example_externals false "arbitrage" "weth-dai") false
              (example_app failing_markets))) = failing_markets
  /\ map fst
       (cancel_calls
          (final (stop (example_externals false "arbitrage" "weth-dai") false
                    (example_app failing_markets)))) = ["binance"; "ddex"].
Proof. split; reflexivity. Qed.

(* ================================================================== *)
(** ** Status and start: results *)

Lemma for_each_log (X : Type) (f : X -> string) (l : list X) :
  forall s : App,
    for_each l (fun x => log (f x)) s = (Ok tt, with_effects (map f l) [] s).
Proof.
  induction l as [| x r IH]; intros s; simpl.
  - unfold ret. rewrite with_effects_nil. reflexivity.
  - unfold bind. rewrite log_with_effects, IH, with_effects_twice.
    reflexivity.
Qed.

Lemma note_loading_pure (ms : Markets) :
  forall (acc : list string) (s : App),
    exists r, for_fold ms note_loading acc s = (r, s).
Proof.
  induction ms as [| [market_name market] r IH]; intros acc s; simpl.
  - eexists. reflexivity.
  - unfold bind. destruct market as [m |]; simpl.
    + unfold ret. apply IH.
    + eexists. reflexivity.
Qed.

Section StatusFacts.

Variable E : Externals.

(** [status] changes nothing of a run, and does not answer True while
    a strategy is set. *)
Ltac frame := unfold same_run; repeat split; reflexivity.
Ltac refuse := intros Hrun; simpl; try discriminate; congruence.
Ltac settled :=
  eexists _, _; split; [reflexivity | split; [frame | refuse]].

(** [status] changes nothing of a run, and does not answer True while
    a strategy is set. *)
Lemma status_cases (s : App) :
  exists r s',
    status E s = (r, s')
    /\ same_run s s'
    /\ (strategy s <> None -> r <> Ok true).
Proof.
  unfold status.
  destruct (config_complete E); [| settled].
  unfold bind at 1. rewrite log_with_effects.
  unfold bind at 1. unfold check_web3.
  set (ok := match web3_isConnected E (ethereum_rpc_url E) with
             | Some b => b
             | None => false
             end).
  unfold bind at 1. unfold when.
  destruct (negb ok && String.prefix "http://mainnet.infura.io"
                                     (ethereum_rpc_url E));
    unfold logger, modify, ret;
    (destruct ok; [| settled]);
    unfold bind at 1; rewrite log_with_effects;
    unfold bind at 1; unfold get at 1; unfold bind at 1;
    match goal with
    | |- context [for_fold ?ms note_loading [] ?x] =>
        destruct (note_loading_pure ms [] x) as [r ->]
    end;
    (destruct r as [loading |]; [| settled]);
    unfold bind at 1; unfold get at 1;
    cbn [strategy with_effects set_cancel_calls set_app_log
         set_log_records];
    (destruct (strategy s) as [st |]; [| settled]);
    (destruct (0 <? List.length loading)%nat;
     [ unfold bind at 1; rewrite for_each_log
     | unfold bind at 1; rewrite log_with_effects;
       unfold bind at 1; rewrite log_with_effects ]);
    settled.
Qed.

Lemma status_frame (s : App) :
  same_run s (final (status E s))
  /\ (strategy s <> None -> result (status E s) <> Ok true).
Proof.
  destruct (status_cases s) as (r & s' & -> & Hframe & Hr).
  split; assumption.
Qed.

(** [start] gives up where [status] did not answer True. *)
Lemma start_gives_up (log_level : option string) (s : App) :
  result (status E s) <> Ok true ->
  final (start E log_level s) = final (status E s).
Proof.
  intros H. unfold start, bind at 1.
  destruct (status E s) as [[[|] | e] s']; simpl in *;
    [congruence | reflexivity | reflexivity].
Qed.

End StatusFacts.

(** C10, as stated, fails: "at most one strategy run is active at a
    time" does not follow from the check in status(), because
    self.strategy is set only when the scheduled task runs.  The command
    start given twice before the event loop runs the first task passes
    status() both times and schedules start_market_making twice; once
    the loop has run both tasks, each has scheduled its own clock task,
    and both clock tasks are pending, neither asked to cancel. *)
Lemma two_starts_two_runs :
  result (status arbitrage_externals
            (final (start arbitrage_externals None (example_app [])))) =
    Ok true
  /\ tasks started_twice =
     [start_task arbitrage_externals; start_task arbitrage_externals]
  /\ map is_clock_run (tasks both_starts_run) = [false; false; true; true]
  /\ map task_state (tasks both_starts_run) =
     [FINISHED; FINISHED; PENDING; PENDING]
  /\ map cancel_requested (tasks both_starts_run) =
     [false; false; false; false]
  /\ strategy_task both_starts_run = Some 3.
Proof. repeat split; vm_compute; reflexivity. Qed.

(** C10 (amended): while self.strategy is not None, status() does not
    return True, and start() then returns without scheduling
    start_market_making: the tasks of the loop, the strategy and the
    other attributes of the run are as before. *)
Theorem second_start_is_refused (E : Externals) (s : App) :
  strategy s <> None ->
  result (status E s) <> Ok true
  /\ forall log_level : option string,
       tasks (final (start E log_level s)) = tasks s
       /\ strategy (final (start E log_level s)) = strategy s
       /\ same_run s (final (start E log_level s)).
Proof.
  intros Hrun.
  destruct (status_frame E s) as [Hframe Hstatus].
  specialize (Hstatus Hrun).
  split; [exact Hstatus |].
  intros log_level. rewrite (start_gives_up E log_level s Hstatus).
  split; [apply Hframe |]. split; [apply Hframe | exact Hframe].
Qed.

(* ================================================================== *)
(** ** Starting a strategy: results *)

Section StartFacts.

Variable E : Externals.

(** Compiling the rules reads and writes nothing. *)
Lemma compile_rules_pure (setting : list (string * Q)) (s : App) :
  exists r, compile_rules E setting s = (r, s).
Proof.
  induction setting as [| [re_str value] l IH]; simpl.
  - eexists. reflexivity.
  - destruct (re_compile E re_str); [| eexists; reflexivity].
    unfold bind. destruct IH as [[rules | e] ->]; eexists; reflexivity.
Qed.

Lemma compile_rules_ok (setting : list (string * Q)) (s : App) :
  Forall (fun rule => re_compile E (fst rule) <> None) setting ->
  exists rules, compile_rules E setting s = (Ok rules, s).
Proof.
  induction 1 as [| [re_str value] l Hc Hl IH]; simpl.
  - eexists. reflexivity.
  - simpl in Hc. destruct (re_compile E re_str); [| congruence].
    unfold bind. destruct IH as [rules ->]. eexists. reflexivity.
Qed.

(** The two splits under their [try]. *)
Lemma split_both_rejected (m1 s1 m2 s2 msg : string) (s : App) :
  split_error E m1 s1 m2 s2 = Some msg ->
  split_both E m1 s1 m2 s2 s =
  (Ok None, set_app_log (app_log s ++ [msg]) s).
Proof.
  unfold split_error, split_both, try_except, bind, split_symbol.
  destruct (symbol_split E m1 s1) as [e1 | a1].
  - intros [= <-]. reflexivity.
  - destruct (symbol_split E m2 s2) as [e2 | a2]; [| discriminate].
    intros [= <-]. reflexivity.
Qed.

Lemma split_both_accepted (m1 s1 m2 s2 : string) (s : App) :
  split_error E m1 s1 m2 s2 = None ->
  exists a1 a2, split_both E m1 s1 m2 s2 s = (Ok (Some (a1, a2)), s).
Proof.
  unfold split_error, split_both, try_except, bind, split_symbol.
  destruct (symbol_split E m1 s1) as [e1 | a1]; [discriminate |].
  destruct (symbol_split E m2 s2) as [e2 | a2]; [discriminate |].
  intros _. exists a1, a2. reflexivity.
Qed.

End StartFacts.

(** C7: in either variant, when splitting a configured symbol raises
    ValueError, start_market_making logs the message and returns; the
    state it leaves differs from the one it found by that log line only,
    so no wallet, market, market pair, strategy, clock or task was
    created. *)
Theorem invalid_symbol_creates_no_state
    (E : Externals) (strategy_name msg : string) (s : App) :
  symbols_rejected E strategy_name = Some msg ->
  rules_compile E strategy_name ->
  start_market_making E strategy_name s =
    (Ok tt, set_app_log (app_log s ++ [msg]) s)
  /\ supported strategy_name = true
  /\ same_run s (final (start_market_making E strategy_name s)).
Proof.
  intros Hrej Hcompile.
  assert (Hrun : start_market_making E strategy_name s =
                 (Ok tt, set_app_log (app_log s ++ [msg]) s)).
  { unfold start_market_making, symbols_rejected, rules_compile in *.
    destruct (String.eqb_spec strategy_name "cross_exchange_market_making")
      as [-> | Hx].
    - unfold bind at 1. unfold start_cross_exchange_market_making.
      unfold bind at 1.
      destruct (compile_rules_ok E s (Hcompile eq_refl)) as [rules ->].
      unfold bind at 1.
      rewrite (split_both_rejected E _ _ _ _ s Hrej). reflexivity.
    - destruct (strategy_name =? "arbitrage"); [| discriminate].
      unfold bind at 1. unfold start_arbitrage. unfold bind at 1.
      rewrite (split_both_rejected E _ _ _ _ s Hrej). reflexivity. }
  split; [exact Hrun |]. split.
  - unfold symbols_rejected, supported in *.
    destruct (strategy_name =? "cross_exchange_market_making");
      [reflexivity |].
    destruct (strategy_name =? "arbitrage"); [reflexivity | discriminate].
  - rewrite Hrun. unfold same_run. repeat split; reflexivity.
Qed.

(* ------------------------------------------------------------------ *)
(** *** The clock *)

Lemma add_market_iterators (ms : list (option MarketBase)) :
  forall (s : App) (c : Clock),
    clock s = Some c ->
    for_each ms (fun market => clock_add_iterator (IterMarket market)) s =
    (Ok tt,
     set_clock
       (Some {| clock_mode := clock_mode c;
                iterators := iterators c ++ map IterMarket ms |}) s).
Proof.
  induction ms as [| m r IH]; intros s c Hc; simpl.
  - unfold ret. destruct s, c. simpl in *. subst.
    unfold set_clock. simpl. rewrite app_nil_r. reflexivity.
  - unfold bind at 1. unfold clock_add_iterator at 1.
    unfold bind, get. rewrite Hc. unfold modify.
    rewrite (IH (set_clock (Some (add_iterator (IterMarket m) c)) s)
               (add_iterator (IterMarket m) c) eq_refl).
    unfold add_iterator, set_clock. simpl.
    rewrite <- app_assoc. reflexivity.
Qed.

(** Lines 552-560 as one step. *)
Lemma start_clock_steps (strategy_name : string) (s : App) :
  start_clock strategy_name s =
  (Ok tt,
   set_app_log (app_log s ++ [started_line strategy_name])
     (set_strategy_task (Some (List.length (tasks s)))
        (set_tasks
           (tasks s ++
            [new_task (CoClockRun (clock_of s))])
           (set_clock (Some (clock_of s)) s)))).
Proof.
  unfold start_clock, try_except.
  unfold bind at 1. unfold modify at 1.
  unfold bind at 1. unfold get at 1.
  unfold bind at 1. unfold clock_add_iterator at 1.
  unfold bind at 1. unfold get at 1.
  cbn [clock set_clock]. unfold modify at 1.
  unfold bind at 1.
  erewrite add_market_iterators by reflexivity.
  reflexivity.
Qed.

(* ------------------------------------------------------------------ *)
(** *** The two variants up to the clock *)

Section Variants.

Variable E : Externals.

Lemma initialize_wallet_cases (token_symbols : list string) (s : App) :
  (exists w, _initialize_wallet E token_symbols s =
             (Ok tt, set_wallet (Some w) s))
  \/ (exists e, _initialize_wallet E token_symbols s = (Raise e, s)).
Proof.
  unfold _initialize_wallet, bind, get.
  destruct (acct s) as [a |].
  - left. eexists. reflexivity.
  - right. eexists. reflexivity.
Qed.

Lemma initialize_two_markets (m1 s1 m2 s2 : string) (s : App) :
  exists ms,
    _initialize_markets E [(m1, s1); (m2, s2)] s = (Ok tt, set_markets ms s).
Proof. eexists. reflexivity. Qed.

Lemma markets_getitem_pure (name : string) (s : App) :
  exists r, markets_getitem name s = (r, s).
Proof.
  unfold markets_getitem, bind, get.
  destruct (dict_get name (markets s)); eexists; reflexivity.
Qed.

Ltac next_step :=
  unfold bind at 1;
  match goal with
  | |- context [compile_rules E ?l ?x] =>
      destruct (compile_rules_pure E l x) as [[? | ?] ->];
      [| discriminate]
  | |- context [_initialize_wallet E ?l ?x] =>
      destruct (initialize_wallet_cases l x) as [[? ->] | [? ->]];
      [| discriminate]
  | |- context [_initialize_markets E [(?a, ?b); (?c, ?d)] ?x] =>
      destruct (initialize_two_markets a b c d x) as [? ->]
  | |- context [markets_getitem ?n ?x] =>
      destruct (markets_getitem_pure n x) as [[? | ?] ->];
      [| discriminate]
  end.

Lemma cross_exchange_proceeds (s s' : App) (b : bool) :
  symbols_rejected E "cross_exchange_market_making" = None ->
  start_cross_exchange_market_making E s = (Ok b, s') ->
  b = true /\ prepared s s'.
Proof.
  unfold symbols_rejected. simpl. intros Hacc.
  unfold start_cross_exchange_market_making.
  next_step. unfold bind at 1.
  destruct (split_both_accepted E _ _ _ _ s Hacc) as (a1 & a2 & ->).
  do 4 next_step.
  unfold bind, modify, ret. intros [= <- <-].
  unfold prepared. simpl.
  repeat split; try reflexivity; eexists; reflexivity.
Qed.

Lemma arbitrage_proceeds (s s' : App) (b : bool) :
  symbols_rejected E "arbitrage" = None ->
  start_arbitrage E s = (Ok b, s') ->
  b = true /\ prepared s s'.
Proof.
  unfold symbols_rejected. simpl. intros Hacc.
  unfold start_arbitrage. unfold bind at 1.
  destruct (split_both_accepted E _ _ _ _ s Hacc) as (a1 & a2 & ->).
  do 4 next_step.
  unfold bind, modify, ret. intros [= <- <-].
  unfold prepared. simpl.
  repeat split; try reflexivity; eexists; reflexivity.
Qed.

(** The two markets just initialised are found in the mapping. *)
Lemma two_markets_present (m1 s1 m2 s2 : string) (s : App) :
  let s' := final (_initialize_markets E [(m1, s1); (m2, s2)] s) in
  (exists v, markets_getitem m1 s' = (Ok v, s'))
  /\ (exists v, markets_getitem m2 s' = (Ok v, s')).
Proof.
  simpl. unfold markets_getitem, bind, get. simpl. split.
  - match goal with
    | |- context [dict_get m1 (dict_set m2 ?v2 (dict_set m1 ?v1 ?d))] =>
        pose proof (@dict_get_set_present _ m1 m2 v2 (dict_set m1 v1 d)) as H;
        rewrite dict_get_set_same in H;
        destruct (dict_get m1 (dict_set m2 v2 (dict_set m1 v1 d)))
    end; [eexists; reflexivity | exfalso; apply H; [discriminate | reflexivity]].
  - rewrite dict_get_set_same. eexists. reflexivity.
Qed.

(** With a supported name, compiling rules, accepted symbols and an
    unlocked account, the start goes through; [through_markets] is the
    part from the wallet to the clock, the same in both variants. *)
Ltac through_markets Hw :=
  let v1 := fresh "v" in
  let v2 := fresh "v" in
  let Hv1 := fresh "Hv" in
  let Hv2 := fresh "Hv" in
  let ms := fresh "ms" in
  let Hms := fresh "Hms" in
  unfold bind at 1; rewrite Hw; unfold bind at 1;
  match goal with
  | |- context [_initialize_markets E [(?m1, ?x1); (?m2, ?x2)] ?x] =>
      destruct (two_markets_present m1 x1 m2 x2 x) as [[v1 Hv1] [v2 Hv2]];
      destruct (initialize_two_markets m1 x1 m2 x2 x) as [ms Hms];
      rewrite Hms in *
  end;
  simpl in Hv1, Hv2; unfold bind at 1; rewrite Hv1;
  unfold bind at 1; rewrite Hv2;
  unfold bind, modify, ret; rewrite start_clock_steps; reflexivity.

Lemma start_market_making_succeeds (strategy_name : string) (s : App) :
  supported strategy_name = true ->
  symbols_rejected E strategy_name = None ->
  rules_compile E strategy_name ->
  acct s <> None ->
  result (start_market_making E strategy_name s) = Ok tt.
Proof.
  unfold supported, symbols_rejected, rules_compile, start_market_making.
  intros Hsup Hacc Hcompile Hacct.
  destruct (acct s) as [a |] eqn:Ha; [| congruence].
  assert (Hw : forall l, _initialize_wallet E l s =
                         (Ok tt,
                          set_wallet
                            (Some {| private_key := privateKey a;
                                     backend_urls := [ethereum_rpc_url E];
                                     erc20_token_addresses :=
                                       get_erc20_token_addresses E l;
                                     chain := MAIN_NET |}) s)).
  { intros l. unfold _initialize_wallet, bind, get. rewrite Ha. reflexivity. }
  destruct (String.eqb_spec strategy_name "cross_exchange_market_making")
    as [-> | Hx].
  - unfold bind at 1. unfold start_cross_exchange_market_making.
    unfold bind at 1.
    destruct (compile_rules_ok E s (Hcompile eq_refl)) as [rules ->].
    unfold bind at 1.
    destruct (split_both_accepted E _ _ _ _ s Hacc) as (a1 & a2 & ->).
    through_markets Hw.
  - simpl in Hsup.
    destruct (String.eqb_spec strategy_name "arbitrage") as [-> | Har];
      [| discriminate].
    unfold bind at 1. unfold start_arbitrage. unfold bind at 1.
    destruct (split_both_accepted E _ _ _ _ s Hacc) as (a1 & a2 & ->).
    through_markets Hw.
Qed.

End Variants.

(** C9: when start_market_making gets past the symbol check and returns
    normally, the clock it built lists the wallet first, then every
    market of self.markets in the mapping's order, then the strategy, and
    the task running that clock is the strategy task. *)
Theorem strategy_registered_after_wallet_and_markets
    (E : Externals) (strategy_name : string) (s : App) :
  symbols_rejected E strategy_name = None ->
  result (start_market_making E strategy_name s) = Ok tt ->
  let s' := final (start_market_making E strategy_name s) in
  exists w st c,
    wallet s' = Some w
    /\ strategy s' = Some st
    /\ clock s' = Some c
    /\ iterators c =
       (IterWallet (Some w)
        :: map IterMarket (dict_values (markets s'))
        ++ [IterStrategy (Some st)])%list
    /\ strategy_task s' = Some (List.length (tasks s))
    /\ nth_error (tasks s') (List.length (tasks s)) =
       Some (new_task (CoClockRun c)).
Proof.
  intros Hacc. unfold start_market_making.
  assert (Hvariant :
    forall (variant : M bool),
      (forall s1 b, variant s = (Ok b, s1) -> b = true /\ prepared s s1) ->
      result ((proceed <- variant ;;
               if proceed then start_clock strategy_name else ret tt) s)
      = Ok tt ->
      let s' := final ((proceed <- variant ;;
                        if proceed then start_clock strategy_name
                        else ret tt) s) in
      exists w st c,
        wallet s' = Some w /\ strategy s' = Some st /\ clock s' = Some c
        /\ iterators c =
           (IterWallet (Some w)
            :: map IterMarket (dict_values (markets s'))
            ++ [IterStrategy (Some st)])%list
        /\ strategy_task s' = Some (List.length (tasks s))
        /\ nth_error (tasks s') (List.length (tasks s)) =
           Some (new_task (CoClockRun c))).
  { intros variant Hv. unfold bind.
    destruct (variant s) as [[b | e] s1] eqn:Hrun; [| discriminate].
    destruct (Hv s1 b eq_refl) as (-> & (w & Hw) & (st & Hst) & Ht).
    rewrite start_clock_steps. intros _. simpl.
    exists w, st, (clock_of s1).
    rewrite Hw, Hst, Ht. repeat split; try reflexivity.
    - unfold clock_of. simpl. rewrite Hw, Hst. reflexivity.
    - rewrite nth_error_app2, Nat.sub_diag; [reflexivity | lia]. }
  destruct (String.eqb_spec strategy_name "cross_exchange_market_making")
    as [-> | Hx].
  - apply Hvariant. intros s1 b. apply cross_exchange_proceeds, Hacc.
  - destruct (String.eqb_spec strategy_name "arbitrage") as [-> | Ha].
    + apply Hvariant. intros s1 b. apply arbitrage_proceeds, Hacc.
    + unfold bind, raise. discriminate.
Qed.


(* ------------------------------------------------------------------ *)
(** *** Unsupported strategies and the command handler *)

Lemma handle_command_returns (E : Externals) (raw_command : string)
    (s : App) :
  result (_handle_command E raw_command s) = Ok tt.
Proof.
  unfold _handle_command, try_except.
  match goal with
  | |- result (match ?body with _ => _ end) = _ =>
      destruct body as [[[] | e] s']
  end; [reflexivity |].
  destruct e; reflexivity.
Qed.

Lemma unsupported_raises (E : Externals) (strategy_name : string)
    (s : App) :
  supported strategy_name = false ->
  start_market_making E strategy_name s = (Raise NotImplementedError, s).
Proof.
  unfold supported, start_market_making. intros H.
  apply orb_false_iff in H. destruct H as [-> ->]. reflexivity.
Qed.

(** C8, as stated, fails: with the strategy set to pure_market_making the
    command start is handled, the task it scheduled ends with
    NotImplementedError, and the handler's line for NotImplementedError
    is in the console log neither before nor after the task ran; nothing
    was sent to the error logger either. *)
Lemma not_implemented_branch_not_taken :
  supported "pure_market_making" = false
  /\ tasks after_start_command =
     [new_task (CoStartMarketMaking "pure_market_making")]
  /\ tasks after_task_run =
     [{| coroutine := CoStartMarketMaking "pure_market_making";
         task_state := FINISHED; cancel_requested := false;
         exception := Some NotImplementedError |}]
  /\ ~ In not_yet_implemented (app_log after_start_command)
  /\ ~ In not_yet_implemented (app_log after_task_run)
  /\ log_records after_task_run =
     [("hummingbot.command_history", INFO, "start")].
Proof.
  split; [reflexivity |].
  split; [reflexivity |].
  split; [reflexivity |].
  split; [| split; [| reflexivity]].
  - vm_compute. intros [H | [H | [H | []]]]; discriminate H.
  - vm_compute. intros [H | [H | [H | []]]]; discriminate H.
Qed.

(** C8 (amended): for a strategy name other than the two supported ones,
    start_market_making raises NotImplementedError and leaves the state
    as it found it; the event loop, running a pending task of that
    coroutine that was not asked to cancel (as the one start() scheduled
    is), keeps the exception in the task and changes nothing else; the
    command handler returns normally on every command. *)
Theorem unsupported_strategy_fails_only_its_task
    (E : Externals) (strategy_name : string) (s : App) :
  supported strategy_name = false ->
  start_market_making E strategy_name s = (Raise NotImplementedError, s)
  /\ (forall id t,
        nth_error (tasks s) id = Some t ->
        coroutine t = CoStartMarketMaking strategy_name ->
        loop_run_task E id s =
        match task_state t with
        | PENDING =>
            if cancel_requested t then set_task_state id CANCELLED s
            else set_task_exception id NotImplementedError s
        | _ => s
        end)
  /\ (forall (raw_command : string) (s0 : App),
        result (_handle_command E raw_command s0) = Ok tt).
Proof.
  intros Hun. split; [apply unsupported_raises, Hun |]. split.
  - intros id t Ht Hco. unfold loop_run_task. rewrite Ht, Hco.
    destruct (task_state t); try reflexivity.
    destruct (cancel_requested t); [reflexivity |].
    cbn [run_coroutine].
    rewrite (unsupported_raises E strategy_name s Hun). reflexivity.
  - intros raw_command s0. apply handle_command_returns.
Qed.

Lemma unsupported_strategy_witness :
  start_market_making unsupported_externals "pure_market_making"
    after_start_command = (Raise NotImplementedError, after_start_command)
  /\ loop_run_task unsupported_externals 0 after_start_command =
     set_task_exception 0 NotImplementedError after_start_command.
Proof.
  destruct (@unsupported_strategy_fails_only_its_task
              unsupported_externals "pure_market_making"
              after_start_command eq_refl)
    as (Hraise & Htask & _).
  split; [exact Hraise |].
  apply (Htask 0 (new_task (CoStartMarketMaking "pure_market_making")));
    reflexivity.
Defined.

(* ------------------------------------------------------------------ *)
(** *** Instances *)

Lemma invalid_symbol_witness :
  (start_market_making bad_symbol_externals "cross_exchange_market_making"
     (example_app healthy_markets) =
   (Ok tt,
    set_app_log ([] ++ ["Unable to split symbol BTCUSD"])
      (example_app healthy_markets)))
  /\ (start_market_making bad_symbol_externals "arbitrage"
        (example_app healthy_markets) =
      (Ok tt,
       set_app_log ([] ++ ["Unable to split symbol BTCUSD"])
         (example_app healthy_markets))).
Proof.
  split.
  - apply (@invalid_symbol_creates_no_state bad_symbol_externals
             "cross_exchange_market_making" "Unable to split symbol BTCUSD"
             (example_app healthy_markets)).
    + reflexivity.
    + intros _. simpl. repeat constructor; simpl; discriminate.
  - apply (@invalid_symbol_creates_no_state bad_symbol_externals
             "arbitrage" "Unable to split symbol BTCUSD"
             (example_app healthy_markets)).
    + reflexivity.
    + intros H. discriminate H.
Defined.

Lemma strategy_registered_witness :
  exists w st c,
    wallet running_app = Some w
    /\ strategy running_app = Some st
    /\ clock running_app = Some c
    /\ iterators c =
       (IterWallet (Some w)
        :: map IterMarket (dict_values (markets running_app))
        ++ [IterStrategy (Some st)])%list
    /\ strategy_task running_app = Some 0
    /\ nth_error (tasks running_app) 0 =
       Some (new_task (CoClockRun c)).
Proof.
  apply (@strategy_registered_after_wallet_and_markets arbitrage_externals
           "arbitrage" (example_app healthy_markets)); reflexivity.
Defined.

Lemma second_start_witness :
  result (status arbitrage_externals running_app) <> Ok true
  /\ tasks (final (start arbitrage_externals None running_app)) =
     tasks running_app.
Proof.
  destruct (@second_start_is_refused arbitrage_externals running_app)
    as [Hstatus Hstart].
  - vm_compute. discriminate.
  - split; [exact Hstatus | apply Hstart].
Defined.

(** The tolerance that reaches the market pair: with the maker symbol
    btc-usd both patterns of the example settings match BTC-USD, and the
    pair is built with the 0.0 of the second. *)
Example tolerance_in_market_pair :
  match market_pair
          (final (start_market_making
                    (example_externals false "cross_exchange_market_making"
                       "btc-usd")
                    "cross_exchange_market_making" (example_app [])))
  with
  | Some (CrossExchangeMarketPair _ symbol _ _ _ _ _ _ tolerance) =>
      symbol = "BTC-USD" /\ tolerance = 0%Q
  | _ => False
  end.
Proof. vm_compute. split; reflexivity. Qed.

(* ================================================================== *)
(** * Results on the rest of the file *)

(** ** The resolved tolerance *)

Lemma resolve_value_in (rules : list (Re.Pattern * Q)) (symbol : string) :
  resolve_top_depth_tolerance rules symbol = 0%Q
  \/ In (resolve_top_depth_tolerance rules symbol) (map snd rules).
Proof.
  destruct (resolve_last_match rules symbol)
    as [[_ H] | (b & r & v & a & Hrules & _ & _ & H)].
  - left. exact H.
  - right. rewrite H, Hrules, map_app. apply in_or_app. right. left.
    reflexivity.
Qed.

(** X1: the resolved tolerance is never negative when no configured rule
    carries a negative value: it is 0.0 or the value of one of the
    rules. *)
Theorem tolerance_nonnegative (rules : list (Re.Pattern * Q))
    (symbol : string) :
  Forall (fun rule => (0 <= snd rule)%Q) rules ->
  (0 <= resolve_top_depth_tolerance rules symbol)%Q
  /\ (resolve_top_depth_tolerance rules symbol = 0%Q
      \/ In (resolve_top_depth_tolerance rules symbol) (map snd rules)).
Proof.
  intros Hpos. split; [| apply resolve_value_in].
  destruct (resolve_value_in rules symbol) as [-> | Hin].
  - apply Qle_refl.
  - apply in_map_iff in Hin. destruct Hin as (rule & <- & Hin).
    rewrite Forall_forall in Hpos. apply Hpos, Hin.
Qed.

Lemma tolerance_nonnegative_witness :
  (0 <= resolve_top_depth_tolerance example_rules "BTCUSD")%Q.
Proof.
  apply (@tolerance_nonnegative example_rules "BTCUSD").
  repeat constructor; simpl; discriminate.
Defined.

(** ** Status *)

Lemma note_loading_scan (ms : Markets) :
  forall (acc : list string) (s : App),
    for_fold ms note_loading acc s = (loading_scan ms acc, s).
Proof.
  induction ms as [| [market_name [m |]] r IH]; intros acc s; simpl.
  - reflexivity.
  - unfold bind. simpl. unfold ret. apply IH.
  - reflexivity.
Qed.

Lemma loading_scan_present (ms : Markets) :
  forall acc : list string,
    every_market_present ms ->
    loading_scan ms acc = Ok (acc ++ not_ready_names ms)%list.
Proof.
  unfold every_market_present, not_ready_names.
  induction ms as [| [market_name [m |]] r IH]; intros acc H; simpl.
  - rewrite app_nil_r. reflexivity.
  - inversion H; subst. rewrite IH by assumption.
    destruct (ready m); simpl; [reflexivity |].
    rewrite <- app_assoc. reflexivity.
  - inversion H; subst. simpl in *. congruence.
Qed.

Lemma loading_scan_absent (ms : Markets) :
  forall acc : list string,
    ~ every_market_present ms ->
    loading_scan ms acc = Raise (none_has_no "ready").
Proof.
  unfold every_market_present.
  induction ms as [| [market_name [m |]] r IH]; intros acc H; simpl.
  - exfalso. apply H. constructor.
  - apply IH. intros Hr. apply H. constructor; [discriminate | exact Hr].
  - reflexivity.
Qed.

Lemma every_market_present_dec (ms : Markets) :
  every_market_present ms \/ ~ every_market_present ms.
Proof.
  unfold every_market_present.
  induction ms as [| [market_name [m |]] r IH].
  - left. constructor.
  - destruct IH as [H | H].
    + left. constructor; [discriminate | exact H].
    + right. intros Hall. inversion Hall; subst. contradiction.
  - right. intros Hall. inversion Hall; subst. simpl in *. congruence.
Qed.

(** Two states with the same fields are the same. *)
Lemma app_ext (s s' : App) :
  acct s = acct s' -> markets s = markets s' -> wallet s = wallet s' ->
  strategy_task s = strategy_task s' -> strategy s = strategy s' ->
  market_pair s = market_pair s' -> clock s = clock s' ->
  placeholder_mode s = placeholder_mode s' ->
  reporting_module s = reporting_module s' -> app_log s = app_log s' ->
  app_exited s = app_exited s' -> log_records s = log_records s' ->
  cancel_calls s = cancel_calls s' -> tasks s = tasks s' ->
  slept s = slept s' -> log_level_override s = log_level_override s' ->
  exchange_rate_conversion_started s = exchange_rate_conversion_started s' ->
  s = s'.
Proof. destruct s, s'. simpl. intros. subst. reflexivity. Qed.

Ltac same_state :=
  try (unfold bind at 1; rewrite log_with_effects);
  unfold ret;
  try apply f_equal; apply app_ext; try reflexivity;
  cbn [app_log cancel_calls log_records with_effects set_cancel_calls
       set_app_log set_log_records];
  rewrite ?app_nil_r, <- ?app_assoc; reflexivity.

(** [status] step by step. *)
Lemma status_steps (E : Externals) (s : App) :
  status E s = (status_result E s, after_status E s).
Proof.
  unfold status, after_status, status_result, status_lines, infura_warning.
  destruct (config_complete E); cbn [andb negb]; [| same_state].
  unfold bind at 1. rewrite log_with_effects.
  unfold bind at 1. unfold check_web3. fold (web3_ok E).
  unfold bind at 1. unfold when.
  destruct (web3_ok E); cbn [andb negb].
  - unfold ret. unfold bind at 1. rewrite log_with_effects.
    unfold bind at 1. unfold get at 1. unfold bind at 1.
    rewrite note_loading_scan.
    change (markets (with_effects [" - Ethereum node running and current"] []
                       (with_effects [" - Config complete"] [] s)))
      with (markets s).
    destruct (loading_scan (markets s) []) as [loading | e];
      [| same_state].
    unfold bind at 1. unfold get at 1.
    change (strategy (with_effects [" - Ethereum node running and current"] []
                        (with_effects [" - Config complete"] [] s)))
      with (strategy s).
    destruct (strategy s) as [st |]; [| same_state].
    destruct (0 <? List.length loading)%nat.
    + unfold bind at 1.
      rewrite (for_each_log waiting_line). same_state.
    + unfold bind at 1. rewrite log_with_effects.
      unfold bind at 1. rewrite log_with_effects.
      same_state.
  - destruct (String.prefix "http://mainnet.infura.io" (ethereum_rpc_url E));
      unfold logger, modify, ret; unfold bind; rewrite log_with_effects;
      same_state.
Qed.

Lemma status_true_conditions (E : Externals) (s : App) :
  result (status E s) = Ok true <->
  config_complete E = true
  /\ web3_isConnected E (ethereum_rpc_url E) = Some true
  /\ strategy s = None
  /\ every_market_present (markets s).
Proof.
  rewrite status_steps. unfold result, fst, status_result, web3_ok.
  destruct (config_complete E); simpl;
    [| split; [discriminate | intros [H _]; discriminate H]].
  destruct (web3_isConnected E (ethereum_rpc_url E)) as [[|] |]; simpl;
    try (split; [discriminate | intros (_ & H & _); discriminate H]).
  destruct (every_market_present_dec (markets s)) as [Hp | Hp].
  - rewrite (loading_scan_present [] Hp).
    destruct (strategy s) as [st |].
    + split; [discriminate | intros (_ & _ & H & _); discriminate H].
    + split; auto.
  - rewrite (loading_scan_absent [] Hp).
    split; [discriminate | intros (_ & _ & _ & H); contradiction].
Qed.

(** X2: status() answers True exactly when the configuration is
    complete, the Ethereum node answers that it is connected, no strategy
    is set and no entry of self.markets is None; whether the markets are
    ready plays no part in it. *)
Theorem status_true_iff (E : Externals) (s : App) :
  result (status E s) = Ok true <->
  config_complete E = true
  /\ web3_isConnected E (ethereum_rpc_url E) = Some true
  /\ strategy s = None
  /\ every_market_present (markets s).
Proof. apply status_true_conditions. Qed.

(** X3: with a strategy set, status() answers False and prints, after
    its two check lines, one waiting line for every market that is not
    ready, in the order of the mapping; only when all are ready does it
    print the strategy's own status. *)
Theorem status_reports_loading_markets
    (E : Externals) (s : App) (st : Strategy) :
  config_complete E = true ->
  web3_isConnected E (ethereum_rpc_url E) = Some true ->
  strategy s = Some st ->
  every_market_present (markets s) ->
  result (status E s) = Ok false
  /\ app_log (final (status E s)) =
     (app_log s
      ++ " - Config complete"
      :: " - Ethereum node running and current"
      :: match not_ready_names (markets s) with
         | [] =>
             [" - All markets ready";
              (PyStr.nl ++ format_status E st)%string]
         | loading => map waiting_line loading
         end)%list.
Proof.
  intros Hc Hw Hst Hp. rewrite status_steps.
  unfold result, final, fst, snd, status_result, after_status, status_lines,
    web3_ok.
  rewrite Hc, Hw, Hst, (loading_scan_present [] Hp). simpl.
  split; [reflexivity |].
  destruct (not_ready_names (markets s)); reflexivity.
Qed.

Lemma status_reports_loading_witness :
  result (status arbitrage_externals
            (set_markets
               [("ddex", Some {| ready := false;
                                 cancel_all := fun _ => [] |});
                ("binance", Some (market_returning []))]
               running_app)) = Ok false.
Proof.
  eapply proj1.
  eapply (@status_reports_loading_markets arbitrage_externals
            (set_markets
               [("ddex", Some {| ready := false; cancel_all := fun _ => [] |});
                ("binance", Some (market_returning []))]
               running_app)).
  - vm_compute. reflexivity.
  - vm_compute. reflexivity.
  - vm_compute. reflexivity.
  - repeat constructor; simpl; discriminate.
Defined.

(** ** Start *)

(** Reading the fields of a state built by the functions above. *)
Ltac fields :=
  cbn [acct markets wallet strategy_task strategy market_pair clock
       placeholder_mode reporting_module app_log app_exited log_records
       cancel_calls tasks slept log_level_override
       exchange_rate_conversion_started
       set_markets set_wallet set_strategy_task set_strategy set_market_pair
       set_clock set_reporting_module set_app_log set_app_exited
       set_log_records set_cancel_calls set_tasks set_slept
       set_log_level_override set_exchange_rate_conversion_started set_acct
       with_effects after_status start_accepted wound_down after_cancel
       clock_started logged fst snd result final].

Lemma init_reporting_module_steps (E : Externals) (s : App) :
  init_reporting_module E s =
  (Ok tt,
   set_reporting_module
     (Some (started
              match reporting_module s with
              | Some r => r
              | None =>
                  {| report_aggregation_interval :=
                       reporting_aggregation_interval E;
                     log_report_interval := reporting_log_interval E;
                     running := false |}
              end)) s).
Proof.
  unfold init_reporting_module, bind, get, when, modify, ret.
  destruct (reporting_module s) as [r |] eqn:Hr; simpl.
  - rewrite Hr. reflexivity.
  - reflexivity.
Qed.

Lemma start_steps (E : Externals) (log_level : option string) (s : App) :
  start E log_level s =
  match status_result E s with
  | Ok true => (Ok tt, start_accepted E log_level (after_status E s))
  | Ok false => (Ok tt, after_status E s)
  | Raise e => (Raise e, after_status E s)
  end.
Proof.
  unfold start. unfold bind at 1. rewrite status_steps.
  destruct (status_result E s) as [[|] | e]; [| reflexivity..].
  change (negb true) with false. cbv iota.
  unfold bind at 1.
  assert (Hlevel :
    forall x,
      match log_level with
      | Some l => modify (set_log_level_override (Some (PyStr.upper l)))
      | None => ret tt
      end x =
      (Ok tt,
       set_log_level_override
         match log_level with
         | Some l => Some (PyStr.upper l)
         | None => log_level_override x
         end x)).
  { intros x. destruct log_level; [reflexivity |].
    unfold ret. destruct x. reflexivity. }
  rewrite Hlevel. unfold bind at 1. unfold modify at 1.
  unfold bind at 1. rewrite init_reporting_module_steps.
  unfold bind, log, modify, ensure_future, ret.
  apply f_equal. apply app_ext; fields; reflexivity.
Qed.

(** X4: when status() answers True, start() hands exactly one task to
    the event loop, for the strategy named in the settings; it starts the
    exchange-rate service and the reporting module, applies the log level
    in upper case when one is given, and sets no strategy itself. *)
Theorem start_schedules_one_task
    (E : Externals) (log_level : option string) (s : App) :
  result (status E s) = Ok true ->
  let s' := final (start E log_level s) in
  result (start E log_level s) = Ok tt
  /\ tasks s' = (tasks s ++ [start_task E])%list
  /\ strategy s' = None
  /\ exchange_rate_conversion_started s' = true
  /\ (exists r, reporting_module s' = Some r /\ running r = true)
  /\ log_level_override s' =
     match log_level with
     | Some l => Some (PyStr.upper l)
     | None => log_level_override s
     end
  /\ app_log s' =
     (app_log s
      ++ [" - Config complete"; " - Ethereum node running and current";
          ("Status check complete. Starting '" ++ strategy_setting E
           ++ "' strategy...")%string])%list.
Proof.
  intros Htrue.
  pose proof Htrue as Hiff. apply status_true_conditions in Hiff.
  destruct Hiff as (Hc & Hw & Hst & Hp).
  assert (Hlines : status_lines E s =
                   [" - Config complete";
                    " - Ethereum node running and current"]).
  { unfold status_lines, web3_ok.
    rewrite Hc, Hw, Hst, (loading_scan_present [] Hp). reflexivity. }
  rewrite status_steps in Htrue. unfold result, fst in Htrue.
  cbv zeta. rewrite start_steps, Htrue. fields.
  rewrite Hlines, Hst, <- app_assoc.
  repeat split; try reflexivity.
  eexists. split; reflexivity.
Qed.

Lemma start_schedules_witness :
  tasks (final (start arbitrage_externals (Some "debug") (example_app []))) =
  [start_task arbitrage_externals].
Proof.
  apply (@start_schedules_one_task arbitrage_externals (Some "debug")
           (example_app [])).
  reflexivity.
Defined.

(** X5: any failed check makes start() a no-op apart from what status()
    printed: with an incomplete configuration, or a node that does not
    answer (the connection test raising counts as no answer), no task is
    scheduled and neither the exchange-rate service nor the reporting
    module is started. *)
Theorem start_refused_on_failed_checks
    (E : Externals) (log_level : option string) (s : App) :
  config_complete E = false
  \/ web3_isConnected E (ethereum_rpc_url E) <> Some true ->
  start E log_level s = (Ok tt, after_status E s)
  /\ tasks (final (start E log_level s)) = tasks s
  /\ exchange_rate_conversion_started (final (start E log_level s)) =
     exchange_rate_conversion_started s
  /\ reporting_module (final (start E log_level s)) = reporting_module s.
Proof.
  intros Hbad.
  assert (Hres : status_result E s = Ok false).
  { unfold status_result, web3_ok. destruct Hbad as [-> | Hw];
      [reflexivity |].
    destruct (config_complete E); [| reflexivity].
    destruct (web3_isConnected E (ethereum_rpc_url E)) as [[|] |];
      [congruence | reflexivity | reflexivity]. }
  assert (Hrun : start E log_level s = (Ok tt, after_status E s)).
  { unfold start, bind at 1. rewrite status_steps, Hres. reflexivity. }
  rewrite Hrun. repeat split; reflexivity.
Qed.

Lemma start_refused_witness :
  tasks
    (final (start (with_node None arbitrage_externals) None
              (example_app []))) = [].
Proof.
  apply (@start_refused_on_failed_checks (with_node None arbitrage_externals)
           None (example_app [])).
  right. discriminate.
Defined.

(** ** Winding down, step by step *)


Lemma update_nth_same (X : Type) (f : X -> X) (l : list X) :
  forall n, nth_error (update_nth n f l) n = option_map f (nth_error l n).
Proof.
  induction l as [| x r IH]; intros [| n]; simpl; auto.
Qed.

Lemma update_nth_other (X : Type) (f : X -> X) (l : list X) :
  forall n m, n <> m -> nth_error (update_nth n f l) m = nth_error l m.
Proof.
  induction l as [| x r IH]; intros [| n] [| m] H; simpl; auto;
    congruence.
Qed.

Lemma update_nth_ext (X : Type) (f g : X -> X) (l : list X) :
  (forall x, f x = g x) ->
  forall n, update_nth n f l = update_nth n g l.
Proof.
  intros Hfg. induction l as [| x r IH]; intros [| n]; simpl;
    [reflexivity | reflexivity | rewrite Hfg; reflexivity
    | rewrite IH; reflexivity].
Qed.

Lemma update_nth_fixed (X : Type) (f : X -> X) (l : list X) :
  forall n,
    (forall x, nth_error l n = Some x -> f x = x) ->
    update_nth n f l = l.
Proof.
  induction l as [| x r IH]; intros [| n] H; simpl;
    [reflexivity | reflexivity | |].
  - rewrite (H x eq_refl). reflexivity.
  - rewrite IH; [reflexivity | exact H].
Qed.

Lemma asked_to_cancel_done (t : Task) :
  task_state t <> PENDING -> asked_to_cancel t = t.
Proof.
  destruct t as [co st rq ex]. unfold asked_to_cancel. simpl.
  destruct st; [congruence | reflexivity | reflexivity].
Qed.

Lemma set_tasks_same (s : App) : set_tasks (tasks s) s = s.
Proof. destruct s. reflexivity. Qed.

Lemma cancel_strategy_task_steps (s : App) :
  cancel_strategy_task s = (Ok tt, set_tasks (tasks_after_cancel s) s).
Proof.
  unfold cancel_strategy_task, tasks_after_cancel, bind, get.
  destruct (strategy_task s) as [id |];
    [| unfold ret; rewrite set_tasks_same; reflexivity].
  unfold when, task_cancelled.
  destruct (nth_error (tasks s) id) as [t |] eqn:Ht.
  - destruct (task_state t) eqn:Hst; cbn [negb].
    + unfold task_cancel, modify. do 2 f_equal.
      apply update_nth_ext. intros [co st rq ex]. unfold asked_to_cancel.
      simpl. destruct st; reflexivity.
    + unfold task_cancel, modify. do 2 f_equal.
      apply update_nth_ext. intros [co st rq ex]. unfold asked_to_cancel.
      simpl. destruct st; reflexivity.
    + unfold ret. rewrite update_nth_fixed, set_tasks_same; [reflexivity |].
      intros x Hx. apply asked_to_cancel_done. congruence.
  - cbn [negb]. unfold task_cancel, modify. do 2 f_equal.
    apply update_nth_ext. intros [co st rq ex]. unfold asked_to_cancel.
    simpl. destruct st; reflexivity.
Qed.


(** Calling [cancel()] changes what [cancelled()] answers for no task. *)
Lemma tasks_after_cancel_cancelled (s s' : App) :
  tasks s' = tasks_after_cancel s ->
  forall i, task_cancelled i s' = task_cancelled i s.
Proof.
  intros Htasks i. unfold task_cancelled. rewrite Htasks.
  unfold tasks_after_cancel.
  destruct (strategy_task s) as [id |]; [| reflexivity].
  destruct (Nat.eq_dec id i) as [-> | Hne].
  - rewrite update_nth_same.
    destruct (nth_error (tasks s) i) as [t |]; reflexivity.
  - rewrite (update_nth_other _ _ Hne). reflexivity.
Qed.

Lemma cancel_steps (E : Externals) (s : App) :
  _cancel_outstanding_orders E s =
  (trace_outcome (cancel_trace E (markets s) true), after_cancel E s).
Proof. apply cancel_outstanding_orders_trace. Qed.

(** The tail of [stop]. *)
Lemma wind_down_steps (s : App) :
  (s0 <- get ;;
   match reporting_module s0 with
   | Some r =>
       modify (set_reporting_module
         (Some {| report_aggregation_interval :=
                    report_aggregation_interval r;
                  log_report_interval := log_report_interval r;
                  running := false |}))
   | None => ret tt
   end ;;
   cancel_strategy_task ;;
   modify (set_wallet None) ;;
   modify (set_strategy_task None) ;;
   modify (set_strategy None) ;;
   modify (set_market_pair None) ;;
   modify (set_clock None)) s = (Ok tt, wound_down s).
Proof.
  unfold wound_down. unfold bind at 1. unfold get at 1.
  destruct (reporting_module s) as [r |] eqn:Hr.
  - unfold bind at 1. unfold modify at 1.
    unfold bind at 1. rewrite cancel_strategy_task_steps.
    unfold bind, modify. reflexivity.
  - unfold bind at 1. unfold ret at 1.
    unfold bind at 1. rewrite cancel_strategy_task_steps.
    unfold bind, modify. simpl. unfold set_clock. simpl. rewrite Hr.
    reflexivity.
Qed.

Lemma stop_steps (E : Externals) (skip_order_cancellation : bool)
    (s : App) :
  let s0 := set_app_log (app_log s ++ [winding_down]) s in
  stop E skip_order_cancellation s =
  if skip_order_cancellation then (Ok tt, wound_down s0)
  else
    match trace_outcome (cancel_trace E (markets s) true) with
    | Ok true => (Ok tt, wound_down (set_markets [] (after_cancel E s0)))
    | Ok false => (Ok tt, wound_down (after_cancel E s0))
    | Raise e => (Raise e, after_cancel E s0)
    end.
Proof.
  intros s0. unfold stop. unfold bind at 1. unfold log at 1, modify at 1.
  fold winding_down. fold s0.
  destruct skip_order_cancellation.
  - unfold bind at 1. unfold when at 1. change (negb true) with false.
    cbv beta iota. unfold ret at 1. apply wind_down_steps.
  - unfold bind at 1. unfold when at 1. change (negb false) with true.
    cbv beta iota. unfold bind at 1. rewrite cancel_steps.
    change (markets s0) with (markets s).
    destruct (trace_outcome (cancel_trace E (markets s) true)) as [[|] |].
    + unfold when, modify. apply wind_down_steps.
    + unfold when, ret. apply wind_down_steps.
    + reflexivity.
Qed.

Lemma exit_steps (E : Externals) (force : bool) (s : App) :
  let s0 := set_tasks (tasks_after_cancel s) s in
  exit E force s =
  if force then (Ok tt, set_app_exited true s0)
  else
    match trace_outcome (cancel_trace E (markets s) true) with
    | Ok true =>
        (Ok tt,
         set_app_exited true
           (set_slept (slept s ++ [1%Q]) (after_cancel E s0)))
    | Ok false =>
        (Ok tt,
         set_app_log (app_log (after_cancel E s0) ++ [wind_down_terminated])
           (after_cancel E s0))
    | Raise e => (Raise e, after_cancel E s0)
    end.
Proof.
  intros s0. unfold exit. unfold bind at 1.
  rewrite cancel_strategy_task_steps. fold s0.
  destruct force;
    [change (negb true) with false | change (negb false) with true];
    cbv beta iota; [reflexivity |].
  unfold bind at 1. rewrite cancel_steps.
  change (markets s0) with (markets s).
  destruct (trace_outcome (cancel_trace E (markets s) true)) as [[|] |];
    reflexivity.
Qed.

(** ** Cancelling: what else the loop does *)

Lemma trace_calls_timeout (E : Externals) (ms : Markets) :
  forall b, Forall (fun c => snd c = KILL_TIMEOUT)
                   (trace_calls (cancel_trace E ms b)).
Proof.
  induction ms as [| [market_name [m |]] r IH]; intros b; simpl.
  - constructor.
  - destruct (skips E market_name); [apply IH |].
    destruct (0 <? List.length (uncancelled_of m))%nat.
    + specialize (IH false).
      destruct (cancel_trace E r false) as [[res ls] cs].
      constructor; [reflexivity | exact IH].
    + specialize (IH b).
      destruct (cancel_trace E r b) as [[res ls] cs].
      constructor; [reflexivity | exact IH].
  - destruct (skips E market_name); [apply IH | constructor].
Qed.

Lemma trace_lines_failures (E : Externals) (ms : Markets) :
  forall b, Forall (fun line => exists name ids,
                                  line = failure_report name ids)
                   (trace_lines (cancel_trace E ms b)).
Proof.
  induction ms as [| [market_name [m |]] r IH]; intros b; simpl.
  - constructor.
  - destruct (skips E market_name); [apply IH |].
    destruct (0 <? List.length (uncancelled_of m))%nat.
    + specialize (IH false).
      destruct (cancel_trace E r false) as [[res ls] cs].
      constructor; [eexists _, _; reflexivity | exact IH].
    + specialize (IH b).
      destruct (cancel_trace E r b) as [[res ls] cs]. exact IH.
  - destruct (skips E market_name); [apply IH | constructor].
Qed.

Lemma failure_line_is_not_closing (name : string) (ids : list string) :
  failure_report name ids <> all_cancelled_line.
Proof. unfold failure_report, all_cancelled_line. simpl. discriminate. Qed.

(** X6: whatever its outcome, _cancel_outstanding_orders changes nothing
    of the application but the console log and the cancel requests sent:
    it prints its opening line first, every request carries KILL_TIMEOUT,
    and the closing line appears exactly when it returns True. *)
Theorem cancel_touches_only_log_and_calls (E : Externals) (s : App) :
  exists (ls : list string) (cs : list (string * Q)),
    final (_cancel_outstanding_orders E s) =
      with_effects ("Cancelling outstanding orders..." :: ls) cs s
    /\ Forall (fun c => snd c = KILL_TIMEOUT) cs
    /\ (In all_cancelled_line ls <->
        result (_cancel_outstanding_orders E s) = Ok true).
Proof.
  rewrite cancel_steps. unfold final, result, snd, fst, after_cancel.
  eexists _, _. split; [reflexivity |].
  split; [apply trace_calls_timeout |].
  pose proof (trace_lines_failures E (markets s) true) as Hlines.
  rewrite Forall_forall in Hlines.
  rewrite in_app_iff. split.
  - intros [Hin | Hin].
    + destruct (Hlines _ Hin) as (name & ids & Heq).
      symmetry in Heq. apply failure_line_is_not_closing in Heq.
      contradiction.
    + destruct (trace_outcome (cancel_trace E (markets s) true))
        as [[|] |]; simpl in Hin; [reflexivity | contradiction..].
  - intros ->. right. left. reflexivity.
Qed.

Lemma cancel_trace_app (E : Externals) (before rest : Markets) :
  forall b,
    all_present E before ->
    cancel_trace E (before ++ rest)%list b =
    (trace_outcome
       (cancel_trace E rest
          (b && forallb market_ok (non_skipped E before))),
     flat_map failure_lines (non_skipped E before)
     ++ trace_lines
          (cancel_trace E rest
             (b && forallb market_ok (non_skipped E before))),
     map request_of (non_skipped E before)
     ++ trace_calls
          (cancel_trace E rest
             (b && forallb market_ok (non_skipped E before))))%list.
Proof.
  unfold all_present.
  induction before as [| [market_name market] r IH]; intros b Hp.
  - simpl. rewrite andb_true_r.
    destruct (cancel_trace E rest b) as [[res ls] cs]. reflexivity.
  - simpl in *. destruct (skips E market_name); simpl in *.
    + apply IH, Hp.
    + inversion Hp as [| x l Hx Hr]; subst. simpl in Hx.
      destruct market as [m |]; [| congruence].
      rewrite uncancelled_none_iff.
      unfold market_ok at 1 3 5, failure_lines at 1, request_of at 1. simpl.
      destruct (all_cancelled m); simpl.
      * rewrite (IH b Hr). reflexivity.
      * rewrite (IH false Hr). simpl. rewrite !andb_false_r. reflexivity.
Qed.

(** X7: the loop stops at the first market it visits that is None: it
    raises AttributeError, the markets before it have each received their
    cancel_all, those after it receive none, and the closing line is not
    printed. *)
Theorem cancellation_stops_at_missing_market
    (E : Externals) (s : App) (before after : Markets) (name : string) :
  markets s = (before ++ (name, None) :: after)%list ->
  skips E name = false ->
  all_present E before ->
  result (_cancel_outstanding_orders E s) =
    Raise (none_has_no "cancel_all")
  /\ cancel_calls (final (_cancel_outstanding_orders E s)) =
     (cancel_calls s ++ map request_of (non_skipped E before))%list
  /\ app_log (final (_cancel_outstanding_orders E s)) =
     (app_log s
      ++ "Cancelling outstanding orders..."
      :: flat_map failure_lines (non_skipped E before))%list.
Proof.
  intros Hms Hskip Hp. rewrite cancel_steps.
  unfold result, final, fst, snd, after_cancel.
  rewrite Hms, (@cancel_trace_app E before ((name, None) :: after) true Hp).
  simpl. rewrite Hskip.
  unfold trace_outcome, trace_lines, trace_calls. simpl.
  rewrite !app_nil_r. repeat split; reflexivity.
Qed.

Lemma cancellation_stops_witness :
  map fst
    (cancel_calls
       (final (_cancel_outstanding_orders arbitrage_externals
                 (example_app
                    (healthy_markets
                     ++ ("kraken", None)
                     :: [("ddex", Some (market_returning []))])%list)))) =
  ["binance"].
Proof.
  destruct (@cancellation_stops_at_missing_market arbitrage_externals
              (example_app
                 (healthy_markets
                  ++ ("kraken", None)
                  :: [("ddex", Some (market_returning []))])%list)
              healthy_markets [("ddex", Some (market_returning []))]
              "kraken")
    as (_ & Hcalls & _).
  - reflexivity.
  - reflexivity.
  - unfold all_present. simpl. repeat constructor; simpl; discriminate.
  - rewrite Hcalls. reflexivity.
Defined.

(** ** Stop and exit: what else they do *)

Lemma cancel_raises_on_missing_market (E : Externals) (s : App)
    (name : string) :
  In (name, None) (markets s) ->
  skips E name = false ->
  exists e, trace_outcome (cancel_trace E (markets s) true) = Raise e.
Proof.
  intros Hin Hskip.
  destruct (trace_outcome (cancel_trace E (markets s) true)) as [b |e] eqn:H;
    [| eexists; reflexivity].
  apply cancel_trace_ok_present in H. unfold all_present in H.
  rewrite Forall_forall in H. exfalso.
  apply (H (name, None)); [| reflexivity].
  unfold non_skipped. apply filter_In. simpl. rewrite Hskip. auto.
Qed.

(** X8: a stop() that returns has wound the run down: wallet, strategy
    task, strategy, market pair and clock are None, the reporting module
    (kept) is stopped, and the unlocked account stays.  Of the tasks of
    the loop only the strategy task is touched: if it was still pending
    it has been asked to cancel, if it had ended it is as it was; for no
    task has the answer of cancelled() changed yet. *)
Theorem stop_clears_run (E : Externals) (skip_order_cancellation : bool)
    (s : App) :
  result (stop E skip_order_cancellation s) = Ok tt ->
  let s' := final (stop E skip_order_cancellation s) in
  wallet s' = None
  /\ strategy_task s' = None
  /\ strategy s' = None
  /\ market_pair s' = None
  /\ clock s' = None
  /\ reporting_module s' = option_map stopped (reporting_module s)
  /\ tasks s' = tasks_after_cancel s
  /\ (forall i, task_cancelled i s' = task_cancelled i s)
  /\ acct s' = acct s
  /\ app_exited s' = app_exited s.
Proof.
  intros Hok s'.
  assert (Htasks : tasks s' = tasks_after_cancel s).
  { unfold s'. revert Hok. rewrite stop_steps. cbv zeta.
    destruct skip_order_cancellation; [reflexivity |].
    destruct (trace_outcome (cancel_trace E (markets s) true)) as [[|] |];
      [reflexivity | reflexivity | discriminate]. }
  pose proof (tasks_after_cancel_cancelled s s' Htasks) as Hcancelled.
  unfold s' in *. revert Hok Htasks Hcancelled.
  rewrite stop_steps. cbv zeta.
  destruct skip_order_cancellation.
  - intros _ Htasks Hcancelled. simpl. repeat split; try reflexivity.
    exact Hcancelled.
  - destruct (trace_outcome (cancel_trace E (markets s) true)) as [[|] |];
      [| | discriminate]; intros _ Htasks Hcancelled; simpl;
      repeat split; try reflexivity; exact Hcancelled.
Qed.

Lemma stop_clears_run_witness :
  strategy (final (stop arbitrage_externals false running_app)) = None
  /\ clock (final (stop arbitrage_externals false running_app)) = None.
Proof.
  destruct (@stop_clears_run arbitrage_externals false running_app)
    as (_ & _ & Hs & _ & Hc & _).
  - reflexivity.
  - split; [exact Hs | exact Hc].
Defined.

(** X9: stop(skip_order_cancellation=True) always returns, sends no
    cancel request, prints only its first line and keeps the markets. *)
Theorem stop_skipping_cancellation (E : Externals) (s : App) :
  result (stop E true s) = Ok tt
  /\ cancel_calls (final (stop E true s)) = cancel_calls s
  /\ markets (final (stop E true s)) = markets s
  /\ app_log (final (stop E true s)) = (app_log s ++ [winding_down])%list.
Proof. rewrite stop_steps. repeat split; reflexivity. Qed.

(** X10: when the cancellation raises, stop() raises the same exception
    before it has wound anything down: wallet, strategy, market pair,
    clock and strategy task are as they were, the task is not cancelled,
    the reporting module is not stopped and the markets are kept. *)
Theorem stop_raising_leaves_run (E : Externals) (s : App) (e : Exn) :
  result (_cancel_outstanding_orders E s) = Raise e ->
  result (stop E false s) = Raise e
  /\ same_run s (final (stop E false s))
  /\ reporting_module (final (stop E false s)) = reporting_module s.
Proof.
  rewrite cancel_steps, stop_steps. unfold result at 1, fst. intros ->.
  simpl. split; [reflexivity |].
  split; [unfold same_run; repeat split; reflexivity | reflexivity].
Qed.



(** X12: exit(force=False) whose cancellation returns True waits one
    second and calls app.exit(), having printed the closing line of the
    cancellation last. *)
Theorem exit_after_successful_cancellation (E : Externals) (s : App) :
  result (_cancel_outstanding_orders E s) = Ok true ->
  let s' := final (exit E false s) in
  result (exit E false s) = Ok tt
  /\ app_exited s' = true
  /\ slept s' = (slept s ++ [1%Q])%list
  /\ exists earlier, app_log s' = (earlier ++ [all_cancelled_line])%list.
Proof.
  rewrite cancel_steps, exit_steps. unfold result at 1, fst. intros H.
  cbv zeta. rewrite H. simpl. repeat split; try reflexivity.
  unfold after_cancel. rewrite H. simpl.
  eexists (app_log s ++ _ :: _)%list.
  rewrite <- app_assoc. simpl. reflexivity.
Qed.

Lemma exit_after_successful_cancellation_witness :
  app_exited
    (final (exit arbitrage_externals false (example_app healthy_markets))) =
  true.
Proof.
  apply (@exit_after_successful_cancellation arbitrage_externals
           (example_app healthy_markets)).
  reflexivity.
Defined.


Lemma stop_raising_witness :
  result (stop arbitrage_externals false (example_app markets_with_none)) =
  Raise (none_has_no "cancel_all").
Proof.
  apply (@stop_raising_leaves_run arbitrage_externals
           (example_app markets_with_none) (none_has_no "cancel_all")).
  reflexivity.
Defined.


(** X14: an entry of self.markets that is None, under a name the loop
    does not skip, makes stop() and exit() without force raise: the run
    is not wound down and app.exit() is not called; only stop(True) and
    exit(True) still go through. *)
Theorem missing_market_blocks_wind_down
    (E : Externals) (s : App) (name : string) :
  In (name, None) (markets s) ->
  skips E name = false ->
  exists e,
    result (stop E false s) = Raise e
    /\ result (exit E false s) = Raise e
    /\ strategy (final (stop E false s)) = strategy s
    /\ clock (final (stop E false s)) = clock s
    /\ app_exited (final (exit E false s)) = app_exited s
    /\ result (stop E true s) = Ok tt
    /\ result (exit E true s) = Ok tt
    /\ app_exited (final (exit E true s)) = true.
Proof.
  intros Hin Hskip.
  destruct (cancel_raises_on_missing_market E s name Hin Hskip) as [e He].
  exists e. rewrite !stop_steps, !exit_steps. cbv zeta. rewrite He.
  repeat split; reflexivity.
Qed.

Lemma missing_market_witness :
  exists e,
    result (exit arbitrage_externals false (example_app markets_with_none)) =
    Raise e.
Proof.
  destruct (@missing_market_blocks_wind_down arbitrage_externals
              (example_app markets_with_none) "kraken")
    as (e & _ & He & _).
  - left. reflexivity.
  - reflexivity.
  - exists e. exact He.
Defined.

(** ** Initialising the markets *)

Lemma dict_get_set_other (V : Type) (k k' : string) (v : V) (d : Dict V) :
  k <> k' -> dict_get k (dict_set k' v d) = dict_get k d.
Proof.
  intros Hne. induction d as [| [k0 v0] r IH]; simpl.
  - apply String.eqb_neq in Hne. rewrite Hne. reflexivity.
  - destruct (String.eqb_spec k' k0) as [-> | Hne0]; simpl.
    + apply String.eqb_neq in Hne. rewrite Hne. reflexivity.
    + destruct (k =? k0); [reflexivity | exact IH].
Qed.

Lemma initialize_markets_steps (E : Externals)
    (market_names : list (string * string)) :
  forall s : App,
    _initialize_markets E market_names s =
    (Ok tt,
     set_markets
       (fold_left
          (fun ms item =>
             dict_set (fst item)
               (built_market E (wallet s) (fst item) (snd item)) ms)
          market_names (markets s)) s).
Proof.
  unfold _initialize_markets.
  induction market_names as [| [market_name symbol] r IH]; intros s.
  - simpl. unfold ret. destruct s. reflexivity.
  - simpl. unfold bind at 1. unfold bind at 1. unfold get, modify.
    rewrite IH. reflexivity.
Qed.

Lemma fold_dict_set_lookup (E : Externals) (w : option Web3Wallet)
    (market_names : list (string * string)) (name : string) :
  forall ms : Markets,
    dict_get name
      (fold_left
         (fun ms item =>
            dict_set (fst item) (built_market E w (fst item) (snd item)) ms)
         market_names ms) =
    match last_symbol name market_names with
    | Some symbol => Some (built_market E w name symbol)
    | None => dict_get name ms
    end.
Proof.
  induction market_names as [| [n symbol] r IH]; intros ms; simpl.
  - reflexivity.
  - rewrite IH. destruct (last_symbol name r); [reflexivity |].
    destruct (String.eqb_spec name n) as [-> | Hne].
    + apply dict_get_set_same.
    + apply dict_get_set_other, Hne.
Qed.

(** X15: _initialize_markets always returns and touches only
    self.markets; afterwards every name it was given maps to the market
    built for the symbol it was last given with, every other name maps to
    what it did before, and a name other than ddex, binance and
    radar_relay maps to None. *)
Theorem initialize_markets_lookup (E : Externals)
    (market_names : list (string * string)) (s : App) (name : string) :
  let s' := final (_initialize_markets E market_names s) in
  _initialize_markets E market_names s = (Ok tt, set_markets (markets s') s)
  /\ dict_get name (markets s') =
     match last_symbol name market_names with
     | Some symbol => Some (built_market E (wallet s) name symbol)
     | None => dict_get name (markets s)
     end
  /\ (known_market name = false ->
      forall symbol, built_market E (wallet s) name symbol = None).
Proof.
  rewrite initialize_markets_steps. cbv zeta. unfold final, snd.
  split; [reflexivity |].
  split; [apply fold_dict_set_lookup |].
  unfold known_market, built_market. simpl. intros H symbol.
  destruct (name =? "ddex"); [discriminate |].
  destruct (name =? "binance"); [discriminate |].
  destruct (name =? "radar_relay"); [discriminate | reflexivity].
Qed.

(** X16: initialising a market under an unknown name stores None under
    it, replacing a market already there, and from then on cancelling
    the outstanding orders raises. *)
Theorem unknown_market_breaks_cancellation
    (E : Externals) (s : App) (name symbol : string) :
  known_market name = false ->
  let s' := final (_initialize_markets E [(name, symbol)] s) in
  dict_get name (markets s') = Some None
  /\ exists e, result (_cancel_outstanding_orders E s') = Raise e.
Proof.
  intros Hunknown s'.
  assert (Hbuilt : built_market E (wallet s) name symbol = None).
  { revert Hunknown. unfold known_market, built_market. simpl.
    destruct (name =? "ddex"); [discriminate |].
    destruct (name =? "binance"); [discriminate |].
    destruct (name =? "radar_relay"); [discriminate | reflexivity]. }
  assert (Hget : dict_get name (markets s') = Some None).
  { unfold s'. rewrite initialize_markets_steps. unfold final, snd.
    simpl. rewrite Hbuilt. apply dict_get_set_same. }
  split; [exact Hget |].
  assert (Hin : In (name, None) (markets s')).
  { clear - Hget. induction (markets s') as [| [k v] r IH];
      simpl in *; [discriminate |].
    destruct (String.eqb_spec name k) as [-> | Hne].
    - left. congruence.
    - right. apply IH, Hget. }
  assert (Hskip : skips E name = false).
  { unfold skips. revert Hunknown. unfold known_market. simpl.
    destruct (name =? "radar_relay");
      [rewrite !orb_true_r; discriminate | intros _; apply andb_false_r]. }
  destruct (cancel_raises_on_missing_market E s' name Hin Hskip) as [e He].
  exists e. rewrite cancel_steps. exact He.
Qed.

Lemma unknown_market_witness :
  exists e,
    result (_cancel_outstanding_orders arbitrage_externals
              (final (_initialize_markets arbitrage_externals
                        [("binance_us", "ETH-USD")]
                        (example_app healthy_markets)))) = Raise e.
Proof.
  apply (@unknown_market_breaks_cancellation arbitrage_externals
           (example_app healthy_markets) "binance_us" "ETH-USD").
  reflexivity.
Defined.

(** ** Starting a strategy: what else it does *)

Section StartOutcomes.

Variable E : Externals.

Lemma compile_rules_cases (setting : list (string * Q)) (s : App) :
  (exists rules, compile_rules E setting s = (Ok rules, s))
  \/ (exists re_str, compile_rules E setting s = (Raise (ReError re_str), s)).
Proof.
  induction setting as [| [re_str value] l IH]; simpl.
  - left. eexists. reflexivity.
  - destruct (re_compile E re_str); [| right; eexists; reflexivity].
    unfold bind. destruct IH as [[rules ->] | [bad ->]].
    + left. eexists. reflexivity.
    + right. eexists. reflexivity.
Qed.

Lemma split_both_cases (m1 s1 m2 s2 : string) (s : App) :
  (split_error E m1 s1 m2 s2 = None
   /\ exists a1 a2, split_both E m1 s1 m2 s2 s = (Ok (Some (a1, a2)), s))
  \/ (exists msg,
        split_error E m1 s1 m2 s2 = Some msg
        /\ split_both E m1 s1 m2 s2 s =
           (Ok None, set_app_log (app_log s ++ [msg]) s)).
Proof.
  destruct (split_error E m1 s1 m2 s2) as [msg |] eqn:H.
  - right. exists msg. split; [reflexivity |].
    apply split_both_rejected, H.
  - left. split; [reflexivity |]. apply split_both_accepted, H.
Qed.

Lemma initialize_wallet_outcome (token_symbols : list string) (s : App) :
  (exists w, _initialize_wallet E token_symbols s =
             (Ok tt, set_wallet (Some w) s))
  \/ (acct s = None
      /\ _initialize_wallet E token_symbols s =
         (Raise (none_has_no "privateKey"), s)).
Proof.
  unfold _initialize_wallet, bind, get.
  destruct (acct s) as [a |].
  - left. eexists. reflexivity.
  - right. split; reflexivity.
Qed.

Lemma two_markets_found (m1 s1 m2 s2 : string) (s : App) :
  exists ms v1 v2,
    _initialize_markets E [(m1, s1); (m2, s2)] s = (Ok tt, set_markets ms s)
    /\ dict_get m1 ms = Some v1
    /\ dict_get m2 ms = Some v2.
Proof.
  rewrite initialize_markets_steps. simpl.
  eexists _, _, _. split; [reflexivity |].
  split; [| apply dict_get_set_same].
  destruct (String.eqb_spec m1 m2) as [-> | Hne].
  - rewrite dict_get_set_same.
    instantiate (1 := if m1 =? m2
                      then built_market E (wallet s) m2 s2
                      else built_market E (wallet s) m1 s1).
    rewrite String.eqb_refl. reflexivity.
  - rewrite (dict_get_set_other _ _ Hne), dict_get_set_same.
    apply String.eqb_neq in Hne. rewrite Hne. reflexivity.
Qed.

Lemma markets_getitem_found (name : string) (s : App)
    (v : option MarketBase) :
  dict_get name (markets s) = Some v ->
  markets_getitem name s = (Ok v, s).
Proof. unfold markets_getitem, bind, get. intros ->. reflexivity. Qed.

Ltac after_markets :=
  unfold bind at 1;
  match goal with
  | |- context [_initialize_markets E [(?m1, ?x1); (?m2, ?x2)] ?x] =>
      let ms := fresh "ms" in
      let v1 := fresh "v" in
      let v2 := fresh "v" in
      let Hms := fresh "Hms" in
      let Hv1 := fresh "Hv" in
      let Hv2 := fresh "Hv" in
      destruct (two_markets_found m1 x1 m2 x2 x)
        as (ms & v1 & v2 & Hms & Hv1 & Hv2);
      rewrite Hms;
      unfold bind at 1;
      rewrite (@markets_getitem_found m1 (set_markets ms x) v1 Hv1);
      unfold bind at 1;
      rewrite (@markets_getitem_found m2 (set_markets ms x) v2 Hv2);
      unfold bind, modify, ret
  end.

Ltac raised := left; eexists; split; [reflexivity |].
Ltac rejected msg Hrej :=
  right; left; exists msg; split; [exact Hrej | reflexivity].

Lemma cross_exchange_outcome (s : App) :
  variant_outcome E "cross_exchange_market_making" s
    (start_cross_exchange_market_making E s).
Proof.
  unfold start_cross_exchange_market_making. cbv zeta.
  unfold bind at 1.
  destruct (compile_rules_cases
              (xemm_top_depth_tolerance
                 (cross_exchange_market_making_config_map E)) s)
    as [[rules ->] | [bad ->]];
    [| unfold variant_outcome; raised; left; eexists; reflexivity].
  unfold bind at 1.
  match goal with
  | |- context [split_both E ?m1 ?x1 ?m2 ?x2 s] =>
      destruct (split_both_cases m1 x1 m2 x2 s)
        as [[Hacc (a1 & a2 & ->)] | (msg & Hrej & ->)]
  end;
    [| unfold variant_outcome; rejected msg Hrej].
  unfold bind at 1.
  match goal with
  | |- context [_initialize_wallet E ?l s] =>
      destruct (initialize_wallet_outcome l s) as [[w ->] | [Hacct ->]]
  end;
    [| unfold variant_outcome; raised; right; split; auto].
  after_markets.
  unfold variant_outcome. right. right. split; [exact Hacc |].
  eexists. split; [reflexivity |].
  split.
  - unfold consistent_run, configured_markets.
    change ("cross_exchange_market_making" =? "cross_exchange_market_making")
      with true.
    fields. eexists _, _. repeat split; try reflexivity; assumption.
  - fields. repeat split; try reflexivity. eexists. reflexivity.
Qed.

Lemma arbitrage_outcome (s : App) :
  variant_outcome E "arbitrage" s (start_arbitrage E s).
Proof.
  unfold start_arbitrage. cbv zeta.
  unfold bind at 1.
  match goal with
  | |- context [split_both E ?m1 ?x1 ?m2 ?x2 s] =>
      destruct (split_both_cases m1 x1 m2 x2 s)
        as [[Hacc (a1 & a2 & ->)] | (msg & Hrej & ->)]
  end;
    [| unfold variant_outcome; rejected msg Hrej].
  unfold bind at 1.
  match goal with
  | |- context [_initialize_wallet E ?l s] =>
      destruct (initialize_wallet_outcome l s) as [[w ->] | [Hacct ->]]
  end;
    [| unfold variant_outcome; raised; right; split; auto].
  after_markets.
  unfold variant_outcome. right. right. split; [exact Hacc |].
  eexists. split; [reflexivity |].
  split.
  - unfold consistent_run, configured_markets.
    change ("arbitrage" =? "cross_exchange_market_making") with false.
    fields. eexists _, _. repeat split; try reflexivity; assumption.
  - fields. repeat split; try reflexivity. eexists. reflexivity.
Qed.

End StartOutcomes.

(** The three ways [start_market_making] ends for a supported name. *)
Lemma start_market_making_cases (E : Externals) (strategy_name : string)
    (s : App) :
  supported strategy_name = true ->
  (exists e, start_market_making E strategy_name s = (Raise e, s)
             /\ ((exists re_str, e = ReError re_str)
                 \/ (e = none_has_no "privateKey" /\ acct s = None)))
  \/ (exists msg, symbols_rejected E strategy_name = Some msg
                  /\ start_market_making E strategy_name s =
                     (Ok tt, set_app_log (app_log s ++ [msg]) s))
  \/ (symbols_rejected E strategy_name = None
      /\ exists s1, start_market_making E strategy_name s =
                    (Ok tt, clock_started strategy_name s1)
                    /\ consistent_run E strategy_name s1
                    /\ tasks s1 = tasks s
                    /\ app_log s1 = app_log s
                    /\ (exists w, wallet s1 = Some w)).
Proof.
  unfold supported, start_market_making. intros Hsup.
  assert (Hgo : forall variant : M bool,
             variant_outcome E strategy_name s (variant s) ->
             (exists e,
                 (proceed <- variant ;;
                  if proceed then start_clock strategy_name else ret tt) s =
                 (Raise e, s)
                 /\ ((exists re_str, e = ReError re_str)
                     \/ (e = none_has_no "privateKey" /\ acct s = None)))
             \/ (exists msg,
                    symbols_rejected E strategy_name = Some msg
                    /\ (proceed <- variant ;;
                        if proceed then start_clock strategy_name
                        else ret tt) s =
                       (Ok tt, set_app_log (app_log s ++ [msg]) s))
             \/ (symbols_rejected E strategy_name = None
                 /\ exists s1,
                      (proceed <- variant ;;
                       if proceed then start_clock strategy_name
                       else ret tt) s =
                      (Ok tt, clock_started strategy_name s1)
                      /\ consistent_run E strategy_name s1
                      /\ tasks s1 = tasks s
                      /\ app_log s1 = app_log s
                      /\ (exists w, wallet s1 = Some w))).
  { intros variant [(e & Hr & He) | [(msg & Hrej & Hr) | (Hacc & s1 & Hr & H)]];
      unfold bind; rewrite Hr.
    - left. exists e. split; [reflexivity | exact He].
    - right. left. exists msg. split; [exact Hrej | reflexivity].
    - right. right. split; [exact Hacc |]. exists s1.
      split; [apply start_clock_steps | exact H]. }
  destruct (String.eqb_spec strategy_name "cross_exchange_market_making")
    as [-> | Hx].
  - apply Hgo, cross_exchange_outcome.
  - simpl in Hsup.
    destruct (String.eqb_spec strategy_name "arbitrage") as [-> | Ha];
      [| discriminate].
    apply Hgo, arbitrage_outcome.
Qed.

(** X17: when start_market_making raises, it has changed nothing: the
    exception is NotImplementedError for an unsupported name, re.error
    for a tolerance pattern that does not compile, or the AttributeError
    of a missing account, all raised before the wallet is created. *)
Theorem start_market_making_raises_cleanly
    (E : Externals) (strategy_name : string) (s : App) (e : Exn) :
  result (start_market_making E strategy_name s) = Raise e ->
  final (start_market_making E strategy_name s) = s
  /\ ((e = NotImplementedError /\ supported strategy_name = false)
      \/ (exists re_str, e = ReError re_str)
      \/ (e = none_has_no "privateKey" /\ acct s = None)).
Proof.
  destruct (supported strategy_name) eqn:Hsup.
  - destruct (start_market_making_cases E strategy_name s Hsup)
      as [(e' & -> & He) | [(msg & _ & ->) | (_ & s1 & -> & _)]];
      simpl; [| discriminate | discriminate].
    intros [= <-]. split; [reflexivity |].
    destruct He as [He | He]; auto.
  - rewrite (unsupported_raises E strategy_name s Hsup). simpl.
    intros [= <-]. auto.
Qed.

Lemma start_market_making_raises_witness :
  final (start_market_making arbitrage_externals "arbitrage" init_app) =
  init_app.
Proof.
  apply (@start_market_making_raises_cleanly arbitrage_externals "arbitrage"
           init_app (none_has_no "privateKey")).
  reflexivity.
Defined.

(** X18: a start that got past the symbol check and returned leaves a
    consistent run: the strategy is built on the one stored market pair,
    whose two markets are the objects stored in self.markets under the
    configured names (lower case) and whose symbols are the configured
    ones (upper case); the clock lists those same objects. *)
Theorem started_run_is_consistent
    (E : Externals) (strategy_name : string) (s : App) :
  symbols_rejected E strategy_name = None ->
  result (start_market_making E strategy_name s) = Ok tt ->
  let s' := final (start_market_making E strategy_name s) in
  consistent_run E strategy_name s'
  /\ clock s' = Some (clock_of s')
  /\ app_log s' = (app_log s ++ [started_line strategy_name])%list.
Proof.
  intros Hacc.
  destruct (supported strategy_name) eqn:Hsup;
    [| rewrite (unsupported_raises E strategy_name s Hsup); discriminate].
  destruct (start_market_making_cases E strategy_name s Hsup)
    as [(e' & -> & _) | [(msg & Hrej & _)
                        | (_ & s1 & -> & Hrun & _ & Hlog & _)]];
    [discriminate | congruence |].
  intros _. simpl. rewrite Hlog. repeat split; try reflexivity.
  exact Hrun.
Qed.

Lemma started_run_witness : consistent_run arbitrage_externals "arbitrage"
                              running_app.
Proof.
  apply (@started_run_is_consistent arbitrage_externals "arbitrage"
           (example_app healthy_markets)); reflexivity.
Defined.

(** X19: once a start has gone through, status() no longer answers True
    and a further start() schedules nothing, whatever the settings have
    become. *)
Theorem running_strategy_blocks_start
    (E E' : Externals) (strategy_name : string) (s : App)
    (log_level : option string) :
  symbols_rejected E strategy_name = None ->
  result (start_market_making E strategy_name s) = Ok tt ->
  let s' := final (start_market_making E strategy_name s) in
  result (status E' s') <> Ok true
  /\ tasks (final (start E' log_level s')) = tasks s'
  /\ strategy (final (start E' log_level s')) = strategy s'.
Proof.
  intros Hacc.
  destruct (supported strategy_name) eqn:Hsup;
    [| rewrite (unsupported_raises E strategy_name s Hsup); discriminate].
  destruct (start_market_making_cases E strategy_name s Hsup)
    as [(e' & -> & _) | [(msg & Hrej & _)
                        | (_ & s1 & -> & Hrun & _)]];
    [discriminate | congruence |].
  intros _. simpl.
  destruct Hrun as (p & st & _ & Hst & _).
  assert (Hset : strategy (clock_started strategy_name s1) <> None).
  { simpl. rewrite Hst. discriminate. }
  assert (Hrefuse : result (status E' (clock_started strategy_name s1))
                    <> Ok true).
  { apply status_frame, Hset. }
  split; [exact Hrefuse |].
  rewrite (start_gives_up E' log_level _ Hrefuse).
  destruct (status_frame E' (clock_started strategy_name s1))
    as [(_ & _ & _ & Hs & _ & _ & Ht) _].
  split; [exact Ht | exact Hs].
Qed.

Lemma running_strategy_blocks_witness :
  result (status arbitrage_externals running_app) <> Ok true.
Proof.
  apply (@running_strategy_blocks_start arbitrage_externals
           arbitrage_externals "arbitrage" (example_app healthy_markets)
           None); reflexivity.
Defined.

(** X20: a stop() that returns makes the application startable again:
    afterwards status() answers True as soon as the configuration is
    complete, the node answers and no remaining market entry is None;
    after a successful cancellation there is no market left at all. *)
Theorem stop_makes_startable (E E' : Externals)
    (skip_order_cancellation : bool) (s : App) :
  result (stop E skip_order_cancellation s) = Ok tt ->
  let s' := final (stop E skip_order_cancellation s) in
  (result (status E' s') = Ok true <->
   config_complete E' = true
   /\ web3_isConnected E' (ethereum_rpc_url E') = Some true
   /\ every_market_present (markets s'))
  /\ (skip_order_cancellation = false ->
      result (_cancel_outstanding_orders E s) = Ok true ->
      markets s' = []).
Proof.
  intros Hok s'.
  assert (Hnone : strategy s' = None).
  { unfold s'. revert Hok. rewrite stop_steps. cbv zeta.
    destruct skip_order_cancellation; [reflexivity |].
    destruct (trace_outcome (cancel_trace E (markets s) true)) as [[|] |];
      [reflexivity | reflexivity | discriminate]. }
  split.
  - rewrite status_true_conditions, Hnone. tauto.
  - intros -> Hc. unfold s'. rewrite cancel_steps in Hc.
    unfold result, fst in Hc. rewrite stop_steps. cbv zeta. rewrite Hc.
    reflexivity.
Qed.

Lemma stop_makes_startable_witness :
  result (status arbitrage_externals
            (final (stop arbitrage_externals false running_app))) = Ok true.
Proof.
  destruct (@stop_makes_startable arbitrage_externals arbitrage_externals
              false running_app) as [Hiff Hempty].
  - reflexivity.
  - apply Hiff. repeat split.
    rewrite Hempty; [constructor | reflexivity | reflexivity].
Defined.

(** ** The command handler: what else it does *)

Lemma handle_command_frame (E : Externals) (raw_command : string)
    (s : App) :
  only_scheduled E s (final (_handle_command E raw_command s)).
Proof.
  unfold _handle_command, try_except. unfold bind at 1. unfold get at 1.
  destruct (placeholder_mode s).
  { unfold only_scheduled. simpl. repeat split; auto. }
  unfold bind at 1. unfold logger at 1, modify at 1.
  destruct (parse_args E (PyStr.split (PyStr.strip (PyStr.lower raw_command))))
    as [e | | [| log_level]].
  - unfold raise. destruct e; unfold only_scheduled; simpl;
      repeat split; auto.
  - unfold only_scheduled. simpl. repeat split; auto.
  - unfold call. unfold bind at 1. rewrite status_steps.
    destruct (status_result E _) as [b | e].
    + unfold only_scheduled. simpl. repeat split; auto.
    + destruct e; unfold only_scheduled; simpl; repeat split; auto.
  - unfold call. rewrite start_steps.
    destruct (status_result E _) as [[|] | e].
    + unfold only_scheduled. simpl. repeat split; auto.
    + unfold only_scheduled. simpl. repeat split; auto.
    + destruct e; unfold only_scheduled; simpl; repeat split; auto.
Qed.

(** X21: a line that the parser rejects, resolves to no function, or
    resolves to status or start (the two commands embedded here) is
    handled without an exception leaving the handler and without
    touching the run: wallet, markets, market pair, strategy, clock,
    strategy task, account and exit flag are as before and no cancel
    request is sent; the only possible change to the event loop is one
    added task, the one of start(). *)
Theorem handle_command_only_schedules (E : Externals)
    (raw_command : string) (s : App) :
  result (_handle_command E raw_command s) = Ok tt
  /\ only_scheduled E s (final (_handle_command E raw_command s)).
Proof.
  split; [apply handle_command_returns | apply handle_command_frame].
Qed.

(** While the configuration prompts are running ([placeholder_mode]), the
    handler drops every line. *)
Lemma handle_command_in_placeholder_mode (E : Externals)
    (raw_command : string) (s : App) :
  placeholder_mode s = true ->
  _handle_command E raw_command s = (Ok tt, s).
Proof.
  intros H. unfold _handle_command, try_except, bind, get.
  rewrite H. reflexivity.
Qed.

(** ** Lower case and stripping *)

Lemma ascii_cases (P : ascii -> Prop) :
  (forall b0 b1 b2 b3 b4 b5 b6 b7, P (Ascii b0 b1 b2 b3 b4 b5 b6 b7)) ->
  forall c, P c.
Proof. intros H [b0 b1 b2 b3 b4 b5 b6 b7]. apply H. Qed.

Lemma lower_char_idem (c : ascii) :
  PyStr.lower_char (PyStr.lower_char c) = PyStr.lower_char c.
Proof.
  revert c. apply ascii_cases.
  intros [|] [|] [|] [|] [|] [|] [|] [|]; vm_compute; reflexivity.
Qed.

Lemma is_space_lower_char (c : ascii) :
  PyStr.is_space (PyStr.lower_char c) = PyStr.is_space c.
Proof.
  revert c. apply ascii_cases.
  intros [|] [|] [|] [|] [|] [|] [|] [|]; vm_compute; reflexivity.
Qed.

Lemma lower_as_map (s : string) :
  list_ascii_of_string (PyStr.lower s) =
  map PyStr.lower_char (list_ascii_of_string s).
Proof. induction s as [| c r IH]; simpl; [| rewrite IH]; reflexivity. Qed.

Lemma lstrip_as_drop (s : string) :
  list_ascii_of_string (PyStr.lstrip s) =
  drop_spaces (list_ascii_of_string s).
Proof.
  induction s as [| c r IH]; simpl; [reflexivity |].
  destruct (PyStr.is_space c); [exact IH | reflexivity].
Qed.

Lemma reverse_as_rev (s : string) :
  list_ascii_of_string (PyStr.reverse s) = rev (list_ascii_of_string s).
Proof.
  unfold PyStr.reverse. apply list_ascii_of_string_of_list_ascii.
Qed.

Lemma strip_as_list (s : string) :
  list_ascii_of_string (PyStr.strip s) =
  rev (drop_spaces (rev (drop_spaces (list_ascii_of_string s)))).
Proof.
  unfold PyStr.strip.
  rewrite reverse_as_rev, lstrip_as_drop, reverse_as_rev, lstrip_as_drop.
  reflexivity.
Qed.

Lemma drop_spaces_map_lower (l : list ascii) :
  drop_spaces (map PyStr.lower_char l) =
  map PyStr.lower_char (drop_spaces l).
Proof.
  induction l as [| c r IH]; simpl; [reflexivity |].
  rewrite is_space_lower_char.
  destruct (PyStr.is_space c); [exact IH | reflexivity].
Qed.

Lemma drop_spaces_idem (l : list ascii) :
  drop_spaces (drop_spaces l) = drop_spaces l.
Proof.
  induction l as [| c r IH]; simpl; [reflexivity |].
  destruct (PyStr.is_space c) eqn:Hc; [exact IH |].
  simpl. rewrite Hc. reflexivity.
Qed.

Lemma drop_spaces_split (l : list ascii) :
  exists blanks, l = (blanks ++ drop_spaces l)%list.
Proof.
  induction l as [| c r [blanks IH]]; simpl.
  - exists []. reflexivity.
  - destruct (PyStr.is_space c).
    + exists (c :: blanks). simpl. rewrite <- IH. reflexivity.
    + exists []. reflexivity.
Qed.

Lemma drop_spaces_fixed_app (l tail : list ascii) :
  l <> [] -> drop_spaces (l ++ tail) = (l ++ tail)%list ->
  drop_spaces l = l.
Proof.
  destruct l as [| c r]; [congruence |]. simpl. intros _.
  destruct (PyStr.is_space c); [| reflexivity].
  intros H. exfalso.
  destruct (drop_spaces_split (r ++ tail)) as [blanks Hb].
  rewrite H in Hb.
  assert (Hlen : List.length (r ++ tail) =
                 List.length (blanks ++ c :: r ++ tail)) by (f_equal; exact Hb).
  rewrite !length_app in Hlen. simpl in Hlen.
  rewrite ?length_app in Hlen. lia.
Qed.

(** Stripping twice is stripping once. *)
Lemma stripped_list_fixed (l : list ascii) :
  let x := rev (drop_spaces (rev (drop_spaces l))) in
  rev (drop_spaces (rev (drop_spaces x))) = x.
Proof.
  intros x.
  assert (Hfront : drop_spaces x = x).
  { unfold x. set (y := drop_spaces l).
    destruct (drop_spaces_split (rev y)) as [blanks Hb].
    destruct (drop_spaces (rev y)) as [| c r] eqn:Hd; [reflexivity |].
    apply (@drop_spaces_fixed_app _ (rev blanks)).
    - intros Hnil. apply (f_equal (@List.length ascii)) in Hnil.
      rewrite length_rev in Hnil. discriminate Hnil.
    - rewrite <- rev_app_distr, <- Hb, rev_involutive.
      apply drop_spaces_idem. }
  rewrite Hfront. unfold x. rewrite rev_involutive, drop_spaces_idem.
  reflexivity.
Qed.

Lemma string_of_list_inj (s t : string) :
  list_ascii_of_string s = list_ascii_of_string t -> s = t.
Proof.
  intros H. rewrite <- (string_of_list_ascii_of_string s),
              <- (string_of_list_ascii_of_string t), H.
  reflexivity.
Qed.

Lemma normalised_idem (raw_command : string) :
  normalised (normalised raw_command) = normalised raw_command.
Proof.
  unfold normalised. apply string_of_list_inj.
  rewrite strip_as_list, lower_as_map, strip_as_list, lower_as_map.
  set (l := list_ascii_of_string raw_command).
  rewrite map_rev, <- drop_spaces_map_lower, map_rev,
    <- drop_spaces_map_lower.
  rewrite map_map.
  rewrite (map_ext _ PyStr.lower_char
             (fun c => lower_char_idem c)).
  apply stripped_list_fixed.
Qed.

(** X22: the handler reads a line in lower case and without the white
    space around it, so a line and that form of it are handled alike:
    commands are insensitive to case and to surrounding blanks. *)
Theorem handle_command_normalises (E : Externals) (raw_command : string)
    (s : App) :
  _handle_command E raw_command s =
  _handle_command E (PyStr.strip (PyStr.lower raw_command)) s.
Proof.
  unfold _handle_command.
  fold (normalised raw_command).
  fold (normalised (normalised raw_command)).
  rewrite normalised_idem. reflexivity.
Qed.

(* ================================================================== *)
(** * Results on the query commands *)

Lemma positive_spec (q : Q) : positive q = true <-> (0 < q)%Q.
Proof.
  unfold positive, Qlt. simpl. rewrite Z.ltb_lt, Z.mul_1_r. reflexivity.
Qed.

Section QueryFacts.

Variable E : Externals.
Variable C : Console.

Lemma help_steps (command : string) (s : App) :
  command <> "all" ->
  help C command s =
  (fst (help_trace command (subparsers_actions C)),
   with_effects (snd (help_trace command (subparsers_actions C))) [] s).
Proof.
  intros Hne. unfold help. apply String.eqb_neq in Hne. rewrite Hne.
  revert s.
  induction (subparsers_actions C) as [| action r IH]; intros s; simpl.
  - unfold ret. rewrite with_effects_nil. reflexivity.
  - unfold bind. destruct (dict_get command action) as [text |].
    + rewrite log_with_effects, IH.
      destruct (help_trace command r) as [res ls]. simpl.
      rewrite with_effects_twice. reflexivity.
    + unfold raise. simpl. rewrite with_effects_nil. reflexivity.
Qed.

Lemma help_reads_only (command : string) (s : App) :
  exists lines, final (help C command s) = with_effects lines [] s.
Proof.
  destruct (String.eqb_spec command "all") as [-> | Hne].
  - unfold help. change ("all" =? "all") with true. cbv iota.
    rewrite log_with_effects. eexists. reflexivity.
  - rewrite (help_steps s Hne). eexists. reflexivity.
Qed.

Lemma get_wallet_balance_pure (s : App) :
  exists r, get_wallet_balance C s = (r, s).
Proof.
  unfold get_wallet_balance, bind, get.
  destruct (wallet s); eexists; reflexivity.
Qed.

Lemma get_exchange_balance_pure (exchange_name : string) (s : App) :
  exists r, get_exchange_balance C exchange_name s = (r, s).
Proof.
  unfold get_exchange_balance, bind.
  destruct (markets_getitem_pure exchange_name s) as [[[m |] | e] ->];
    eexists; reflexivity.
Qed.

Ltac reads_only :=
  repeat match goal with
  | |- context [log ?l ?x] => rewrite (log_with_effects l x)
  | |- context [get_wallet_balance C ?x] =>
      let r := fresh "r" in
      let H := fresh "H" in
      destruct (get_wallet_balance_pure x) as [[r | r] H]; rewrite H
  | |- context [get_exchange_balance C ?n ?x] =>
      let r := fresh "r" in
      let H := fresh "H" in
      destruct (get_exchange_balance_pure n x) as [[r | r] H]; rewrite H
  | |- context [markets_getitem ?n ?x] =>
      let r := fresh "r" in
      let H := fresh "H" in
      destruct (markets_getitem_pure n x) as [[[r |] | r] H]; rewrite H
  end;
  unfold raise; simpl; rewrite ?with_effects_twice;
  first [ eexists; reflexivity
        | exists []; rewrite with_effects_nil; reflexivity ].

Lemma get_balance_reads_only (currency : option string) (wallet_ : bool)
    (exchange : option string) (s : App) :
  exists lines,
    final (get_balance C currency wallet_ exchange s) =
    with_effects lines [] s.
Proof.
  unfold get_balance.
  destruct wallet_.
  - unfold bind at 1. unfold get at 1.
    destruct (wallet s) as [w |]; [destruct currency as [c |] |];
      unfold bind; reads_only.
  - destruct (truthy exchange); [| apply help_reads_only].
    unfold bind at 1. unfold get at 1.
    destruct (in_markets _ s); [| unfold bind; reads_only].
    destruct currency as [c |]; unfold bind; reads_only.
Qed.

Lemma list_reads_only (obj : string) (s : App) :
  exists lines, final (list_ E C obj s) = with_effects lines [] s.
Proof.
  unfold list_.
  destruct (obj =? "wallets").
  - destruct (List.length (list_wallets C) =? 0)%nat; reads_only.
  - destruct (obj =? "exchanges").
    + destruct (List.length (EXCHANGES C) =? 0)%nat; reads_only.
    + destruct (obj =? "configs"); [reads_only | apply help_reads_only].
Qed.

Lemma describe_reads_only (wallet_ : bool) (exchange : option string)
    (s : App) :
  exists lines, final (describe C wallet_ exchange s) = with_effects lines [] s.
Proof.
  unfold describe.
  destruct wallet_.
  - unfold bind at 1. unfold get at 1.
    destruct (wallet s) as [w |]; unfold bind; reads_only.
  - destruct exchange as [exchange_name |]; [| apply help_reads_only].
    unfold bind at 1. unfold get at 1.
    destruct (in_markets exchange_name s); unfold bind; reads_only.
Qed.

End QueryFacts.

(** X23: help, get_balance, list and describe only print: however they
    end (they may raise), the state they leave differs from the one they
    found by lines added to the console log. *)
Theorem query_commands_only_print (E : Externals) (C : Console) (s : App) :
  (forall command,
      exists lines, final (help C command s) = with_effects lines [] s)
  /\ (forall currency wallet_ exchange,
        exists lines,
          final (get_balance C currency wallet_ exchange s) =
          with_effects lines [] s)
  /\ (forall obj,
        exists lines, final (list_ E C obj s) = with_effects lines [] s)
  /\ (forall wallet_ exchange,
        exists lines,
          final (describe C wallet_ exchange s) = with_effects lines [] s).
Proof.
  split; [intros; apply help_reads_only |].
  split; [intros; apply get_balance_reads_only |].
  split; [intros; apply list_reads_only |].
  intros; apply describe_reads_only.
Qed.

(** X24: get_exchange_balance raises KeyError for a name that is not in
    self.markets and AttributeError for one stored as None; otherwise it
    returns, in the market's order, exactly the rows whose balance is
    greater than zero. *)
Theorem get_exchange_balance_rows (C : Console) (exchange_name : string)
    (s : App) :
  match dict_get exchange_name (markets s) with
  | None =>
      get_exchange_balance C exchange_name s =
      (Raise (KeyError exchange_name), s)
  | Some None =>
      get_exchange_balance C exchange_name s =
      (Raise (none_has_no "get_all_balances"), s)
  | Some (Some m) =>
      exists rows,
        get_exchange_balance C exchange_name s = (Ok rows, s)
        /\ rows = filter (fun row => positive (snd row))
                         (market_all_balances C m)
        /\ (forall currency balance,
              In (currency, balance) rows <->
              In (currency, balance) (market_all_balances C m)
              /\ (0 < balance)%Q)
  end.
Proof.
  unfold get_exchange_balance, markets_getitem, bind, get.
  destruct (dict_get exchange_name (markets s)) as [[m |] |];
    [| reflexivity | reflexivity].
  eexists. split; [reflexivity |]. split; [reflexivity |].
  intros currency balance. rewrite filter_In. simpl.
  rewrite positive_spec. reflexivity.
Qed.

Lemma help_trace_known (command : string) (actions : list (Dict string)) :
  Forall (fun action => dict_get command action <> None) actions ->
  fst (help_trace command actions) = Ok tt
  /\ map Some (snd (help_trace command actions)) =
     map (dict_get command) actions.
Proof.
  induction 1 as [| action r Ha Hr IH]; simpl; [auto |].
  destruct (dict_get command action) as [text |]; [| congruence].
  destruct (help_trace command r) as [res ls]. simpl in *.
  destruct IH as [-> ->]. auto.
Qed.

Lemma help_trace_unknown (command : string)
    (known : list (Dict string)) (action : Dict string)
    (rest : list (Dict string)) :
  Forall (fun a => dict_get command a <> None) known ->
  dict_get command action = None ->
  fst (help_trace command (known ++ action :: rest)) =
    Raise (none_has_no "format_help")
  /\ map Some (snd (help_trace command (known ++ action :: rest))) =
     map (dict_get command) known.
Proof.
  intros Hknown Hnone.
  induction Hknown as [| a r Ha Hr IH]; simpl.
  - rewrite Hnone. auto.
  - destruct (dict_get command a) as [text |]; [| congruence].
    destruct (help_trace command (r ++ action :: rest)) as [res ls].
    simpl in *. destruct IH as [-> ->]. auto.
Qed.

(** X25: for a command that every subparsers action of the parser knows,
    help prints that command's help once per action, in order, and
    returns. *)
Theorem help_prints_per_action (C : Console) (command : string) (s : App) :
  command <> "all" ->
  Forall (fun action => dict_get command action <> None)
         (subparsers_actions C) ->
  result (help C command s) = Ok tt
  /\ exists lines,
       app_log (final (help C command s)) = (app_log s ++ lines)%list
       /\ map Some lines = map (dict_get command) (subparsers_actions C).
Proof.
  intros Hne Hknown. rewrite (help_steps C s Hne). unfold result, final.
  simpl. destruct (@help_trace_known command _ Hknown) as [Hres Hlines].
  split; [exact Hres |]. eexists. split; [reflexivity | exact Hlines].
Qed.

Lemma help_prints_witness :
  result (help example_console "describe" (example_app [])) = Ok tt.
Proof.
  apply (@help_prints_per_action example_console "describe" (example_app [])).
  - discriminate.
  - simpl. repeat constructor; simpl; discriminate.
Defined.

(** X26: help raises AttributeError at the first subparsers action that
    does not know the command, having printed the help of the actions
    before it and of none after it. *)
Theorem help_raises_at_unknowing_action (C : Console) (command : string)
    (s : App) (known : list (Dict string)) (action : Dict string)
    (rest : list (Dict string)) :
  command <> "all" ->
  subparsers_actions C = (known ++ action :: rest)%list ->
  Forall (fun a => dict_get command a <> None) known ->
  dict_get command action = None ->
  result (help C command s) = Raise (none_has_no "format_help")
  /\ exists lines,
       app_log (final (help C command s)) = (app_log s ++ lines)%list
       /\ map Some lines = map (dict_get command) known.
Proof.
  intros Hne Hactions Hknown Hnone.
  rewrite (help_steps C s Hne), Hactions. unfold result, final. simpl.
  destruct (@help_trace_unknown command known action rest Hknown Hnone)
    as [Hres Hlines].
  split; [exact Hres |]. eexists. split; [reflexivity | exact Hlines].
Qed.

Lemma help_raises_witness :
  result (help example_console "list" (example_app [])) =
  Raise (none_has_no "format_help").
Proof.
  apply (@help_raises_at_unknowing_action example_console "list"
           (example_app [])
           [[("list", "usage: list"); ("describe", "usage: describe");
             ("get_balance", "usage: get_balance")]]
           [("describe", "more on describe")] []).
  - discriminate.
  - reflexivity.
  - repeat constructor. simpl. discriminate.
  - reflexivity.
Defined.

(** X27: asked about an exchange that is not in self.markets (and not
    about the wallet), describe raises InvalidCommandError and prints
    nothing, while get_balance prints that the exchange is not
    initialised and returns. *)
Theorem uninitialised_exchange (C : Console) (exchange_name : string)
    (currency : option string) (s : App) :
  dict_get exchange_name (markets s) = None ->
  exchange_name <> "" ->
  describe C false (Some exchange_name) s =
    (Raise (InvalidCommandError exchange_not_specified_initialized), s)
  /\ get_balance C currency false (Some exchange_name) s =
     (Ok tt, with_effects [exchange_not_initialized] [] s).
Proof.
  intros Hnone Hne.
  assert (Ht : truthy (Some exchange_name) = true).
  { destruct exchange_name; [congruence | reflexivity]. }
  assert (Hin : in_markets exchange_name s = false).
  { unfold in_markets. rewrite Hnone. reflexivity. }
  split.
  - unfold describe, bind, get. cbv beta iota. rewrite Hin. reflexivity.
  - unfold get_balance. rewrite Ht. unfold bind at 1. unfold get.
    cbv beta iota. rewrite Hin. apply log_with_effects.
Qed.

Lemma uninitialised_exchange_witness :
  result (describe example_console false (Some "kraken")
            (example_app healthy_markets)) =
  Raise (InvalidCommandError exchange_not_specified_initialized).
Proof.
  destruct (@uninitialised_exchange example_console "kraken" None
              (example_app healthy_markets)) as [H _].
  - reflexivity.
  - discriminate.
  - rewrite H. reflexivity.
Defined.

Example exchange_balance_rows :
  result (get_exchange_balance example_console "binance"
            (example_app healthy_markets)) = Ok [("WETH", (3 # 2)%Q)].
Proof. reflexivity. Qed.

Example help_stops_at_unknowing_action :
  result (help example_console "list" (example_app [])) =
    Raise (none_has_no "format_help")
  /\ app_log (final (help example_console "list" (example_app []))) =
     ["usage: list"]
  /\ app_log (final (help example_console "describe" (example_app []))) =
     ["usage: describe"; "more on describe"].
Proof. repeat split; reflexivity. Qed.

(* ================================================================== *)
(** * Results on the wallet prompts *)

Lemma logged_times_log (n : nat) (line : string) (s : App) :
  app_log (logged_times n line s) = (app_log s ++ repeat line n)%list.
Proof.
  unfold logged_times. induction n as [| n IH]; simpl.
  - rewrite app_nil_r. reflexivity.
  - rewrite IH, <- app_assoc. f_equal.
    change (line :: repeat line n) with (repeat line (S n)).
    rewrite <- repeat_cons. reflexivity.
Qed.

Lemma logged_times_swap (n : nat) (line : string) (s : App) :
  logged_times n line (logged line s) = logged line (logged_times n line s).
Proof.
  unfold logged_times. induction n as [| n IH]; simpl; [reflexivity |].
  rewrite IH. reflexivity.
Qed.

Lemma logged_times_frame (n : nat) (line : string) (s : App) :
  acct (logged_times n line s) = acct s
  /\ same_run s (logged_times n line s).
Proof.
  unfold logged_times, same_run.
  induction n as [| n IH]; simpl; [repeat split |]. exact IH.
Qed.

Section WalletFacts.

Variable W : Wizard.

(** The first answer decides. *)
Lemma create_or_import_unusable (depth : nat) (choice : string)
    (answers : list string) (shown : list (string * bool)) (s : App) :
  unusable choice ->
  _create_or_import_wallet W (S depth) (choice :: answers) shown s =
  _create_or_import_wallet W depth answers
    (shown ++ [(wallet_prompt W, false)]) (logged invalid_choice s).
Proof.
  intros [Hi Hc]. apply String.eqb_neq in Hi, Hc.
  simpl. unfold ask at 1. rewrite Hi, Hc. reflexivity.
Qed.

Lemma create_or_import_exhausted (choice : string)
    (answers : list string) (shown : list (string * bool)) (s : App) :
  unusable choice ->
  _create_or_import_wallet W 0 (choice :: answers) shown s =
  Answered (Raise (RecursionError (recursion_message W))) answers
    (shown ++ [(wallet_prompt W, false)]) (logged invalid_choice s).
Proof.
  intros [Hi Hc]. apply String.eqb_neq in Hi, Hc.
  simpl. unfold ask at 1. rewrite Hi, Hc. reflexivity.
Qed.

Lemma create_or_import_waiting (depth : nat)
    (shown : list (string * bool)) (s : App) :
  _create_or_import_wallet W depth [] shown s =
  Waiting (shown ++ [(wallet_prompt W, false)]) s.
Proof. destruct depth; reflexivity. Qed.

Lemma create_or_import_create (depth : nat) (password : string)
    (rest : list string) (shown : list (string * bool)) (s : App) :
  _create_or_import_wallet W depth ("create" :: password :: rest) shown s =
  match create_and_save_wallet W password with
  | inl e =>
      Answered (Raise e) rest
        (shown ++ [(wallet_prompt W, false); (protect_password_prompt, true)])
        s
  | inr a =>
      Answered (Ok (address a)) rest
        (shown ++ [(wallet_prompt W, false); (protect_password_prompt, true)])
        (logged ("New wallet " ++ address a ++ " created")
           (set_acct (Some a) s))
  end.
Proof.
  destruct depth; simpl; unfold ask; simpl; rewrite <- app_assoc;
    reflexivity.
Qed.

Lemma create_or_import_import (depth : nat) (private_key password : string)
    (rest : list string) (shown : list (string * bool)) (s : App) :
  _create_or_import_wallet W depth
    ("import" :: private_key :: password :: rest) shown s =
  match import_and_save_wallet W password private_key with
  | inl e =>
      Answered (Raise e) rest
        (shown ++ [(wallet_prompt W, false); (private_key_prompt, true);
                   (protect_password_prompt, true)]) s
  | inr a =>
      Answered (Ok (address a)) rest
        (shown ++ [(wallet_prompt W, false); (private_key_prompt, true);
                   (protect_password_prompt, true)])
        (logged ("Wallet " ++ address a ++ " imported into hummingbot")
           (set_acct (Some a) s))
  end.
Proof.
  destruct depth; simpl; unfold ask; simpl; rewrite <- !app_assoc;
    reflexivity.
Qed.

(** Unusable answers are passed over, one invalid-choice line and one
    level of nesting each. *)
Lemma create_or_import_skips (wrong : list string) :
  Forall unusable wrong ->
  forall (depth : nat) (rest : list string) (shown : list (string * bool))
         (s : App),
    _create_or_import_wallet W (List.length wrong + depth) (wrong ++ rest)
      shown s =
    _create_or_import_wallet W depth rest
      (shown ++ repeat (wallet_prompt W, false) (List.length wrong))
      (logged_times (List.length wrong) invalid_choice s).
Proof.
  induction 1 as [| choice wrong Hu Hw IH]; intros depth rest shown s.
  - simpl. rewrite app_nil_r. reflexivity.
  - simpl app. simpl List.length. simpl Nat.add.
    rewrite (create_or_import_unusable _ _ _ _ Hu), IH.
    rewrite <- app_assoc. simpl.
    rewrite logged_times_swap. reflexivity.
Qed.

End WalletFacts.

(** X28: within the nesting the interpreter allows,
    _create_or_import_wallet passes over every answer other than import
    and create, printing the invalid-choice line and asking again each
    time; at the answer create it asks for a password (hidden), creates
    the wallet, stores the account and returns its address, leaving the
    answers that follow untouched. *)
Theorem create_or_import_retries_until_usable (W : Wizard) (depth : nat)
    (wrong : list string) (password : string) (rest : list string)
    (shown : list (string * bool)) (s : App) (a : LocalAccount) :
  Forall unusable wrong ->
  List.length wrong <= depth ->
  create_and_save_wallet W password = inr a ->
  exists s',
    _create_or_import_wallet W depth
      (wrong ++ "create" :: password :: rest) shown s =
    Answered (Ok (address a)) rest
      (shown ++ repeat (wallet_prompt W, false) (S (List.length wrong))
       ++ [(protect_password_prompt, true)]) s'
    /\ acct s' = Some a
    /\ app_log s' =
       (app_log s ++ repeat invalid_choice (List.length wrong)
        ++ [("New wallet " ++ address a ++ " created")%string])%list
    /\ same_run s s'.
Proof.
  intros Hwrong Hdepth Hcreate.
  replace depth with (List.length wrong + (depth - List.length wrong))
    by lia.
  rewrite (create_or_import_skips W Hwrong), create_or_import_create,
    Hcreate.
  eexists. split.
  - f_equal. rewrite <- app_assoc. f_equal.
    change (S (List.length wrong)) with (1 + List.length wrong).
    rewrite Nat.add_comm, repeat_app, <- app_assoc. reflexivity.
  - split; [reflexivity |]. split.
    + simpl. rewrite logged_times_log, <- app_assoc. reflexivity.
    + destruct (logged_times_frame (List.length wrong) invalid_choice s)
        as [_ Hframe].
      unfold same_run in *. simpl. exact Hframe.
Qed.

Lemma create_or_import_retries_witness :
  exists s',
    _create_or_import_wallet example_wizard 2
      (["yes"; "Create"] ++ "create" :: "pw" :: ["start"]) [] (example_app []) =
    Answered (Ok "0xnew") ["start"]
      ([] ++ repeat (wallet_prompt example_wizard, false) 3
       ++ [(protect_password_prompt, true)]) s'
    /\ acct s' = Some {| address := "0xnew"; privateKey := "k" |}
    /\ app_log s' =
       ([] ++ repeat invalid_choice 2 ++ ["New wallet 0xnew created"])%list
    /\ same_run (example_app []) s'.
Proof.
  apply (@create_or_import_retries_until_usable example_wizard 2
           ["yes"; "Create"] "pw" ["start"] [] (example_app [])
           {| address := "0xnew"; privateKey := "k" |}).
  - repeat constructor; discriminate.
  - simpl. lia.
  - reflexivity.
Defined.

(** X29: unusable answers alone never make _create_or_import_wallet
    return.  While they are no more than the nesting the interpreter
    allows, it is waiting at its first prompt again when they run out,
    with one invalid-choice line printed per answer and the account as
    it was; once they are more, it ends with RecursionError, the account
    still as it was. *)
Theorem create_or_import_unusable_answers (W : Wizard) (depth : nat)
    (answers : list string) (shown : list (string * bool)) (s : App) :
  Forall unusable answers ->
  (List.length answers <= depth ->
   exists s',
     _create_or_import_wallet W depth answers shown s =
     Waiting
       (shown ++ repeat (wallet_prompt W, false) (S (List.length answers)))
       s'
     /\ acct s' = acct s
     /\ app_log s' =
        (app_log s ++ repeat invalid_choice (List.length answers))%list)
  /\ (depth < List.length answers ->
      exists left shown' s',
        _create_or_import_wallet W depth answers shown s =
        Answered (Raise (RecursionError (recursion_message W))) left
          shown' s'
        /\ acct s' = acct s).
Proof.
  intros Hwrong. split.
  - intros Hdepth.
    pose proof (create_or_import_skips W Hwrong
                  (depth - List.length answers) [] shown s) as Hskip.
    rewrite app_nil_r in Hskip.
    replace (List.length answers + (depth - List.length answers))
      with depth in Hskip by lia.
    rewrite Hskip, create_or_import_waiting.
    eexists. split.
    + f_equal. rewrite <- app_assoc. f_equal.
      symmetry. apply repeat_cons.
    + split; [apply logged_times_frame | apply logged_times_log].
  - intros Hdepth.
    assert (Hsplit : answers =
                     (firstn depth answers ++ skipn depth answers)%list)
      by (symmetry; apply firstn_skipn).
    assert (Hlen : List.length (firstn depth answers) = depth)
      by (apply firstn_length_le; lia).
    assert (Hfirst : Forall unusable (firstn depth answers)).
    { apply Forall_forall. intros x Hx.
      apply (proj1 (Forall_forall _ _) Hwrong).
      rewrite Hsplit. apply in_or_app. left. exact Hx. }
    destruct (skipn depth answers) as [| choice rest] eqn:Hskipn.
    { apply (f_equal (@List.length string)) in Hsplit.
      rewrite length_app, Hlen in Hsplit. simpl in Hsplit. lia. }
    assert (Hchoice : unusable choice).
    { apply (proj1 (Forall_forall _ _) Hwrong).
      rewrite Hsplit. apply in_or_app. right. left. reflexivity. }
    pose proof (create_or_import_skips W Hfirst 0 (choice :: rest) shown s)
      as Hskip.
    rewrite Hlen, Nat.add_0_r, <- Hsplit in Hskip.
    rewrite Hskip, (@create_or_import_exhausted W choice _ _ _ Hchoice).
    eexists _, _, _. split; [reflexivity |].
    destruct (logged_times_frame depth invalid_choice s) as [Hacct _].
    simpl. exact Hacct.
Qed.

Lemma create_or_import_unusable_answers_witness :
  exists s',
    _create_or_import_wallet example_wizard 3 ["y"; "n"; ""] []
      (example_app []) =
    Waiting ([] ++ repeat (wallet_prompt example_wizard, false) 4) s'.
Proof.
  destruct (@create_or_import_unusable_answers example_wizard 3
              ["y"; "n"; ""] [] (example_app [])) as [Hwithin _].
  - repeat constructor; discriminate.
  - destruct Hwithin as (s' & H & _); [simpl; lia |].
    exists s'. exact H.
Defined.

Section UnlockFacts.

Variable E : Externals.
Variable C : Console.
Variable W : Wizard.

Lemma list_single_wallet (only : string) (s : App) :
  list_wallets C = [only] ->
  list_ E C "wallets" s = (Ok tt, logged only s).
Proof. unfold list_. simpl. intros ->. reflexivity. Qed.

(** One attempt with the single wallet [only]. *)
Lemma unlock_attempt (depth : nat) (only choice password : string)
    (rest : list string) (shown : list (string * bool)) (s : App) :
  list_wallets C = [only] ->
  PyStr.lower choice = "y" ->
  _unlock_wallet E C W depth (choice :: password :: rest) shown s =
  let shown' :=
    (shown ++ [(unlock_question, false); (enter_password_prompt, true)])%list in
  let s1 := logged only (logged "Existing wallets:" s) in
  match unlock_wallet W only password with
  | inr a =>
      Answered (Ok (address a)) rest shown'
        (set_acct (Some a) (logged ("Wallet " ++ address a ++ " unlocked") s1))
  | inl _ =>
      match depth with
      | O => Answered (Raise (RecursionError (recursion_message W))) rest
               shown' (logged cannot_unlock s1)
      | S depth' =>
          _unlock_wallet E C W depth' rest shown' (logged cannot_unlock s1)
      end
  end.
Proof.
  intros Hone Hy. destruct depth; simpl; rewrite Hy;
    change ("y" =? "y") with true; cbv iota;
    rewrite (list_single_wallet _ Hone), Hone;
    unfold try_unlock; rewrite <- app_assoc; simpl;
    destruct (unlock_wallet W only password); reflexivity.
Qed.

End UnlockFacts.

(** X30: with a single wallet file, _unlock_wallet never asks which
    wallet to use; within the nesting the interpreter allows, a password
    that does not unlock it prints the cannot-unlock line and starts
    over from the first question, and the first password that unlocks
    it stores the account and returns its address. *)
Theorem unlock_retries_wrong_passwords
    (E : Externals) (C : Console) (W : Wizard)
    (only : string) (wrongs : list string) (good : string)
    (rest : list string) (a : LocalAccount) :
  list_wallets C = [only] ->
  Forall (fun pw => exists e, unlock_wallet W only pw = inl e) wrongs ->
  unlock_wallet W only good = inr a ->
  forall (depth : nat) (shown : list (string * bool)) (s : App),
  List.length wrongs <= depth ->
  exists s',
    _unlock_wallet E C W depth
      (flat_map (fun pw => ["y"; pw]) wrongs ++ "y" :: good :: rest)
      shown s =
    Answered (Ok (address a)) rest
      (shown ++ flat_map (fun _ => attempt_prompts) (wrongs ++ [good])) s'
    /\ acct s' = Some a
    /\ app_log s' =
       (app_log s
        ++ flat_map (fun _ => failed_attempt_lines only) wrongs
        ++ ["Existing wallets:"; only;
            ("Wallet " ++ address a ++ " unlocked")%string])%list
    /\ same_run s s'.
Proof.
  intros Hone Hwrongs Hgood.
  induction Hwrongs as [| pw wrongs [e Hpw] Hw IH];
    intros depth shown s Hdepth.
  - simpl flat_map. simpl app.
    rewrite (@unlock_attempt E C W depth only "y" good rest shown s
               Hone eq_refl).
    cbv zeta. rewrite Hgood.
    eexists. split; [reflexivity |].
    split; [reflexivity |]. split.
    + simpl. rewrite <- !app_assoc. reflexivity.
    + unfold same_run. repeat split.
  - simpl flat_map. rewrite <- ?app_assoc. simpl app.
    rewrite (@unlock_attempt E C W depth only "y" pw _ shown s
               Hone eq_refl).
    cbv zeta. rewrite Hpw.
    destruct depth as [| depth']; [simpl in Hdepth; lia |].
    destruct (IH depth' (shown ++ attempt_prompts)%list
                 (logged cannot_unlock
                    (logged only (logged "Existing wallets:" s))))
      as (s' & Hrun & Hacct & Hlog & Hframe);
      [simpl in Hdepth; lia |].
    exists s'. split.
    + unfold attempt_prompts in *. rewrite Hrun.
      rewrite <- app_assoc. reflexivity.
    + split; [exact Hacct |]. split.
      * rewrite Hlog. simpl. rewrite <- !app_assoc. reflexivity.
      * unfold same_run in *. simpl in Hframe. exact Hframe.
Qed.

Lemma unlock_retries_witness :
  exists s',
    _unlock_wallet arbitrage_externals example_console example_wizard 2
      (flat_map (fun pw => ["y"; pw]) ["hunter2"; ""]
       ++ "y" :: "secret" :: ["status"])
      [] (example_app []) =
    Answered (Ok "0xabc") ["status"]
      ([] ++ flat_map (fun _ => attempt_prompts) (["hunter2"; ""] ++ ["secret"]))
      s'
    /\ acct s' = Some {| address := "0xabc"; privateKey := "k" |}.
Proof.
  destruct (@unlock_retries_wrong_passwords arbitrage_externals
              example_console example_wizard "0xabc" ["hunter2"; ""]
              "secret" ["status"]
              {| address := "0xabc"; privateKey := "k" |})
    with (depth := 2) (shown := @nil (string * bool))
         (s := example_app [])
    as (s' & Hrun & Hacct & _).
  - reflexivity.
  - repeat constructor; eexists; reflexivity.
  - reflexivity.
  - simpl. lia.
  - exists s'. split; [exact Hrun | exact Hacct].
Defined.
